(** * Vadodara historian: the multi-PLC polling service

    A shallow embedding of [multi_read_write.py] (the polling service) and of
    the device resolver of [debug_muli_read.py], with the properties of the
    design document checked against it.

    Conventions of the embedding.
    - Python [str] is [string]; characters are 8-bit and the string methods
      ([strip], [upper], [replace], [startswith], ...) act as CPython does on
      the ASCII range.
    - Python values that reach the code from spreadsheet cells or from the
      controllers are [pyval]; a value the code only passes to [str()] and
      [bool()] is [PyObj] with these two observations.
    - A call that may raise returns a sum or carries an outcome; [try/except]
      is a match on it.
    - The outside world (clock, ping, controller drivers, ODBC, file system,
      standard output) is a parameter of the functions that use it.
    - [print] returns on text of the ASCII range.  Four lines hold U+2192:
      the error line the two readers of the service pass to [log], and the
      header line the two readers of the debug script print.  On a standard
      output whose encoding has no such character (cp1252, the ANSI code
      page of a redirected Windows process) [print] raises
      [UnicodeEncodeError] there: what it does with these lines is a
      parameter. *)

From Stdlib Require Import String Ascii List ZArith Bool Arith Lia.
From Stdlib Require Import Permutation Sorted.
From Stdlib Require Import Numbers.DecimalString.
Import ListNotations.
Local Open Scope list_scope.
Local Open Scope string_scope.

(* ================================================================== *)
(** * Python strings *)
(* ================================================================== *)

Module PyStr.

(** [str.isspace] on one ASCII character: TAB..CR, FS..US and SPACE. *)
Definition isspace (c : ascii) : bool :=
  let n := nat_of_ascii c in
  (((9 <=? n) && (n <=? 13)) || ((28 <=? n) && (n <=? 32)))%nat.

Fixpoint lstrip (s : string) : string :=
  match s with
  | EmptyString => EmptyString
  | String c s' => if isspace c then lstrip s' else s
  end.

Fixpoint rstrip (s : string) : string :=
  match s with
  | EmptyString => EmptyString
  | String c s' =>
      match rstrip s' with
      | EmptyString => if isspace c then EmptyString else String c EmptyString
      | r => String c r
      end
  end.

(** [s.strip()] *)
Definition strip (s : string) : string := rstrip (lstrip s).

Definition upper_char (c : ascii) : ascii :=
  let n := nat_of_ascii c in
  if ((97 <=? n) && (n <=? 122))%nat then ascii_of_nat (n - 32) else c.

(** [s.upper()] *)
Fixpoint upper (s : string) : string :=
  match s with
  | EmptyString => EmptyString
  | String c s' => String (upper_char c) (upper s')
  end.

Definition lower_char (c : ascii) : ascii :=
  let n := nat_of_ascii c in
  if ((65 <=? n) && (n <=? 90))%nat then ascii_of_nat (n + 32) else c.

(** [s.lower()] *)
Fixpoint lower (s : string) : string :=
  match s with
  | EmptyString => EmptyString
  | String c s' => String (lower_char c) (lower s')
  end.

(** [s.startswith(p)] *)
Fixpoint startswith (p s : string) : bool :=
  match p, s with
  | EmptyString, _ => true
  | String _ _, EmptyString => false
  | String a p', String b s' => Ascii.eqb a b && startswith p' s'
  end.

(** [s.endswith(suf)]: some tail of [s] is [suf]. *)
Fixpoint endswith (suf s : string) : bool :=
  String.eqb s suf ||
  match s with
  | EmptyString => false
  | String _ s' => endswith suf s'
  end.

(** [sub in s] *)
Fixpoint contains (sub s : string) : bool :=
  startswith sub s ||
  match s with
  | EmptyString => false
  | String _ s' => contains sub s'
  end.

(** [c in s] for one character [c]. *)
Definition has_char (a : ascii) (s : string) : bool := contains (String a "") s.

(** [s.replace(old, new)] for a non-empty [old]: one pass from the left,
    occurrences do not overlap.  [skip] counts the characters of the
    occurrence just matched that are still to be dropped. *)
Fixpoint replace_from (skip : nat) (old new s : string) : string :=
  match s with
  | EmptyString => EmptyString
  | String c s' =>
      match skip with
      | S k => replace_from k old new s'
      | O =>
          if startswith old s
          then new ++ replace_from (String.length old - 1) old new s'
          else String c (replace_from 0 old new s')
      end
  end.

Definition replace (old new s : string) : string := replace_from 0 old new s.

(** [str(n)] for an [int]. *)
Definition str_of_int (z : Z) : string := NilZero.string_of_int (Z.to_int z).

(** [s[i:-j]] for [i + j <= len(s)]; the empty string otherwise, as in Python. *)
Definition slice_mid (i j : nat) (s : string) : string :=
  substring i (String.length s - (i + j)) s.

End PyStr.

(** Values as the Python code sees them. *)
Inductive pyval : Type :=
| PyNone
| PyBool (b : bool)
| PyInt (z : Z)
| PyStr (s : string)
| PyObj (repr : string) (truth : bool).

(** [bool(v)] *)
Definition truthy (v : pyval) : bool :=
  match v with
  | PyNone => false
  | PyBool b => b
  | PyInt z => negb (z =? 0)%Z
  | PyStr s => negb (String.eqb s "")
  | PyObj _ t => t
  end.

(** [str(v)] *)
Definition py_str (v : pyval) : string :=
  match v with
  | PyNone => "None"
  | PyBool true => "True"
  | PyBool false => "False"
  | PyInt z => PyStr.str_of_int z
  | PyStr s => s
  | PyObj r _ => r
  end.

(** A function result that is [None] or a [str], seen as a value again. *)
Definition py_of_opt (o : option string) : pyval :=
  match o with
  | None => PyNone
  | Some s => PyStr s
  end.

(** A call that returns or raises; an exception is known by its text. *)
Inductive exc (A : Type) : Type :=
| Returns (a : A)
| Raises (e : string).
Arguments Returns {A} a.
Arguments Raises {A} e.

(* ================================================================== *)
(** * Dictionaries *)
(* ================================================================== *)

(** A [dict] whose keys are device names.  A device name is what
    [normalize_plc_name] returns: a [str] or [None].  Items are kept in
    insertion order, as [dict.items()] yields them. *)
Module Dict.

Definition key : Type := option string.

Definition key_eqb (a b : key) : bool :=
  match a, b with
  | None, None => true
  | Some x, Some y => String.eqb x y
  | _, _ => false
  end.

Definition dict (V : Type) : Type := list (key * V).

(** [d.get(k)] *)
Fixpoint get {V : Type} (k : key) (d : dict V) : option V :=
  match d with
  | [] => None
  | (k', v) :: d' => if key_eqb k k' then Some v else get k d'
  end.

(** [d[k] = v]: an existing key keeps its place. *)
Fixpoint set {V : Type} (k : key) (v : V) (d : dict V) : dict V :=
  match d with
  | [] => [(k, v)]
  | (k', v') :: d' =>
      if key_eqb k k' then (k', v) :: d' else (k', v') :: set k v d'
  end.

Definition keys {V : Type} (d : dict V) : list key := map fst d.

End Dict.

(* ================================================================== *)
(** * Clock *)
(* ================================================================== *)

(** A naive [datetime]: the date as its proleptic Gregorian ordinal
    ([date.toordinal()]) and the time of day. *)
Record datetime : Type := {
  dt_date : Z;
  dt_hour : Z;
  dt_minute : Z;
  dt_second : Z;
  dt_micro : Z
}.

(** [a < b] on datetimes: lexicographic on the fields. *)
Definition dt_ltb (a b : datetime) : bool :=
  ((dt_date a <? dt_date b) ||
   ((dt_date a =? dt_date b) &&
    ((dt_hour a <? dt_hour b) ||
     ((dt_hour a =? dt_hour b) &&
      ((dt_minute a <? dt_minute b) ||
       ((dt_minute a =? dt_minute b) &&
        ((dt_second a <? dt_second b) ||
         ((dt_second a =? dt_second b) &&
          (dt_micro a <? dt_micro b)))))))))%Z.

(** [d - timedelta(days=n)] *)
Definition minus_days (d : datetime) (n : Z) : datetime :=
  {| dt_date := (dt_date d - n)%Z;
     dt_hour := dt_hour d; dt_minute := dt_minute d;
     dt_second := dt_second d; dt_micro := dt_micro d |}.

(** The datetime [strptime] builds from a date alone. *)
Definition midnight (date : Z) : datetime :=
  {| dt_date := date; dt_hour := 0; dt_minute := 0;
     dt_second := 0; dt_micro := 0 |}.

(** The time of day is 00:00:00.000000. *)
Definition at_midnight (d : datetime) : bool :=
  ((dt_hour d =? 0) && (dt_minute d =? 0) &&
   (dt_second d =? 0) && (dt_micro d =? 0))%Z.

(** The fields of a datetime are in range. *)
Definition dt_wf (d : datetime) : Prop :=
  (0 <= dt_hour d < 24 /\ 0 <= dt_minute d < 60 /\
   0 <= dt_second d < 60 /\ 0 <= dt_micro d < 1000000)%Z.

(* ================================================================== *)
(** * [datetime.strptime(s, "%Y%m%d")] as CPython's [_strptime] does it *)
(* ================================================================== *)

Module Strptime.

Definition in_range (lo hi : nat) (c : ascii) : bool :=
  let n := nat_of_ascii c in ((lo <=? n) && (n <=? hi))%nat.

Definition is_char (k : ascii) (c : ascii) : bool := Ascii.eqb k c.
Definition digit : ascii -> bool := in_range 48 57.

(** One alternative of a group: a sequence of character classes. *)
Definition alt : Type := list (ascii -> bool).

(** [(?P<Y>\d\d\d\d)] *)
Definition group_Y : list alt := [[digit; digit; digit; digit]].
(** [(?P<m>1[0-2]|0[1-9]|[1-9])] *)
Definition group_m : list alt :=
  [[is_char "1"; in_range 48 50]; [is_char "0"; in_range 49 57]; [in_range 49 57]].
(** [(?P<d>3[0-1]|[1-2]\d|0[1-9]|[1-9]| [1-9])] *)
Definition group_d : list alt :=
  [[is_char "3"; in_range 48 49]; [in_range 49 50; digit];
   [is_char "0"; in_range 49 57]; [in_range 49 57];
   [is_char " "; in_range 49 57]].

(** Match one alternative at the head of [s]: the text matched and the rest. *)
Fixpoint match_alt (a : alt) (s : string) : option (string * string) :=
  match a with
  | [] => Some (EmptyString, s)
  | cls :: a' =>
      match s with
      | EmptyString => None
      | String c s' =>
          if cls c then
            match match_alt a' s' with
            | Some (m, r) => Some (String c m, r)
            | None => None
            end
          else None
      end
  end.

(** A sequence of groups matched with backtracking: the alternatives of a
    group are tried in order, and the first one the later groups can follow
    wins.  The result is the text of each group and the unmatched rest. *)
Fixpoint match_groups (gs : list (list alt)) (s : string)
  : option (list string * string) :=
  match gs with
  | [] => Some ([], s)
  | g :: gs' =>
      (fix try (alts : list alt) : option (list string * string) :=
         match alts with
         | [] => None
         | a :: alts' =>
             match match_alt a s with
             | Some (m, r) =>
                 match match_groups gs' r with
                 | Some (ms, r') => Some (m :: ms, r')
                 | None => try alts'
                 end
             | None => try alts'
             end
         end) g
  end.

(** [int(s)] of a group's text: digits, with blanks ignored. *)
Fixpoint int_of (acc : Z) (s : string) : Z :=
  match s with
  | EmptyString => acc
  | String c s' =>
      if digit c
      then int_of (10 * acc + Z.of_nat (nat_of_ascii c - 48))%Z s'
      else int_of acc s'
  end.

Definition is_leap (year : Z) : bool :=
  ((year mod 4 =? 0) && (negb (year mod 100 =? 0) || (year mod 400 =? 0)))%Z.

Definition days_before_year (year : Z) : Z :=
  let y := (year - 1)%Z in (y * 365 + y / 4 - y / 100 + y / 400)%Z.

Definition days_in_month (year month : Z) : Z :=
  if ((month =? 2) && is_leap year)%Z then 29%Z
  else nth (Z.to_nat month) [-1; 31; 28; 31; 30; 31; 30; 31; 31; 30; 31; 30; 31]%Z 0%Z.

Definition days_before_month (year month : Z) : Z :=
  (nth (Z.to_nat month) [-1; 0; 31; 59; 90; 120; 151; 181; 212; 243; 273; 304; 334] 0
   + (if (2 <? month) && is_leap year then 1 else 0))%Z.

(** [date(year, month, day).toordinal()], or [None] where the constructor
    raises [ValueError]. *)
Definition ymd2ord (year month day : Z) : option Z :=
  if ((1 <=? year) && (year <=? 9999) && (1 <=? month) && (month <=? 12)
      && (1 <=? day) && (day <=? days_in_month year month))%Z
  then Some (days_before_year year + days_before_month year month + day)%Z
  else None.

(** The ordinal of the date parsed, [None] for [ValueError] (no match,
    unconverted data left, or a date that does not exist). *)
Definition strptime_Ymd (s : string) : option Z :=
  match match_groups [group_Y; group_m; group_d] s with
  | Some ([y; m; d], EmptyString) => ymd2ord (int_of 0 y) (int_of 0 m) (int_of 0 d)
  | _ => None
  end.

(** The character of a decimal digit. *)
Definition digit_char (n : Z) : ascii := ascii_of_nat (48 + Z.to_nat n).

(** [d.strftime("%Y%m%d")] of the date [year]-[month]-[day], for a year of
    four digits (the C library decides how a smaller year is padded). *)
Definition strftime_Ymd (year month day : Z) : string :=
  String (digit_char (year / 1000))
    (String (digit_char ((year / 100) mod 10))
       (String (digit_char ((year / 10) mod 10))
          (String (digit_char (year mod 10))
             (String (digit_char (month / 10))
                (String (digit_char (month mod 10))
                   (String (digit_char (day / 10))
                      (String (digit_char (day mod 10)) EmptyString)))))))%Z.

(** The month and the day of [strftime_Ymd] are read back as written. *)
Definition reads_back (month day : Z) : bool :=
  match match_groups [group_m; group_d]
          (String (digit_char (month / 10)%Z)
             (String (digit_char (month mod 10)%Z)
                (String (digit_char (day / 10)%Z)
                   (String (digit_char (day mod 10)%Z) EmptyString)))) with
  | Some ([m; d], EmptyString) => ((int_of 0 m =? month) && (int_of 0 d =? day))%Z
  | _ => false
  end.

End Strptime.

(* ================================================================== *)
(** * Data of the service *)
(* ================================================================== *)

(** A catalog row: [{"row", "tag_name", "tag_index", "tag_type", "tag_dtype"}].
    The index and the two codes are the integers of the catalog's columns. *)
Record tag_info : Type := {
  row : nat;
  tag_name : string;
  tag_index : Z;
  tag_type : Z;
  tag_dtype : Z
}.

(** What a reader returns for a tag: [{"value", "status", "tag"}]. *)
Record reading : Type := {
  value : pyval;
  status : string;
  tag : tag_info
}.

(** A reading with its ["plc"] key set, as the worker puts it in the bucket. *)
Record result : Type := {
  plc : Dict.key;
  got : reading
}.

(** [{"type": ..., "ip": ...}] *)
Record plc_info : Type := {
  info_type : string;
  info_ip : string
}.

(** The parameters of one [INSERT]. *)
Record sqlrow : Type := {
  ReadTime : datetime;
  PLC : Dict.key;
  TagIndex : Z;
  TagName : string;
  TagType : Z;
  TagDataType : Z;
  TagValue : option string;
  Status : string
}.

(** What the program does to the outside, in order.  [EvLog msg] is a call
    [log(msg)]: the line, with its time stamp, is printed and appended to
    the log file of the day, and a failure to write the file is printed and
    swallowed.  [EvSlcRead] and [EvLogixRead] are one attempt of a reader:
    one run of the body of its [with] block.  [EvRemove] is a call of
    [os.remove] that returned; [EvExecute], [EvCommit] and [EvSave] are the
    calls of [cursor.execute], [conn.commit] and [wb.save], whether they
    return or raise. *)
Inductive event : Type :=
| EvLog (msg : string)
| EvPrint (msg : string)
| EvSleep (ms : Z)
| EvPing (ip : string)
| EvSlcRead (ip : string) (addrs : list string)
| EvLogixRead (ip : string) (micro800 : bool) (tags : list string)
| EvRemove (path : list string)
| EvExecv
| EvConnect (conn_str : string)
| EvExecute (r : sqlrow)
| EvCommit
| EvSave
| EvGc.

(** [os.getenv(k)] on the process environment, given as [os.environ.items()]. *)
Fixpoint getenv (environ : list (string * string)) (k : string) : option string :=
  match environ with
  | [] => None
  | (k', v) :: environ' => if String.eqb k' k then Some v else getenv environ' k
  end.

(** [f"{x}"] of a [str] or [None]. *)
Definition fmt (o : option string) : string := py_str (py_of_opt o).

(* ================================================================== *)
(** * [multi_read_write.py] *)
(* ================================================================== *)

Module MultiReadWrite.
Import PyStr Dict.

Definition LOG_DIR : string := "logs".
Definition COL_TAGVALUE : nat := 6.
Definition COL_STATUS : nat := 7.
Definition COL_TIMESTAMP : nat := 8.

(** ** Log retention *)

(** [os.path.join(a, b)], kept as its components. *)
Definition os_path_join (a b : string) : list string := [a; b].

(** The body of the [for fname in os.listdir(LOG_DIR)] loop.  The result is
    the deletions done and, when [os.remove] raised, the exception that
    left the loop. *)
Fixpoint purge_scan (os_remove : list string -> exc unit) (cutoff : datetime)
    (names : list string) : list event * option string :=
  match names with
  | [] => ([], None)
  | fname :: rest =>
      if negb (startswith "plc_reader_" fname) || negb (endswith ".log" fname)
      then purge_scan os_remove cutoff rest
      else
        let date_str := slice_mid (String.length "plc_reader_") 4 fname in
        match Strptime.strptime_Ymd date_str with
        | None => purge_scan os_remove cutoff rest
        | Some fdate =>
            if dt_ltb (midnight fdate) cutoff then
              let full_path := os_path_join LOG_DIR fname in
              match os_remove full_path with
              | Raises e => ([], Some e)
              | Returns _ =>
                  let '(ev, r) := purge_scan os_remove cutoff rest in
                  (EvRemove full_path :: ev, r)
              end
            else purge_scan os_remove cutoff rest
        end
  end.

Definition purge_old_logs (now : datetime) (os_listdir : exc (list string))
    (os_remove : list string -> exc unit) (days_keep : Z) : list event :=
  let cutoff := minus_days now days_keep in
  match os_listdir with
  | Raises e => [EvPrint ("[LOG_PURGE_ERROR] " ++ e)]
  | Returns names =>
      match purge_scan os_remove cutoff names with
      | (ev, None) => ev
      | (ev, Some e) => ev ++ [EvPrint ("[LOG_PURGE_ERROR] " ++ e)]
      end
  end.

(** The files a run of the sweep deleted. *)
Fixpoint removed (ev : list event) : list (list string) :=
  match ev with
  | [] => []
  | EvRemove p :: ev' => p :: removed ev'
  | _ :: ev' => removed ev'
  end.

(** The date a directory entry carries when it is a day partition of the
    log: the name has the prefix and the suffix, and what lies between
    parses as a date. *)
Definition partition_date (fname : string) : option Z :=
  if startswith "plc_reader_" fname && endswith ".log" fname
  then Strptime.strptime_Ymd (slice_mid (String.length "plc_reader_") 4 fname)
  else None.

(** A partition whose date lies before the start of the retention window. *)
Definition expired (cutoff : datetime) (fname : string) : bool :=
  match partition_date fname with
  | Some fdate => dt_ltb (midnight fdate) cutoff
  | None => false
  end.

(** The paths of a list that [os.remove] deletes before it first raises. *)
Fixpoint before_fault (os_remove : list string -> exc unit)
    (paths : list (list string)) : list (list string) :=
  match paths with
  | [] => []
  | p :: paths' =>
      match os_remove p with
      | Returns _ => p :: before_fault os_remove paths'
      | Raises _ => []
      end
  end.

(** ** Device names *)

Definition normalize_plc_name (name : pyval) : option string :=
  if negb (truthy name) then None
  else
    let name := strip (py_str name) in
    let name := replace " " "" (replace "::" "" name) in
    Some (if negb (startswith "[" name) then "[" ++ name ++ "]" else name).

(** ** SQL connection *)

Definition conn_str (environ : list (string * string)) : string :=
  let SQL_DRIVER := getenv environ "SQL_DRIVER" in
  let SQL_SERVER := getenv environ "SQL_SERVER" in
  let SQL_DATABASE := getenv environ "SQL_DATABASE" in
  let SQL_AUTH :=
    match getenv environ "SQL_AUTH" with Some v => v | None => "windows" end in
  if String.eqb (lower SQL_AUTH) "windows" then
    "DRIVER={" ++ fmt SQL_DRIVER ++ "};" ++
    "SERVER=" ++ fmt SQL_SERVER ++ ";" ++
    "DATABASE=" ++ fmt SQL_DATABASE ++ ";" ++
    "Trusted_Connection=yes;"
  else
    let SQL_USERNAME := getenv environ "SQL_USERNAME" in
    let SQL_PASSWORD := getenv environ "SQL_PASSWORD" in
    "DRIVER={" ++ fmt SQL_DRIVER ++ "};" ++
    "SERVER=" ++ fmt SQL_SERVER ++ ";" ++
    "DATABASE=" ++ fmt SQL_DATABASE ++ ";" ++
    "UID=" ++ fmt SQL_USERNAME ++ ";PWD=" ++ fmt SQL_PASSWORD ++ ";".

(** An open connection is the rows inserted on it and not yet committed
    ([pyodbc] connects with autocommit off). *)
Definition connection : Type := list sqlrow.

Definition get_sql_connection (environ : list (string * string))
    (pyodbc_connect : string -> exc unit) : exc connection :=
  match pyodbc_connect (conn_str environ) with
  | Returns _ => Returns []
  | Raises e => Raises e
  end.

(** ** Device registry *)

(** [f"{info}"] of a registry entry (for texts without quotes or escapes). *)
Definition fmt_info (info : plc_info) : string :=
  "{'type': '" ++ info_type info ++ "', 'ip': '" ++ info_ip info ++ "'}".

(** The body of the loop over [os.environ.items()]. *)
Definition config_step (environ : list (string * string))
    (acc : dict plc_info * list event) (kv : string * string)
  : dict plc_info * list event :=
  let '(plcs, ev) := acc in
  let '(key, value) := kv in
  let key_u := upper key in
  if startswith "PLC_" key_u && endswith "_TYPE" key_u then
    let raw_name := replace "_TYPE" "" (replace "PLC_" "" key_u) in
    let plc_type := upper (strip value) in
    let normalized_name := normalize_plc_name (PyStr raw_name) in
    let ip_key := "PLC_" ++ raw_name ++ "_IP" in
    let ip_val := getenv environ ip_key in
    if negb (truthy (py_of_opt ip_val)) then
      (plcs, (ev ++ [EvLog ("[WARN] Missing IP for PLC " ++ raw_name)])%list)
    else
      (Dict.set normalized_name
         {| info_type := plc_type; info_ip := strip (fmt ip_val) |} plcs, ev)
  else acc.

Definition load_plc_config_from_env (environ : list (string * string))
  : dict plc_info * list event :=
  let '(plcs, ev) := fold_left (config_step environ) environ ([], []) in
  (plcs,
   (ev ++ EvLog "DEBUG: PLC MAP FROM ENV"
       :: map (fun '(name, info) =>
                 EvLog ("  " ++ fmt name ++ " => " ++ fmt_info info)) plcs)%list).

(** Where an item of the registry comes from: a key of the environment
    that reads [PLC_..._TYPE] once upper-cased, whose raw name normalizes to
    the item's name and whose [PLC_<raw name>_IP] holds an address.  The type
    string takes no part in the name. *)
Definition from_type_key (environ : list (string * string))
    (name : key) (info : plc_info) : Prop :=
  exists k value ip,
    In (k, value) environ /\
    startswith "PLC_" (upper k) = true /\ endswith "_TYPE" (upper k) = true /\
    let raw_name := replace "_TYPE" "" (replace "PLC_" "" (upper k)) in
    name = normalize_plc_name (PyStr raw_name) /\
    getenv environ ("PLC_" ++ raw_name ++ "_IP") = Some ip /\ ip <> "" /\
    info = {| info_type := upper (strip value); info_ip := strip ip |}.

(** ** Reachability *)

(** [run ip] is [subprocess.run(["ping", "-n", "1", "-w", "700", ip], ...)]:
    its standard output, or the exception it raises. *)
Definition ping (run : string -> exc string) (ip : string) : bool * list event :=
  match run ip with
  | Returns stdout => (contains "TTL" stdout, [EvPing ip])
  | Raises e => (false, [EvPing ip; EvLog ("[PING_ERROR] " ++ ip ++ " -> " ++ e)])
  end.

(** ** Readers *)

(** A [pycomm3] tag: [r.value] and [r.error]. *)
Record slc_tag : Type := { slc_value : pyval; slc_error : pyval }.

(** [plc.read( *addrs )] returns one tag or a list of them. *)
Inductive slc_resp : Type :=
| SlcOne (t : slc_tag)
| SlcList (ts : list slc_tag).

(** A [pylogix] response: [r.Value] and [r.Status]. *)
Record logix_resp : Type := { lx_Value : pyval; lx_Status : string }.

(** The list built when every attempt failed. *)
Definition no_response (tag_list : list tag_info) : list reading :=
  map (fun t => {| value := PyNone; status := "NO RESPONSE"; tag := t |}) tag_list.

Definition attempt_text (attempt retries : nat) : string :=
  "Attempt " ++ str_of_int (Z.of_nat (attempt + 1)) ++ "/" ++
  str_of_int (Z.of_nat retries).

(** [log(msg)] as a reader calls it.  [log] prints its line before its
    [try], so it raises what [print] raises: [UnicodeEncodeError] when the
    encoding of the standard output cannot encode the line.  The error line
    of the readers holds U+2192, which an ANSI code page such as cp1252 does
    not encode; every other line the service logs is text of the ASCII
    range, which the encodings Python gives the standard output all encode,
    and is taken to be printed. *)
Definition logger : Type := string -> exc unit.

(** [for attempt in range(retries)] of [read_micro_logix], from [attempt] on
    with [left] rounds to go.  [driver attempt addrs] is what the body of the
    [with SLCDriver(ip)] block does at that attempt.  An exception of [log]
    is raised inside the [except] block and leaves the function. *)
Fixpoint read_micro_logix_from (log_msg : logger)
    (driver : nat -> list string -> exc slc_resp)
    (ip : string) (tag_list : list tag_info) (retries attempt left : nat)
  : exc (list reading) * list event :=
  match left with
  | O => (Returns (no_response tag_list), [])
  | S left' =>
      let addrs := map tag_name tag_list in
      match driver attempt addrs with
      | Returns resp =>
          let resp_list := match resp with SlcList l => l | SlcOne t => [t] end in
          (Returns
             (map (fun '(r, t) =>
                     {| value := slc_value r;
                        status := if negb (truthy (slc_error r)) then "OK"
                                  else py_str (slc_error r);
                        tag := t |})
                  (combine resp_list tag_list)),
           [EvSlcRead ip addrs])
      | Raises e =>
          let msg := "[ERROR][MicroLogix " ++ ip ++ "] " ++
                     attempt_text attempt retries ++ " → " ++ e in
          match log_msg msg with
          | Raises e' => (Raises e', [EvSlcRead ip addrs])
          | Returns _ =>
              let '(rs, ev) :=
                read_micro_logix_from log_msg driver ip tag_list retries
                  (S attempt) left' in
              (rs, EvSlcRead ip addrs :: EvLog msg :: EvSleep 200 :: ev)
          end
      end
  end.

Definition read_micro_logix (log_msg : logger)
    (driver : nat -> list string -> exc slc_resp)
    (ip : string) (tag_list : list tag_info) (retries : nat)
  : exc (list reading) * list event :=
  read_micro_logix_from log_msg driver ip tag_list retries 0 retries.

(** The same loop of [read_logix]; [driver attempt tags] is the body of the
    [with PLC()] block, with [comm.Micro800] already set. *)
Fixpoint read_logix_from (log_msg : logger)
    (driver : nat -> list string -> exc (list logix_resp))
    (ip : string) (tag_list : list tag_info) (is_micro800 : bool)
    (retries attempt left : nat) : exc (list reading) * list event :=
  match left with
  | O => (Returns (no_response tag_list), [])
  | S left' =>
      let tags := map tag_name tag_list in
      match driver attempt tags with
      | Returns resp_list =>
          (Returns
             (map (fun '(r, t) =>
                     {| value := lx_Value r; status := lx_Status r; tag := t |})
                  (combine resp_list tag_list)),
           [EvLogixRead ip is_micro800 tags])
      | Raises e =>
          let msg := "[ERROR][Logix " ++ ip ++ "] " ++
                     attempt_text attempt retries ++ " → " ++ e in
          match log_msg msg with
          | Raises e' => (Raises e', [EvLogixRead ip is_micro800 tags])
          | Returns _ =>
              let '(rs, ev) :=
                read_logix_from log_msg driver ip tag_list is_micro800 retries
                  (S attempt) left' in
              (rs, EvLogixRead ip is_micro800 tags :: EvLog msg :: EvSleep 200 :: ev)
          end
      end
  end.

Definition read_logix (log_msg : logger)
    (driver : bool -> nat -> list string -> exc (list logix_resp))
    (ip : string) (tag_list : list tag_info) (is_micro800 : bool) (retries : nat)
  : exc (list reading) * list event :=
  read_logix_from log_msg (driver is_micro800) ip tag_list is_micro800 retries 0 retries.

(** ** Thread worker *)

(** How one device, and the standard output its worker logs to, answer
    during one cycle. *)
Record device_io : Type := {
  io_ping : string -> exc string;
  io_slc : nat -> list string -> exc slc_resp;
  io_logix : bool -> nat -> list string -> exc (list logix_resp);
  io_log : logger
}.

(** [plc_worker]: the results it appends to the bucket, in order, and its
    events.  Nothing in the worker catches an exception of a reader: it
    leaves [plc_worker] and ends the thread, before anything was appended. *)
Definition plc_worker (io : device_io) (plc_name : key) (info : plc_info)
    (tag_list : list tag_info) : exc (list result) * list event :=
  let ip := info_ip info in
  let plc_type := info_type info in
  let '(alive, ev_ping) := ping (io_ping io) ip in
  if negb alive then
    (Returns
       (map (fun t =>
               {| plc := plc_name;
                  got := {| value := PyNone; status := "OFFLINE"; tag := t |} |})
            tag_list),
     (ev_ping ++
      [EvLog ("[OFFLINE] PLC " ++ fmt plc_name ++ " @ " ++ ip ++
              " not pinging. Skipping safely.")])%list)
  else
    let '(results, ev) :=
      if String.eqb plc_type "MICROLOGIX"
      then read_micro_logix (io_log io) (io_slc io) ip tag_list 3
      else read_logix (io_log io) (io_logix io) ip tag_list
             (String.eqb plc_type "MICRO800") 3 in
    (match results with
     | Returns rs => Returns (map (fun r => {| plc := plc_name; got := r |}) rs)
     | Raises e => Raises e
     end,
     (ev_ping ++ ev)%list).

(** What a thread has put in the bucket when it ends. *)
Definition appended (o : exc (list result)) : list result :=
  match o with
  | Returns rs => rs
  | Raises _ => []
  end.

(** The result for tag [t] of device [plc_name] with value [v] and status [s]. *)
Definition stamped (plc_name : key) (v : pyval) (s : string) (t : tag_info) : result :=
  {| plc := plc_name; got := {| value := v; status := s; tag := t |} |}.

(** The protocol-read attempts in a trace. *)
Definition is_read (e : event) : bool :=
  match e with
  | EvSlcRead _ _ | EvLogixRead _ _ _ => true
  | _ => false
  end.

Definition read_attempts (ev : list event) : nat := List.length (filter is_read ev).

(** ** Threads *)

(** [l[i] = x] *)
Fixpoint update_nth {A : Type} (i : nat) (x : A) (l : list A) : list A :=
  match l, i with
  | [], _ => []
  | _ :: l', O => x :: l'
  | y :: l', S i' => y :: update_nth i' x l'
  end.

(** The bucket the workers fill.  Each worker appends its own results in
    order; [schedule] says which worker appends next.  The join waits for
    all of them, so what the schedule leaves is appended at the end. *)
Fixpoint run_schedule {A : Type} (schedule : list nat) (queues : list (list A))
  : list A :=
  match schedule with
  | [] => concat queues
  | i :: schedule' =>
      match nth_error queues i with
      | Some (x :: q) => x :: run_schedule schedule' (update_nth i q queues)
      | _ => run_schedule schedule' queues
      end
  end.

(** ** Ordering *)

Definition index_of (r : result) : Z := tag_index (tag (got r)).

Definition index_le (a b : result) : Prop := (index_of a <= index_of b)%Z.

Fixpoint insert_by_index (r : result) (l : list result) : list result :=
  match l with
  | [] => [r]
  | r' :: l' =>
      if (index_of r <=? index_of r')%Z then r :: l
      else r' :: insert_by_index r l'
  end.

(** [sorted(all_results, key=lambda r: r["tag"]["tag_index"])]: the stable
    sort by tag index (the indices are integers, so every comparison the
    sort makes is defined). *)
Definition sorted_by_index (l : list result) : list result :=
  fold_right insert_by_index [] l.

(** ** Sinks *)

(** What a cell of the workbook holds: a value, or the text
    [now.strftime("%Y-%m-%d %H:%M:%S")] of a clock reading. *)
Inductive cell : Type :=
| CVal (v : pyval)
| CStamp (now : datetime).

(** The worksheet in memory, as the assignments made to its cells, the
    latest first. *)
Definition sheet : Type := list (nat * nat * cell).

(** [ws.cell(row=row, column=col).value = v] *)
Definition cell_set (row col : nat) (v : cell) (ws : sheet) : sheet :=
  (row, col, v) :: ws.

(** [ws.cell(row=row, column=col).value] *)
Fixpoint cell_get (row col : nat) (ws : sheet) : option cell :=
  match ws with
  | [] => None
  | (r, c, v) :: ws' =>
      if ((r =? row) && (c =? col))%nat then Some v else cell_get row col ws'
  end.

Definition excel_value (value : pyval) : pyval :=
  match value with
  | PyBool b => PyInt (if b then 1 else 0)
  | _ => value
  end.

Definition value_str (value : pyval) : option string :=
  match value with
  | PyBool _ => Some (py_str (excel_value value))
  | PyNone => None
  | _ => Some (py_str value)
  end.

(** The parameters [cursor.execute] gets for a result. *)
Definition sql_row (now : datetime) (r : result) : sqlrow :=
  let tinfo := tag (got r) in
  {| ReadTime := now;
     PLC := plc r;
     TagIndex := tag_index tinfo;
     TagName := tag_name tinfo;
     TagType := tag_type tinfo;
     TagDataType := tag_dtype tinfo;
     TagValue := value_str (value (got r));
     Status := status (got r) |}.

(** The three cells of a result's row. *)
Definition excel_write (now : datetime) (r : result) (ws : sheet) : sheet :=
  let row := row (tag (got r)) in
  cell_set row COL_TIMESTAMP (CStamp now)
    (cell_set row COL_STATUS (CVal (PyStr (status (got r))))
       (cell_set row COL_TAGVALUE (CVal (excel_value (value (got r)))) ws)).

Definition sql_log (q : sqlrow) : string :=
  "[SQL] " ++ fmt (PLC q) ++ " | Index=" ++ str_of_int (TagIndex q) ++ " | " ++
  TagName q ++ "=" ++ fmt (TagValue q) ++ " | " ++ Status q.

(** [for r in all_results]: the [k]-th [cursor.execute] of the cycle answers
    [cursor_execute k].  The result is the worksheet, the rows pending on
    the connection, the events, and the exception that left the loop. *)
Fixpoint write_results (cursor_execute : nat -> sqlrow -> exc unit)
    (now : datetime) (k : nat) (all_results : list result)
    (ws : sheet) (conn : connection)
  : sheet * connection * list event * option string :=
  match all_results with
  | [] => (ws, conn, [], None)
  | r :: rest =>
      let ws1 := excel_write now r ws in
      let q := sql_row now r in
      match cursor_execute k q with
      | Raises e => (ws1, conn, [EvExecute q], Some e)
      | Returns _ =>
          let '(ws', conn', ev, fault) :=
            write_results cursor_execute now (S k) rest ws1 (conn ++ [q])%list in
          (ws', conn', EvExecute q :: EvLog (sql_log q) :: ev, fault)
      end
  end.

(** ** Main loop *)

(** [now_check.hour == 2 and now_check.minute == 0 and
    (last_restart_date is None or last_restart_date != now_check.date())] *)
Definition restart_due (now_check : datetime) (last_restart_date : option Z) : bool :=
  (dt_hour now_check =? 2)%Z && (dt_minute now_check =? 0)%Z &&
  match last_restart_date with
  | None => true
  | Some d => negb (d =? dt_date now_check)%Z
  end.

(** What the outside does during one pass of the [while True] loop. *)
Record world : Type := {
  now_check : datetime;
  os_execv : exc unit;
  now_purge : datetime;
  os_listdir : exc (list string);
  os_remove : list string -> exc unit;
  now_scan : datetime;
  pyodbc_connect : string -> exc unit;
  device : key -> device_io;
  schedule : list nat;
  cursor_execute : nat -> sqlrow -> exc unit;
  conn_commit : exc unit;
  wb_save : exc unit
}.

(** The process and its two stores: [last_restart_date], the workbook in
    memory, the workbook file, and the committed rows of the table. *)
Record state : Type := {
  last_restart_date : option Z;
  ws : sheet;
  saved : sheet;
  db : list sqlrow
}.

(** How a pass ends: the loop goes on, [os.execv] replaced the image, or an
    exception left [main_loop] and the process. *)
Inductive outcome : Type :=
| Looping (st : state)
| Replaced (st : state)
| Died (e : string) (st : state).

(** The state a pass ends in. *)
Definition state_of (o : outcome) : state :=
  match o with
  | Looping st | Replaced st | Died _ st => st
  end.

Definition is_looping (o : outcome) : bool :=
  match o with
  | Looping _ => true
  | _ => false
  end.

(** [for plc_name, plc_info in plcs.items()]: the results each started
    worker will append, and the events. *)
Fixpoint spawn (device : key -> device_io) (tag_map : dict (list tag_info))
    (plcs : dict plc_info) : list (list result) * list event :=
  match plcs with
  | [] => ([], [])
  | (plc_name, info) :: rest =>
      let '(queues, ev) := spawn device tag_map rest in
      match Dict.get plc_name tag_map with
      | None =>
          (queues, EvLog ("[SKIP] No tags configured for " ++ fmt plc_name) :: ev)
      | Some tag_list =>
          let '(o, evw) := plc_worker (device plc_name) plc_name info tag_list in
          (appended o :: queues, (evw ++ ev)%list)
      end
  end.

(** [all_results] after the join. *)
Definition bucket (plcs : dict plc_info) (tag_map : dict (list tag_info))
    (w : world) : list result :=
  run_schedule (schedule w) (fst (spawn (device w) tag_map plcs)).

(** [all_results] after the sort: what the write loop goes through. *)
Definition merged (plcs : dict plc_info) (tag_map : dict (list tag_info))
    (w : world) : list result :=
  sorted_by_index (bucket plcs tag_map w).

Definition with_ws (st : state) (ws' : sheet) : state :=
  {| last_restart_date := last_restart_date st; ws := ws';
     saved := saved st; db := db st |}.

(** One pass of the [while True] loop.  The text of the [INSERT] statement
    (with [SQL_TABLE]) is the same at every call and is left out of the
    rows; [conn.cursor()], [cursor.close()], [conn.close()] and
    [gc.collect()] are taken to return.  Nothing in the loop catches an
    exception of the calls made here directly: it leaves [main_loop]. *)
Definition cycle (environ : list (string * string)) (plcs : dict plc_info)
    (tag_map : dict (list tag_info)) (LOOP_INTERVAL : Z)
    (w : world) (st : state) : outcome * list event :=
  if restart_due (now_check w) (last_restart_date st) then
    let st1 := {| last_restart_date := Some (dt_date (now_check w));
                  ws := ws st; saved := saved st; db := db st |} in
    let ev := [EvLog "Daily scheduled restart at 02:00 triggered."; EvGc; EvExecv] in
    match os_execv w with
    | Returns _ => (Replaced st1, ev)
    | Raises e => (Died e st1, ev)
    end
  else
    let ev0 :=
      (purge_old_logs (now_purge w) (os_listdir w) (os_remove w) 7 ++
       [EvLog "========== NEW SCAN =========="; EvConnect (conn_str environ)])%list in
    let now := now_scan w in
    match get_sql_connection environ (pyodbc_connect w) with
    | Raises e => (Died e st, ev0)
    | Returns conn0 =>
        let ev1 := (ev0 ++ snd (spawn (device w) tag_map plcs))%list in
        let all_results := merged plcs tag_map w in
        let '(ws', conn, ev_w, fault) :=
          write_results (cursor_execute w) now 0 all_results (ws st) conn0 in
        let ev2 := (ev1 ++ ev_w)%list in
        match fault with
        | Some e => (Died e (with_ws st ws'), ev2)
        | None =>
            match conn_commit w with
            | Raises e => (Died e (with_ws st ws'), (ev2 ++ [EvCommit])%list)
            | Returns _ =>
                let st2 := {| last_restart_date := last_restart_date st;
                              ws := ws'; saved := saved st;
                              db := (db st ++ conn)%list |} in
                match wb_save w with
                | Raises e => (Died e st2, (ev2 ++ [EvCommit; EvSave])%list)
                | Returns _ =>
                    (Looping {| last_restart_date := last_restart_date st;
                                ws := ws'; saved := ws';
                                db := (db st ++ conn)%list |},
                     (ev2 ++ [EvCommit; EvSave;
                              EvLog "========== SCAN COMPLETE ==========";
                              EvGc;
                              EvLog "[GC] Garbage collection complete";
                              EvSleep (1000 * LOOP_INTERVAL)])%list)
                end
            end
        end
    end.

(** The [while True] loop over the passes the script describes; the loop
    is still running when the script ends. *)
Fixpoint main_loop_from (environ : list (string * string)) (plcs : dict plc_info)
    (tag_map : dict (list tag_info)) (LOOP_INTERVAL : Z)
    (script : list world) (st : state) : outcome * list event :=
  match script with
  | [] => (Looping st, [])
  | w :: script' =>
      match cycle environ plcs tag_map LOOP_INTERVAL w st with
      | (Looping st', ev) =>
          let '(o, ev') :=
            main_loop_from environ plcs tag_map LOOP_INTERVAL script' st' in
          (o, (ev ++ ev')%list)
      | stop => stop
      end
  end.

(** [main_loop()], given what [load_excel_tags()] returned (the worksheet
    and the tag map) and the rows already in the table. *)
Definition main_loop (environ : list (string * string)) (wb : sheet)
    (tag_map : dict (list tag_info)) (LOOP_INTERVAL : Z) (rows : list sqlrow)
    (script : list world) : outcome * list event :=
  let '(plcs, ev0) := load_plc_config_from_env environ in
  let '(o, ev) :=
    main_loop_from environ plcs tag_map LOOP_INTERVAL script
      {| last_restart_date := None; ws := wb; saved := wb; db := rows |} in
  (o, (ev0 ++ ev)%list).

(** Events that touch neither the process image nor the two sinks. *)
Definition quiet (e : event) : Prop :=
  match e with
  | EvExecv | EvExecute _ | EvCommit | EvSave => False
  | _ => True
  end.

(** The rows handed to [cursor.execute] in a trace, in order. *)
Fixpoint executed (ev : list event) : list sqlrow :=
  match ev with
  | [] => []
  | EvExecute q :: ev' => q :: executed ev'
  | _ :: ev' => executed ev'
  end.

(** The catalog tags of the configured devices that have any: the sum of
    the lengths of their tag lists. *)
Fixpoint catalog_size (plcs : dict plc_info) (tag_map : dict (list tag_info)) : nat :=
  match plcs with
  | [] => 0
  | (plc_name, _) :: rest =>
      match Dict.get plc_name tag_map with
      | Some tag_list => List.length tag_list + catalog_size rest tag_map
      | None => catalog_size rest tag_map
      end
  end.

(** The driver of a device's family keeps its contract for a tag list: a
    read that returns, returns a response for every tag asked for. *)
Definition answers_per_tag (io : device_io) (info : plc_info)
    (tag_list : list tag_info) : Prop :=
  if String.eqb (info_type info) "MICROLOGIX" then
    forall attempt resp,
      io_slc io attempt (map tag_name tag_list) = Returns resp ->
      List.length tag_list <=
      List.length (match resp with SlcList l => l | SlcOne t => [t] end)
  else
    forall attempt rs,
      io_logix io (String.eqb (info_type info) "MICRO800") attempt
        (map tag_name tag_list) = Returns rs ->
      List.length tag_list <= List.length rs.

(** The drivers keep the contract for every device of the registry that
    has tags and answers the ping (no other device is read). *)
Definition all_answer (device : key -> device_io) (plcs : dict plc_info)
    (tag_map : dict (list tag_info)) : Prop :=
  forall name info tag_list,
    In (name, info) plcs -> Dict.get name tag_map = Some tag_list ->
    fst (ping (io_ping (device name)) (info_ip info)) = true ->
    answers_per_tag (device name) info tag_list.

(** Every [log] call of a device's worker returns: the standard output
    encodes the lines it is given. *)
Definition logs_return (io : device_io) : Prop :=
  forall msg, exists u, io_log io msg = Returns u.

Definition all_logged (device : key -> device_io) (plcs : dict plc_info) : Prop :=
  forall name info, In (name, info) plcs -> logs_return (device name).

(** The catalog row a result is about. *)
Definition tag_of (r : result) : tag_info := tag (got r).

(** The worksheet after the cells of the given results were assigned. *)
Definition excel_writes (now : datetime) (written : list result) (ws : sheet) : sheet :=
  fold_left (fun s r => excel_write now r s) written ws.

(** The [os.execv] calls in a trace. *)
Definition execv_calls (ev : list event) : nat :=
  List.length (filter (fun e => match e with EvExecv => true | _ => false end) ev).

(** ** Log file *)

(** [get_log_file_path()] on a day whose date the clock gives as [year],
    [month], [day]. *)
Definition get_log_file_path (year month day : Z) : list string :=
  os_path_join LOG_DIR ("plc_reader_" ++ Strptime.strftime_Ymd year month day ++ ".log").

(** [log(msg)]: [ts] is the time stamp the clock gives, [stdout line] is
    [print(line)] and [append path text] is the [with open(path, "a")]
    block.  The result is the lines printed and the text appended to files.
    The first [print] stands before the [try] and the second inside the
    [except] block: what either raises leaves [log]. *)
Definition log (stdout : string -> exc unit) (ts : string) (year month day : Z)
    (append : list string -> string -> exc unit) (msg : string)
  : exc (list string * list (list string * string)) :=
  let line := ts ++ " | " ++ msg in
  match stdout line with
  | Raises e => Raises e
  | Returns _ =>
      let log_path := get_log_file_path year month day in
      match append log_path (line ++ String "010" "") with
      | Returns _ => Returns ([line], [(log_path, line ++ String "010" "")])
      | Raises e =>
          match stdout ("[LOG_WRITE_ERROR] " ++ e) with
          | Raises e' => Raises e'
          | Returns _ => Returns ([line; "[LOG_WRITE_ERROR] " ++ e], [])
          end
      end
  end.

(** ** Tag catalog *)

Definition COL_PLC : nat := 1.
Definition COL_TAGNAME : nat := 2.
Definition COL_TAGINDEX : nat := 3.
Definition COL_TAGTYPE : nat := 4.
Definition COL_TAGDATATYPE : nat := 5.

(** A worksheet as [load_workbook] gives it: its rows from row 1 on, each
    with its cells from column 1 on.  A cell that is not there reads [None]. *)
Definition grid : Type := list (list pyval).

(** [ws.cell(row=..., column=col).value] within a row. *)
Definition row_cell (cells : list pyval) (col : nat) : pyval :=
  nth (col - 1) cells PyNone.

(** A catalog entry as the loader builds it, with the cell values as found. *)
Record catalog_tag : Type := {
  c_row : nat;
  c_tag_name : string;
  c_tag_index : pyval;
  c_tag_type : pyval;
  c_tag_dtype : pyval
}.

(** The entry of a row and the device name it goes under. *)
Definition row_entry (row : nat) (cells : list pyval) : key * catalog_tag :=
  (normalize_plc_name (row_cell cells COL_PLC),
   {| c_row := row;
      c_tag_name := strip (py_str (row_cell cells COL_TAGNAME));
      c_tag_index := row_cell cells COL_TAGINDEX;
      c_tag_type := row_cell cells COL_TAGTYPE;
      c_tag_dtype := row_cell cells COL_TAGDATATYPE |}).

(** [if plc_name not in tag_map: tag_map[plc_name] = []] and
    [tag_map[plc_name].append(x)] *)
Definition tag_append {V : Type} (plc_name : key) (x : V) (tag_map : dict (list V))
  : dict (list V) :=
  match Dict.get plc_name tag_map with
  | None => Dict.set plc_name [x] tag_map
  | Some l => Dict.set plc_name (l ++ [x])%list tag_map
  end.

(** The [while True] loop of [load_excel_tags] at row [row], [rows] being
    the rows of the sheet from that row on.  Past the last row the tag cell
    reads [None], which ends the loop. *)
Fixpoint load_rows (row : nat) (rows : list (list pyval))
    (tag_map : dict (list catalog_tag)) : dict (list catalog_tag) :=
  match rows with
  | [] => tag_map
  | cells :: rest =>
      let tag_cell := row_cell cells COL_TAGNAME in
      if negb (truthy tag_cell) then tag_map
      else
        let '(plc_name, entry) := row_entry row cells in
        load_rows (S row) rest (tag_append plc_name entry tag_map)
  end.

(** [load_excel_tags()]: [open_sheet file sheet] is
    [load_workbook(file)[sheet]].  The workbook and the sheet are one value
    here. *)
Definition load_excel_tags (environ : list (string * string))
    (open_sheet : option string -> option string -> exc grid)
  : exc (grid * dict (list catalog_tag)) :=
  let EXCEL_FILE := getenv environ "EXCEL_FILE_MAIN" in
  let EXCEL_SHEET := getenv environ "EXCEL_SHEET_MAIN" in
  match open_sheet EXCEL_FILE EXCEL_SHEET with
  | Raises e => Raises e
  | Returns ws => Returns (ws, load_rows 2 (tl ws) [])
  end.

(** The rows the loader reads: from [row] on, up to the first row whose
    tag cell is empty. *)
Fixpoint catalog_rows (row : nat) (rows : list (list pyval))
  : list (key * catalog_tag) :=
  match rows with
  | [] => []
  | cells :: rest =>
      if negb (truthy (row_cell cells COL_TAGNAME)) then []
      else row_entry row cells :: catalog_rows (S row) rest
  end.

(** The entries of a list that go under a device name, in order. *)
Definition under {V : Type} (plc_name : key) (entries : list (key * V)) : list V :=
  map snd (filter (fun e => key_eqb (fst e) plc_name) entries).

(** The list a dictionary holds under a key, empty when the key is absent. *)
Definition listed {V : Type} (k : key) (d : dict (list V)) : list V :=
  match Dict.get k d with
  | Some l => l
  | None => []
  end.

(** The number of entries a tag map holds, all devices together. *)
Definition tag_total {V : Type} (d : dict (list V)) : nat :=
  List.length (concat (map snd d)).

(** The [time.sleep] calls of a trace, in milliseconds. *)
Fixpoint slept (ev : list event) : Z :=
  match ev with
  | [] => 0
  | EvSleep ms :: ev' => ms + slept ev'
  | _ :: ev' => slept ev'
  end.

(** Every character of a string satisfies [p]. *)
Fixpoint all_chars (p : ascii -> bool) (s : string) : bool :=
  match s with
  | EmptyString => true
  | String c s' => p c && all_chars p s'
  end.

(** A character [upper] leaves as it is. *)
Definition is_upper (c : ascii) : bool := Ascii.eqb (upper_char c) c.

(** A character that is neither white space nor a colon. *)
Definition plain (c : ascii) : bool := negb (isspace c) && negb (Ascii.eqb ":" c).

(** The raw name a key of the environment gives. *)
Definition raw_name_of (k : string) : string :=
  replace "_TYPE" "" (replace "PLC_" "" (upper k)).

(** A key of the environment that declares a device. *)
Definition is_type_key (k : string) : bool :=
  startswith "PLC_" (upper k) && endswith "_TYPE" (upper k).

End MultiReadWrite.

(* ================================================================== *)
(** * [debug_muli_read.py] *)
(* ================================================================== *)

Module DebugMuliRead.
Import PyStr Dict.

Definition normalize_excel_plc_name (name : pyval) : option string :=
  if negb (truthy name) then None
  else
    let name := strip (py_str name) in
    let name := replace " " "" (replace "::" "" name) in
    Some (if negb (startswith "[" name) then "[" ++ name ++ "]" else name).

(** The body of the loop over [os.environ.items()]. *)
Definition config_step (environ : list (string * string))
    (acc : dict plc_info * list event) (kv : string * string)
  : dict plc_info * list event :=
  let '(plcs, ev) := acc in
  let '(key, value) := kv in
  let key_up := upper key in
  if startswith "PLC_" key_up && endswith "_TYPE" key_up then
    let base := strip (replace "_TYPE" "" (replace "PLC_" "" key_up)) in
    let plc_type := upper (strip value) in
    if String.eqb plc_type "MICROLOGIX" then
      let excel_name := "[" ++ base ++ "]" in
      let ip_key := "PLC_" ++ base ++ "_IP" in
      let plc_ip := getenv environ ip_key in
      if negb (truthy (py_of_opt plc_ip)) then
        (plcs, (ev ++ [EvPrint ("[WARNING] Missing IP for MICROLOGIX: " ++ base)])%list)
      else
        (Dict.set (Some excel_name)
           {| info_type := plc_type; info_ip := strip (fmt plc_ip) |} plcs, ev)
    else
      let clean := replace "_PLC" "" base in
      let excel_name := "[" ++ clean ++ "]" in
      let ip_key := "PLC_" ++ clean ++ "_IP" in
      let plc_ip := getenv environ ip_key in
      if negb (truthy (py_of_opt plc_ip)) then
        (plcs, (ev ++ [EvPrint ("[WARNING] Missing IP for PLC: " ++ clean)])%list)
      else
        (Dict.set (Some excel_name)
           {| info_type := plc_type; info_ip := strip (fmt plc_ip) |} plcs, ev)
  else acc.

Definition load_plc_config_from_env (environ : list (string * string))
  : dict plc_info * list event :=
  let '(plcs, ev) := fold_left (config_step environ) environ ([], []) in
  (plcs,
   (ev ++ EvPrint (String "010" "DEBUG PLC CONFIG:")
       :: map (fun '(k, v) =>
                 EvPrint ("  " ++ fmt k ++ " => " ++ MultiReadWrite.fmt_info v)) plcs)%list).

(** Where an item of this registry comes from.  Here the type string
    decides the name: [MICROLOGIX] keeps the base, every other type has each
    ["_PLC"] of the base removed, and the address is looked up under the
    name so obtained. *)
Definition from_type_key (environ : list (string * string))
    (name : key) (info : plc_info) : Prop :=
  exists k value ip,
    In (k, value) environ /\
    startswith "PLC_" (upper k) = true /\ endswith "_TYPE" (upper k) = true /\
    let base := strip (replace "_TYPE" "" (replace "PLC_" "" (upper k))) in
    let plc_type := upper (strip value) in
    let shown :=
      if String.eqb plc_type "MICROLOGIX" then base else replace "_PLC" "" base in
    name = Some ("[" ++ shown ++ "]") /\
    getenv environ ("PLC_" ++ shown ++ "_IP") = Some ip /\ ip <> "" /\
    info = {| info_type := plc_type; info_ip := strip ip |}.

Definition COL_PLC : nat := 1.
Definition COL_TAGNAME : nat := 2.
Definition COL_TAGINDEX : nat := 3.
Definition COL_TAGTYPE : nat := 4.
Definition COL_TAGDATATYPE : nat := 5.

(** The [while True] loop of this file's [load_excel_tags] at row [row]:
    the device name is [normalize_excel_plc_name] of the PLC cell. *)
Fixpoint load_rows (row : nat) (rows : list (list pyval))
    (tag_map : dict (list MultiReadWrite.catalog_tag))
  : dict (list MultiReadWrite.catalog_tag) :=
  match rows with
  | [] => tag_map
  | cells :: rest =>
      let plc_cell := MultiReadWrite.row_cell cells COL_PLC in
      let tag_cell := MultiReadWrite.row_cell cells COL_TAGNAME in
      if negb (truthy tag_cell) then tag_map
      else
        let plc_name := normalize_excel_plc_name plc_cell in
        let tag_name := strip (py_str tag_cell) in
        let entry :=
          {| MultiReadWrite.c_row := row;
             MultiReadWrite.c_tag_name := tag_name;
             MultiReadWrite.c_tag_index := MultiReadWrite.row_cell cells COL_TAGINDEX;
             MultiReadWrite.c_tag_type := MultiReadWrite.row_cell cells COL_TAGTYPE;
             MultiReadWrite.c_tag_dtype := MultiReadWrite.row_cell cells COL_TAGDATATYPE |} in
        let tag_map1 :=
          match Dict.get plc_name tag_map with
          | None => Dict.set plc_name [] tag_map
          | Some _ => tag_map
          end in
        let tag_map2 :=
          match Dict.get plc_name tag_map1 with
          | Some l => Dict.set plc_name (l ++ [entry])%list tag_map1
          | None => tag_map1
          end in
        load_rows (S row) rest tag_map2
  end.

(** [load_excel_tags()] of the debug reader: defaults for the file and the
    sheet, and only the tag map returned. *)
Definition load_excel_tags (environ : list (string * string))
    (open_sheet : option string -> option string -> exc MultiReadWrite.grid)
  : exc (dict (list MultiReadWrite.catalog_tag)) :=
  let EXCEL_FILE :=
    match getenv environ "EXCEL_FILE_MAIN" with Some v => v | None => "Tagname.xlsx" end in
  let EXCEL_SHEET :=
    match getenv environ "EXCEL_SHEET_MAIN" with Some v => v | None => "Sheet1" end in
  match open_sheet (Some EXCEL_FILE) (Some EXCEL_SHEET) with
  | Raises e => Raises e
  | Returns ws => Returns (load_rows 2 (tl ws) [])
  end.

(** [read_micro_logix(plc_name, plc_ip, tag_list)]: one attempt; [driver
    addrs] is the body of the [with SLCDriver(plc_ip)] block up to the read.
    The first [print] stands before the [try] and its line holds U+2192:
    [stdout line] is what it does, and what it raises leaves the function. *)
Definition read_micro_logix (stdout : string -> exc unit)
    (driver : list string -> exc MultiReadWrite.slc_resp)
    (plc_name : key) (plc_ip : string) (tag_list : list tag_info)
  : exc (list result) * list event :=
  let header :=
    String "010" (" → MICROLOGIX READ: " ++ fmt plc_name ++ " @ " ++ plc_ip) in
  match stdout header with
  | Raises e => (Raises e, [])
  | Returns _ =>
      let addrs := map tag_name tag_list in
      match driver addrs with
      | Returns resp =>
          let resp_list :=
            match resp with
            | MultiReadWrite.SlcList l => l
            | MultiReadWrite.SlcOne t => [t]
            end in
          (Returns
             (map (fun '(r, tinfo) =>
                     {| plc := plc_name;
                        got := {| value := MultiReadWrite.slc_value r;
                                  status := if negb (truthy (MultiReadWrite.slc_error r))
                                            then "OK"
                                            else py_str (MultiReadWrite.slc_error r);
                                  tag := tinfo |} |})
                  (combine resp_list tag_list)),
           [EvPrint header; EvSlcRead plc_ip addrs])
      | Raises e =>
          (Returns [],
           [EvPrint header; EvSlcRead plc_ip addrs;
            EvPrint ("[ERROR] MICROLOGIX " ++ fmt plc_name ++ ": " ++ e)])
      end
  end.

(** [read_logix(plc_name, plc_info, tag_list)]: one attempt. *)
Definition read_logix (stdout : string -> exc unit)
    (driver : bool -> list string -> exc (list MultiReadWrite.logix_resp))
    (plc_name : key) (info : plc_info) (tag_list : list tag_info)
  : exc (list result) * list event :=
  let header :=
    String "010" (" → LOGIX READ: " ++ fmt plc_name ++ " @ " ++ info_ip info ++
                  " (Type=" ++ info_type info ++ ")") in
  match stdout header with
  | Raises e => (Raises e, [])
  | Returns _ =>
      let is_micro800 := String.eqb (info_type info) "MICRO800" in
      let tag_names := map tag_name tag_list in
      match driver is_micro800 tag_names with
      | Returns resp_list =>
          (Returns
             (map (fun '(resp, tinfo) =>
                     {| plc := plc_name;
                        got := {| value := MultiReadWrite.lx_Value resp;
                                  status := MultiReadWrite.lx_Status resp;
                                  tag := tinfo |} |})
                  (combine resp_list tag_list)),
           [EvPrint header; EvLogixRead (info_ip info) is_micro800 tag_names])
      | Raises e =>
          (Returns [],
           [EvPrint header; EvLogixRead (info_ip info) is_micro800 tag_names;
            EvPrint ("[ERROR] LOGIX " ++ fmt plc_name ++ ": " ++ e)])
      end
  end.

(** The reader [main] calls for a device. *)
Definition read_device (stdout : string -> exc unit) (io : MultiReadWrite.device_io)
    (plc_name : key) (info : plc_info) (tag_list : list tag_info)
  : exc (list result) * list event :=
  if String.eqb (info_type info) "MICROLOGIX"
  then read_micro_logix stdout (MultiReadWrite.io_slc io 0) plc_name (info_ip info) tag_list
  else read_logix stdout (fun m => MultiReadWrite.io_logix io m 0) plc_name info tag_list.

(** [for plc_name, plc_info in plcs.items()] of [main]: the results
    gathered, device after device, and the events.  An exception of a reader
    leaves the loop and [main]. *)
Fixpoint read_all (stdout : string -> exc unit)
    (device : key -> MultiReadWrite.device_io)
    (excel_tags : dict (list tag_info)) (plcs : dict plc_info)
  : exc (list result) * list event :=
  match plcs with
  | [] => (Returns [], [])
  | (plc_name, info) :: rest =>
      match Dict.get plc_name excel_tags with
      | None =>
          let '(rs, ev) := read_all stdout device excel_tags rest in
          (rs, EvPrint ("[SKIP] No tags found for " ++ fmt plc_name) :: ev)
      | Some tag_list =>
          match read_device stdout (device plc_name) plc_name info tag_list with
          | (Raises e, ev1) => (Raises e, ev1)
          | (Returns res, ev1) =>
              match read_all stdout device excel_tags rest with
              | (Returns rs, ev) => (Returns (res ++ rs)%list, (ev1 ++ ev)%list)
              | (Raises e, ev) => (Raises e, (ev1 ++ ev)%list)
              end
          end
      end
  end.

(** [r["status"] == "OK" and r["value"] is not None] *)
Definition counts_ok (r : result) : bool :=
  String.eqb (status (got r)) "OK" &&
  negb (match value (got r) with PyNone => true | _ => false end).

(** [r["value"] is None or r["status"] != "OK"] *)
Definition listed_failed (r : result) : bool :=
  (match value (got r) with PyNone => true | _ => false end) ||
  negb (String.eqb (status (got r)) "OK").

Definition rule : string := "========================================================".

(** The report [main] prints for the results gathered. *)
Definition report (all_results : list result) : list event :=
  let total := List.length all_results in
  let ok := List.length (filter counts_ok all_results) in
  let failed := total - ok in
  (EvPrint (String "010" (String "010"
              ("================= FULL PLC READ REPORT =================" ++ String "010" "")))
   :: map (fun r =>
             EvPrint ("[" ++ fmt (plc r) ++ "] Index=" ++
                      PyStr.str_of_int (tag_index (tag (got r))) ++ " | Tag=" ++
                      tag_name (tag (got r)) ++ " | Value=" ++ py_str (value (got r)) ++
                      " | Status=" ++ status (got r)))
          all_results ++
   [EvPrint (String "010" rule);
    EvPrint ("Total Tags Read  : " ++ PyStr.str_of_int (Z.of_nat total));
    EvPrint ("Successful       : " ++ PyStr.str_of_int (Z.of_nat ok));
    EvPrint ("Failed/None      : " ++ PyStr.str_of_int (Z.of_nat failed));
    EvPrint (rule ++ String "010" "")] ++
   (if (0 <? failed)%nat then
      EvPrint " FAILED TAGS:"
        :: map (fun r =>
                  EvPrint ("  -> [" ++ fmt (plc r) ++ "] " ++ tag_name (tag (got r)) ++
                           " (Index=" ++ PyStr.str_of_int (tag_index (tag (got r))) ++
                           ") Status=" ++ status (got r)))
               (filter listed_failed all_results)
    else []))%list.

(** [main()], given the tag map with its indices as integers. *)
Definition main (stdout : string -> exc unit) (environ : list (string * string))
    (excel_tags : dict (list tag_info)) (device : key -> MultiReadWrite.device_io)
  : exc (list result) * list event :=
  let '(plcs, ev0) := load_plc_config_from_env environ in
  match read_all stdout device excel_tags plcs with
  | (Returns all_results, ev1) =>
      (Returns all_results, (ev0 ++ ev1 ++ report all_results)%list)
  | (Raises e, ev1) => (Raises e, (ev0 ++ ev1)%list)
  end.

End DebugMuliRead.

(* ================================================================== *)
(** * A plant with two devices *)
(* ================================================================== *)

(** The scenario of the design document: device A with two tags (indices 10
    and 11), device B with one (index 5), and the ways a device can behave. *)
Module Scenario.
Import Dict MultiReadWrite.

Definition tagA1 : tag_info :=
  {| row := 2; tag_name := "P2_FLOW"; tag_index := 10; tag_type := 1; tag_dtype := 2 |}.
Definition tagA2 : tag_info :=
  {| row := 3; tag_name := "P2_TEMP"; tag_index := 11; tag_type := 1; tag_dtype := 2 |}.
Definition tagB1 : tag_info :=
  {| row := 4; tag_name := "N7:0"; tag_index := 5; tag_type := 1; tag_dtype := 1 |}.

Definition tag_map : dict (list tag_info) :=
  [(Some "[A]", [tagA1; tagA2]); (Some "[B]", [tagB1])].

Definition environ : list (string * string) :=
  [("PLC_A_TYPE", "CompactLogix"); ("PLC_A_IP", "10.0.0.1");
   ("PLC_B_TYPE", "MicroLogix"); ("PLC_B_IP", "10.0.0.2")].

Definition infoA : plc_info := {| info_type := "COMPACTLOGIX"; info_ip := "10.0.0.1" |}.

Definition reply : string := "Reply from 10.0.0.1: bytes=32 time<1ms TTL=64".

(** A device that answers the ping and every read with 3.2 and "OK". *)
Definition answering : device_io :=
  {| io_ping := fun _ => Returns reply;
     io_slc := fun _ addrs =>
       Returns (SlcList (map (fun _ => {| slc_value := PyObj "3.2" true;
                                          slc_error := PyNone |}) addrs));
     io_logix := fun _ _ tags =>
       Returns (map (fun _ => {| lx_Value := PyObj "3.2" true;
                                 lx_Status := "OK" |}) tags);
     io_log := fun _ => Returns tt |}.

(** A device that does not answer the ping. *)
Definition silent : device_io :=
  {| io_ping := fun _ => Returns "Request timed out.";
     io_slc := fun _ _ => Raises "timed out";
     io_logix := fun _ _ _ => Raises "timed out";
     io_log := fun _ => Returns tt |}.

(** A device that answers the ping and whose every read raises. *)
Definition faulty : device_io :=
  {| io_ping := fun _ => Returns reply;
     io_slc := fun _ _ => Raises "connection refused";
     io_logix := fun _ _ _ => Raises "connection refused";
     io_log := fun _ => Returns tt |}.

(** The same device seen by a worker whose standard output is cp1252: the
    error line of the readers cannot be encoded. *)
Definition garbled : device_io :=
  {| io_ping := fun _ => Returns reply;
     io_slc := fun _ _ => Raises "connection refused";
     io_logix := fun _ _ _ => Raises "connection refused";
     io_log := fun _ => Raises "'charmap' codec can't encode character '→'" |}.

(** 10 January 2024 at 12:00 and at 02:00. *)
Definition noon : datetime :=
  {| dt_date := 738895; dt_hour := 12; dt_minute := 0; dt_second := 0; dt_micro := 0 |}.
Definition two_am : datetime :=
  {| dt_date := 738895; dt_hour := 2; dt_minute := 0; dt_second := 3; dt_micro := 0 |}.

(** A pass at noon in which A answers, B is silent and both sinks work. *)
Definition calm : world :=
  {| now_check := noon; os_execv := Returns tt;
     now_purge := noon; os_listdir := Returns []; os_remove := fun _ => Returns tt;
     now_scan := noon;
     pyodbc_connect := fun _ => Returns tt;
     device := fun k => if key_eqb k (Some "[A]") then answering else silent;
     schedule := [0; 1; 0];
     cursor_execute := fun _ _ => Returns tt;
     conn_commit := Returns tt;
     wb_save := Returns tt |}.

(** The same pass with the database server down. *)
Definition server_down : world :=
  {| now_check := noon; os_execv := Returns tt;
     now_purge := noon; os_listdir := Returns []; os_remove := fun _ => Returns tt;
     now_scan := noon;
     pyodbc_connect := fun _ => Raises "08001 server not found";
     device := device calm;
     schedule := schedule calm;
     cursor_execute := fun _ _ => Returns tt;
     conn_commit := Returns tt;
     wb_save := Returns tt |}.

(** The same pass with the second [INSERT] of the cycle failing. *)
Definition second_insert_fails : world :=
  {| now_check := noon; os_execv := Returns tt;
     now_purge := noon; os_listdir := Returns []; os_remove := fun _ => Returns tt;
     now_scan := noon;
     pyodbc_connect := fun _ => Returns tt;
     device := device calm;
     schedule := schedule calm;
     cursor_execute := fun k _ => if (k =? 1)%nat then Raises "23000 constraint" else Returns tt;
     conn_commit := Returns tt;
     wb_save := Returns tt |}.

(** A pass whose clock reads 02:00. *)
Definition at_two : world :=
  {| now_check := two_am; os_execv := Returns tt;
     now_purge := two_am; os_listdir := Returns []; os_remove := fun _ => Returns tt;
     now_scan := two_am;
     pyodbc_connect := fun _ => Returns tt;
     device := device calm;
     schedule := schedule calm;
     cursor_execute := fun _ _ => Returns tt;
     conn_commit := Returns tt;
     wb_save := Returns tt |}.

(** The calm pass with device A failing its reads before a worker whose
    standard output cannot encode the error line. *)
Definition log_fails : world :=
  {| now_check := noon; os_execv := Returns tt;
     now_purge := noon; os_listdir := Returns []; os_remove := fun _ => Returns tt;
     now_scan := noon;
     pyodbc_connect := fun _ => Returns tt;
     device := fun k => if key_eqb k (Some "[A]") then garbled else silent;
     schedule := schedule calm;
     cursor_execute := fun _ _ => Returns tt;
     conn_commit := Returns tt;
     wb_save := Returns tt |}.

Definition start : state :=
  {| last_restart_date := None; ws := []; saved := []; db := [] |}.

End Scenario.

(* ================================================================== *)
(** * Facts about the string methods *)
(* ================================================================== *)

Section StringFacts.
Import PyStr.

Lemma startswith_nil_l (s : string) : startswith "" s = true.
Proof. destruct s; reflexivity. Qed.

Lemma startswith_cons (a b : ascii) (p s : string) :
  startswith (String a p) (String b s) = Ascii.eqb a b && startswith p s.
Proof. reflexivity. Qed.

(** A string without an occurrence of [old] is left as it is. *)
Lemma replace_absent (old new s : string) :
  contains old s = false -> replace old new s = s.
Proof.
  unfold replace. induction s as [|c s IH]; intros H; [reflexivity|].
  cbn [contains] in H. apply orb_false_iff in H. destruct H as [H1 H2].
  cbn [replace_from]. rewrite H1. f_equal. apply IH, H2.
Qed.

(** Deleting occurrences never makes a string longer. *)
Lemma replace_from_length (k : nat) (old s : string) :
  String.length (replace_from k old "" s) <= String.length s - k.
Proof.
  revert k. induction s as [|c s IH]; intros k; cbn [replace_from]; [cbn; lia|].
  destruct k as [|k].
  - destruct (startswith old (String c s)).
    + cbn [append String.length]. specialize (IH (String.length old - 1)). lia.
    + cbn [String.length]. specialize (IH 0). lia.
  - cbn [String.length]. specialize (IH k). lia.
Qed.

(** Deleting the occurrences of a non-empty [old] that occurs shortens the
    string. *)
Lemma replace_present_shorter (old s : string) :
  old <> "" -> contains old s = true ->
  String.length (replace old "" s) < String.length s.
Proof.
  intros Hold. unfold replace. induction s as [|c s IH]; intros H.
  - destruct old; [congruence | discriminate H].
  - cbn [contains] in H. cbn [replace_from].
    destruct (startswith old (String c s)) eqn:E.
    + cbn [append String.length].
      pose proof (replace_from_length (String.length old - 1) old s). lia.
    + cbn [orb] in H. cbn [String.length]. specialize (IH H). lia.
Qed.

Lemma replace_fixed_iff (old s : string) :
  old <> "" -> (replace old "" s = s <-> contains old s = false).
Proof.
  intros Hold. split.
  - intros E. destruct (contains old s) eqn:C; [|reflexivity].
    pose proof (replace_present_shorter old s Hold C) as L.
    rewrite E in L. lia.
  - apply replace_absent.
Qed.

Lemma has_char_cons (a c : ascii) (s : string) :
  has_char a (String c s) = Ascii.eqb a c || has_char a s.
Proof.
  unfold has_char. cbn [contains startswith].
  rewrite ?startswith_nil_l, andb_true_r. reflexivity.
Qed.

Lemma has_char_nil (a : ascii) : has_char a "" = false.
Proof. reflexivity. Qed.

Lemma has_char_app (a : ascii) (s1 s2 : string) :
  has_char a (s1 ++ s2) = has_char a s1 || has_char a s2.
Proof.
  induction s1 as [|c s1 IH]; [reflexivity|].
  cbn [append]. rewrite !has_char_cons, IH, orb_assoc. reflexivity.
Qed.

(** Deleting occurrences adds no character. *)
Lemma has_char_replace_from (a : ascii) (k : nat) (old s : string) :
  has_char a s = false -> has_char a (replace_from k old "" s) = false.
Proof.
  revert k. induction s as [|c s IH]; intros k H; [reflexivity|].
  rewrite has_char_cons in H. apply orb_false_iff in H. destruct H as [H1 H2].
  cbn [replace_from]. destruct k as [|k]; [|apply IH, H2].
  destruct (startswith old (String c s)).
  - cbn [append]. apply IH, H2.
  - rewrite has_char_cons, H1. apply IH, H2.
Qed.

(** [s.replace(c, "")] leaves no [c]. *)
Lemma has_char_replace_char (a : ascii) (s : string) :
  has_char a (replace (String a "") "" s) = false.
Proof.
  unfold replace. induction s as [|c s IH]; [reflexivity|].
  cbn [replace_from startswith]. rewrite ?startswith_nil_l, andb_true_r.
  destruct (Ascii.eqb a c) eqn:E.
  - cbn [String.length Nat.sub append]. exact IH.
  - rewrite has_char_cons, E. exact IH.
Qed.

Lemma rstrip_length (s : string) : String.length (rstrip s) <= String.length s.
Proof.
  induction s as [|c s IH]; [cbn; lia|].
  cbn [rstrip]. destruct (rstrip s) as [|c' r].
  - destruct (isspace c); cbn; lia.
  - cbn [String.length] in *. lia.
Qed.

Lemma rstrip_full_length (s : string) :
  String.length (rstrip s) = String.length s -> rstrip s = s.
Proof.
  induction s as [|c s IH]; [reflexivity|].
  cbn [rstrip]. pose proof (rstrip_length s) as L.
  destruct (rstrip s) as [|c' r] eqn:E.
  - destruct (isspace c); cbn [String.length]; intros H; [discriminate|].
    cbn [String.length] in L. destruct s; [reflexivity | cbn in H; lia].
  - cbn [String.length]. intros H. f_equal. apply IH. cbn [String.length]. lia.
Qed.

Lemma has_char_rstrip (a : ascii) (s : string) :
  has_char a s = false -> has_char a (rstrip s) = false.
Proof.
  induction s as [|c s IH]; [reflexivity|].
  rewrite has_char_cons. intros H. apply orb_false_iff in H. destruct H as [H1 H2].
  cbn [rstrip]. specialize (IH H2). destruct (rstrip s) as [|c' r].
  - destruct (isspace c); [reflexivity|]. rewrite has_char_cons, H1. reflexivity.
  - rewrite has_char_cons, H1. exact IH.
Qed.

(** A string that starts with a character that is no blank keeps it under
    [strip]. *)
Lemma strip_keeps_head (c : ascii) (s : string) :
  isspace c = false ->
  strip (String c s) = rstrip (String c s) /\
  exists r, rstrip (String c s) = String c r.
Proof.
  intros H. unfold strip. cbn [lstrip]. rewrite H. split; [reflexivity|].
  cbn [rstrip]. destruct (rstrip s) as [|c' r].
  - rewrite H. eauto.
  - eauto.
Qed.

End StringFacts.

(* ================================================================== *)
(** * Device names: [normalize_plc_name] *)
(* ================================================================== *)

Section NormalizeFacts.
Import PyStr MultiReadWrite.

(** The two copies of the function are the same function. *)
Lemma normalize_excel_plc_name_eq (x : pyval) :
  DebugMuliRead.normalize_excel_plc_name x = normalize_plc_name x.
Proof. reflexivity. Qed.

Lemma normalize_falsy (x : pyval) :
  truthy x = false -> normalize_plc_name x = None.
Proof. intros H. unfold normalize_plc_name. rewrite H. reflexivity. Qed.

Lemma normalize_truthy (x : pyval) :
  truthy x = true ->
  exists r, normalize_plc_name x = Some r /\
            has_char " " r = false /\ startswith "[" r = true.
Proof.
  intros H. unfold normalize_plc_name. rewrite H. cbn [negb].
  set (name := replace " " "" (replace "::" "" (strip (py_str x)))).
  assert (Hsp : has_char " " name = false) by apply has_char_replace_char.
  destruct (startswith "[" name) eqn:E; cbn [negb]; eexists; split; try reflexivity.
  - split; assumption.
  - split; [|reflexivity].
    change ("[" ++ name ++ "]") with (String "[" (name ++ "]")).
    rewrite has_char_cons, has_char_app, Hsp. reflexivity.
Qed.

(** What a second pass does to a result of the first. *)
Lemma normalize_again (r : string) :
  has_char " " r = false -> startswith "[" r = true ->
  normalize_plc_name (PyStr r) = Some (replace "::" "" (rstrip r)).
Proof.
  intros Hsp Hbr. destruct r as [|c r]; [discriminate Hbr|].
  cbn [startswith] in Hbr. apply andb_true_iff in Hbr. destruct Hbr as [Hc _].
  apply Ascii.eqb_eq in Hc. subst c.
  unfold normalize_plc_name. cbn [truthy negb py_str String.eqb].
  destruct (strip_keeps_head "[" r eq_refl) as [Es [t Et]].
  rewrite Es.
  assert (Ht : has_char " " (rstrip (String "[" r)) = false)
    by (apply has_char_rstrip, Hsp).
  rewrite Et in *.
  assert (Hu : has_char " " (replace "::" "" (String "[" t)) = false)
    by (apply has_char_replace_from, Ht).
  rewrite (replace_absent " " "" _ Hu).
  unfold replace. cbn [replace_from startswith Ascii.eqb Bool.eqb andb].
  cbn [startswith Ascii.eqb Bool.eqb andb negb]. reflexivity.
Qed.

Lemma renormalize_fixed_iff (r : string) :
  has_char " " r = false -> startswith "[" r = true ->
  (normalize_plc_name (PyStr r) = Some r <->
   contains "::" r = false /\ rstrip r = r).
Proof.
  intros Hsp Hbr. rewrite (normalize_again r Hsp Hbr). split.
  - intros E. injection E as E.
    assert (L : String.length (rstrip r) = String.length r).
    { pose proof (rstrip_length r).
      pose proof (replace_from_length 0 "::" (rstrip r)) as L2.
      unfold replace in E. rewrite E in L2. lia. }
    apply rstrip_full_length in L. rewrite L in E.
    split; [|exact L]. apply replace_fixed_iff in E; [exact E | discriminate].
  - intros [C R]. rewrite R. f_equal. apply replace_absent, C.
Qed.

End NormalizeFacts.

(** C10, the claim as written fails: an input with two colons around a
    blank normalizes to a name that still holds "::", and normalizing that
    name again gives a different one. *)
Lemma normalize_plc_name_not_idempotent :
  MultiReadWrite.normalize_plc_name (PyStr "P1: :NH3") = Some "[P1::NH3]" /\
  PyStr.contains "::" "[P1::NH3]" = true /\
  MultiReadWrite.normalize_plc_name
    (py_of_opt (MultiReadWrite.normalize_plc_name (PyStr "P1: :NH3")))
  <> MultiReadWrite.normalize_plc_name (PyStr "P1: :NH3").
Proof. repeat split; try reflexivity. cbv. discriminate. Qed.

(** C10, amended: [normalize_plc_name] (and its copy
    [normalize_excel_plc_name]) returns [None] for every falsy input; for
    every other input, so for every non-empty string, the result holds no
    blank and starts with "["; and normalizing a result again returns it
    unchanged exactly when it holds no "::" and does not end in white
    space. *)
Theorem normalize_plc_name_spec (x : pyval) :
  DebugMuliRead.normalize_excel_plc_name x = MultiReadWrite.normalize_plc_name x /\
  (truthy x = false ->
   MultiReadWrite.normalize_plc_name x = None /\
   MultiReadWrite.normalize_plc_name
     (py_of_opt (MultiReadWrite.normalize_plc_name x))
   = MultiReadWrite.normalize_plc_name x) /\
  (truthy x = true ->
   exists r, MultiReadWrite.normalize_plc_name x = Some r /\
             PyStr.contains " " r = false /\
             PyStr.startswith "[" r = true /\
             (MultiReadWrite.normalize_plc_name
                (py_of_opt (MultiReadWrite.normalize_plc_name x))
              = MultiReadWrite.normalize_plc_name x
              <-> PyStr.contains "::" r = false /\ PyStr.rstrip r = r)).
Proof.
  split; [reflexivity|]. split.
  { intros H. rewrite (normalize_falsy x H). split; reflexivity. }
  intros H. destruct (normalize_truthy x H) as [r [E [Hsp Hbr]]].
  exists r. rewrite E. cbn [py_of_opt].
  repeat split; try assumption.
  - apply renormalize_fixed_iff; assumption.
  - apply renormalize_fixed_iff; assumption.
  - intros [C R]. apply renormalize_fixed_iff; auto.
Qed.

(** The amended statement at a name as the catalog writes it: the second
    pass changes nothing. *)
Lemma normalize_plc_name_spec_witness :
  truthy (PyStr " ::[P1_NH3_PLC] ") = true /\
  MultiReadWrite.normalize_plc_name
    (py_of_opt (MultiReadWrite.normalize_plc_name (PyStr " ::[P1_NH3_PLC] ")))
  = MultiReadWrite.normalize_plc_name (PyStr " ::[P1_NH3_PLC] ").
Proof.
  split; [reflexivity|].
  destruct (normalize_plc_name_spec (PyStr " ::[P1_NH3_PLC] ")) as [_ [_ H]].
  destruct (H eq_refl) as [r [E [_ [_ I]]]].
  apply I. injection E as E. subst r. split; reflexivity.
Defined.

(* ================================================================== *)
(** * Log retention: [purge_old_logs] *)
(* ================================================================== *)

Section PurgeFacts.
Import PyStr MultiReadWrite.

Ltac cmp_cases :=
  repeat match goal with
         | |- context [(?a <? ?b)%Z] => destruct (Z.ltb_spec a b)
         | |- context [(?a =? ?b)%Z] => destruct (Z.eqb_spec a b)
         end.

(** A date at midnight against a clock reading. *)
Lemma dt_ltb_midnight (d : Z) (now : datetime) :
  dt_wf now ->
  dt_ltb (midnight d) now =
  ((d <? dt_date now) || ((d =? dt_date now) && negb (at_midnight now)))%Z.
Proof.
  destruct now as [D h m s u]. unfold dt_wf, dt_ltb, midnight, at_midnight.
  cbn [dt_date dt_hour dt_minute dt_second dt_micro]. intros [Hh [Hm [Hs Hu]]].
  cmp_cases; cbn [andb orb negb]; try reflexivity; lia.
Qed.

Lemma removed_app (ev1 ev2 : list event) :
  removed (ev1 ++ ev2) = (removed ev1 ++ removed ev2)%list.
Proof.
  induction ev1 as [|e ev1 IH]; [reflexivity|].
  destruct e; cbn; rewrite ?IH; reflexivity.
Qed.

(** The loop deletes the expired partitions in listing order and stops at
    the first deletion that raises. *)
Lemma purge_scan_removed (os_remove : list string -> exc unit)
    (cutoff : datetime) (names : list string) :
  removed (fst (purge_scan os_remove cutoff names)) =
  before_fault os_remove
    (map (os_path_join LOG_DIR) (filter (expired cutoff) names)).
Proof.
  induction names as [|fname rest IH]; [reflexivity|].
  cbn [purge_scan filter]. unfold expired at 1, partition_date.
  destruct (startswith "plc_reader_" fname); cbn [negb orb andb]; [|exact IH].
  destruct (endswith ".log" fname); cbn [negb]; [|exact IH].
  destruct (Strptime.strptime_Ymd _) as [fdate|]; [|exact IH].
  destruct (dt_ltb (midnight fdate) cutoff); [|exact IH].
  cbn [map before_fault].
  destruct (os_remove (os_path_join LOG_DIR fname)); [|reflexivity].
  destruct (purge_scan os_remove cutoff rest) as [ev r].
  cbn [fst removed] in *. rewrite IH. reflexivity.
Qed.

(** The loop does nothing but delete. *)
Lemma purge_scan_events (os_remove : list string -> exc unit)
    (cutoff : datetime) (names : list string) :
  Forall (fun e => exists p, e = EvRemove p)
         (fst (purge_scan os_remove cutoff names)).
Proof.
  induction names as [|fname rest IH]; [constructor|].
  cbn [purge_scan].
  destruct (negb (startswith "plc_reader_" fname) || negb (endswith ".log" fname));
    [exact IH|].
  destruct (Strptime.strptime_Ymd _) as [fdate|]; [|exact IH].
  destruct (dt_ltb (midnight fdate) cutoff); [|exact IH].
  destruct (os_remove (os_path_join LOG_DIR fname)); [|constructor].
  destruct (purge_scan os_remove cutoff rest) as [ev r].
  cbn [fst] in *. constructor; eauto.
Qed.

(** What the sweep deletes. *)
Lemma purge_old_logs_removed (now : datetime) (names : list string)
    (os_remove : list string -> exc unit) (days_keep : Z) :
  removed (purge_old_logs now (Returns names) os_remove days_keep) =
  before_fault os_remove
    (map (os_path_join LOG_DIR)
         (filter (expired (minus_days now days_keep)) names)).
Proof.
  unfold purge_old_logs. rewrite <- purge_scan_removed.
  destruct (purge_scan os_remove (minus_days now days_keep) names) as [ev [e|]];
    cbn [fst]; [|reflexivity].
  rewrite removed_app. cbn. apply app_nil_r.
Qed.

(** Every fault of the sweep ends as a printed line. *)
Lemma purge_old_logs_events (now : datetime) (listing : exc (list string))
    (os_remove : list string -> exc unit) (days_keep : Z) :
  Forall (fun e => (exists p, e = EvRemove p) \/ (exists m, e = EvPrint m))
         (purge_old_logs now listing os_remove days_keep).
Proof.
  unfold purge_old_logs. destruct listing as [names|e].
  - pose proof (purge_scan_events os_remove (minus_days now days_keep) names) as H.
    destruct (purge_scan os_remove (minus_days now days_keep) names) as [ev [e|]];
      cbn [fst] in H.
    + apply (proj2 (Forall_app _ _ _)). split.
      * eapply Forall_impl; [|exact H]. cbn. auto.
      * constructor; [right; eauto | constructor].
    + eapply Forall_impl; [|exact H]. cbn. auto.
  - constructor; [right; eauto | constructor].
Qed.

(** The four partitions of the scenario, seen from any instant of day 10. *)
Lemma expired_scenario (now : datetime) (f1 f3 f9 f10 : string) :
  dt_wf now ->
  partition_date f1 = Some (dt_date now - 9)%Z ->
  partition_date f3 = Some (dt_date now - 7)%Z ->
  partition_date f9 = Some (dt_date now - 1)%Z ->
  partition_date f10 = Some (dt_date now) ->
  filter (expired (minus_days now 7)) [f1; f3; f9; f10] =
  if at_midnight now then [f1] else [f1; f3].
Proof.
  intros W H1 H3 H9 H10.
  assert (W' : dt_wf (minus_days now 7)) by exact W.
  cbn [filter]. unfold expired. rewrite H1, H3, H9, H10.
  rewrite !(dt_ltb_midnight _ _ W').
  change (at_midnight (minus_days now 7)) with (at_midnight now).
  change (dt_date (minus_days now 7)) with (dt_date now - 7)%Z.
  destruct (at_midnight now); cmp_cases; cbn [andb orb negb]; try reflexivity; lia.
Qed.

(** The deletion that raises ends the loop with its exception. *)
Lemma purge_scan_fault (os_remove : list string -> exc unit)
    (cutoff : datetime) (names : list string) :
  forall pre p rest e,
    map (os_path_join LOG_DIR) (filter (expired cutoff) names) = (pre ++ p :: rest)%list ->
    (forall q, In q pre -> exists u, os_remove q = Returns u) ->
    os_remove p = Raises e ->
    snd (purge_scan os_remove cutoff names) = Some e.
Proof.
  induction names as [|fname names IH]; intros pre p rest e E Hpre Hp.
  - destruct pre; discriminate E.
  - revert E. cbn [purge_scan filter]. unfold expired at 1, partition_date.
    destruct (startswith "plc_reader_" fname); cbn [negb orb andb];
      [|intros E; exact (IH _ _ _ _ E Hpre Hp)].
    destruct (endswith ".log" fname); cbn [negb];
      [|intros E; exact (IH _ _ _ _ E Hpre Hp)].
    destruct (Strptime.strptime_Ymd _) as [fdate|];
      [|intros E; exact (IH _ _ _ _ E Hpre Hp)].
    destruct (dt_ltb (midnight fdate) cutoff);
      [|intros E; exact (IH _ _ _ _ E Hpre Hp)].
    cbn [map]. intros E. destruct pre as [|q pre]; cbn [app] in E.
    + injection E as <- _. rewrite Hp. reflexivity.
    + injection E as <- E. destruct (Hpre _ (or_introl eq_refl)) as [u ->].
      specialize (IH pre p rest e E (fun q' H => Hpre q' (or_intror H)) Hp).
      destruct (purge_scan os_remove cutoff names) as [ev r]. exact IH.
Qed.

Lemma before_fault_stop (os_remove : list string -> exc unit)
    (pre : list (list string)) p rest e :
  (forall q, In q pre -> exists u, os_remove q = Returns u) ->
  os_remove p = Raises e ->
  before_fault os_remove (pre ++ p :: rest) = pre.
Proof.
  intros Hpre Hp. induction pre as [|q pre IH]; cbn [app before_fault].
  - rewrite Hp. reflexivity.
  - destruct (Hpre _ (or_introl eq_refl)) as [u ->]. rewrite IH; [reflexivity|].
    intros q' H. apply Hpre. right. exact H.
Qed.

End PurgeFacts.

(** C7, the claim as written fails on two inputs.  With the partitions of
    days 1, 3, 9 and 10 listed at noon of day 10 (10 January 2024), a
    deletion of the day-1 file that raises ends the sweep: the day-3 file,
    older than the window, is not deleted.  And at 00:00:00.000000 of day 10
    the day-3 file is not older than the cutoff: only day 1 is deleted. *)
Lemma purge_old_logs_fault_not_skipped :
  let names := ["plc_reader_20240101.log"; "plc_reader_20240103.log";
                "plc_reader_20240109.log"; "plc_reader_20240110.log"] in
  let noon := {| dt_date := 738895; dt_hour := 12; dt_minute := 0;
                 dt_second := 0; dt_micro := 0 |} in
  let locked (p : list string) :=
    match p with
    | [_; f] => if String.eqb f "plc_reader_20240101.log"
                then Raises "PermissionError" else Returns tt
    | _ => Returns tt
    end in
  MultiReadWrite.partition_date "plc_reader_20240103.log" = Some 738888%Z /\
  MultiReadWrite.expired (minus_days noon 7) "plc_reader_20240103.log" = true /\
  MultiReadWrite.removed
    (MultiReadWrite.purge_old_logs noon (Returns names) locked 7) = [] /\
  MultiReadWrite.removed
    (MultiReadWrite.purge_old_logs (midnight 738895) (Returns names)
       (fun _ => Returns tt) 7)
  = [["logs"; "plc_reader_20240101.log"]].
Proof. cbv zeta. repeat split; vm_compute; reflexivity. Qed.

(** C7, amended: the sweep deletes, in listing order, the day partitions
    whose date at midnight lies before now minus 7 days, up to the first
    deletion that raises (a name that is no partition or does not parse is
    passed over; a failed deletion ends the sweep of that cycle and its
    exception is printed, as is the one of a directory that cannot be
    listed); it does nothing else, so nothing is raised; and with the
    partitions of days 1, 3, 9, 10, all deletable, it deletes days 1 and 3
    and keeps days 9 and 10 at any instant of day 10 other than
    00:00:00.000000. *)
Theorem purge_old_logs_sweep (now : datetime) (listing : exc (list string))
    (os_remove : list string -> exc unit) :
  let ev := MultiReadWrite.purge_old_logs now listing os_remove 7 in
  Forall (fun e => (exists p, e = EvRemove p) \/ (exists m, e = EvPrint m)) ev /\
  (forall e, listing = Raises e -> MultiReadWrite.removed ev = []) /\
  (forall names, listing = Returns names ->
     MultiReadWrite.removed ev =
     MultiReadWrite.before_fault os_remove
       (map (MultiReadWrite.os_path_join MultiReadWrite.LOG_DIR)
            (filter (MultiReadWrite.expired (minus_days now 7)) names))) /\
  (forall f1 f3 f9 f10,
     listing = Returns [f1; f3; f9; f10] ->
     dt_wf now -> at_midnight now = false ->
     MultiReadWrite.partition_date f1 = Some (dt_date now - 9)%Z ->
     MultiReadWrite.partition_date f3 = Some (dt_date now - 7)%Z ->
     MultiReadWrite.partition_date f9 = Some (dt_date now - 1)%Z ->
     MultiReadWrite.partition_date f10 = Some (dt_date now) ->
     (forall p, os_remove p = Returns tt) ->
     MultiReadWrite.removed ev =
     [MultiReadWrite.os_path_join MultiReadWrite.LOG_DIR f1;
      MultiReadWrite.os_path_join MultiReadWrite.LOG_DIR f3]) /\
  (forall names pre p rest e,
     listing = Returns names ->
     map (MultiReadWrite.os_path_join MultiReadWrite.LOG_DIR)
         (filter (MultiReadWrite.expired (minus_days now 7)) names)
     = (pre ++ p :: rest)%list ->
     (forall q, In q pre -> exists u, os_remove q = Returns u) ->
     os_remove p = Raises e ->
     MultiReadWrite.removed ev = pre /\
     In (EvPrint ("[LOG_PURGE_ERROR] " ++ e)) ev) /\
  (forall e, listing = Raises e -> ev = [EvPrint ("[LOG_PURGE_ERROR] " ++ e)]).
Proof.
  cbv zeta. split; [apply purge_old_logs_events|]. split; [|split; [|split; [|split]]].
  - intros e ->. reflexivity.
  - intros names ->. apply purge_old_logs_removed.
  - intros f1 f3 f9 f10 -> W M H1 H3 H9 H10 Hrm.
    rewrite purge_old_logs_removed.
    rewrite (expired_scenario now f1 f3 f9 f10 W H1 H3 H9 H10), M.
    cbn [map MultiReadWrite.before_fault]. rewrite !Hrm. reflexivity.
  - intros names pre p rest e -> E Hpre Hp. split.
    + rewrite purge_old_logs_removed, E.
      exact (before_fault_stop os_remove pre p rest e Hpre Hp).
    + unfold MultiReadWrite.purge_old_logs.
      pose proof (purge_scan_fault os_remove (minus_days now 7) names pre p rest e
                    E Hpre Hp) as F.
      destruct (MultiReadWrite.purge_scan os_remove (minus_days now 7) names)
        as [ev r]. cbn [snd] in F. subst r.
      apply in_or_app. right. left. reflexivity.
  - intros e ->. reflexivity.
Qed.

(** The scenario at noon of 10 January 2024. *)
Lemma purge_old_logs_sweep_witness :
  let noon := {| dt_date := 738895; dt_hour := 12; dt_minute := 0;
                 dt_second := 0; dt_micro := 0 |} in
  MultiReadWrite.removed
    (MultiReadWrite.purge_old_logs noon
       (Returns ["plc_reader_20240101.log"; "plc_reader_20240103.log";
                 "plc_reader_20240109.log"; "plc_reader_20240110.log"])
       (fun _ => Returns tt) 7)
  = [["logs"; "plc_reader_20240101.log"]; ["logs"; "plc_reader_20240103.log"]].
Proof.
  cbv zeta.
  refine (proj1 (proj2 (proj2 (proj2 (purge_old_logs_sweep _ _ _))))
            _ _ _ _ eq_refl _ _ _ _ _ _ _).
  - cbv. repeat split; discriminate.
  - reflexivity.
  - vm_compute. reflexivity.
  - vm_compute. reflexivity.
  - vm_compute. reflexivity.
  - vm_compute. reflexivity.
  - reflexivity.
Defined.

(* ================================================================== *)
(** * The daily restart *)
(* ================================================================== *)

Section RestartFacts.
Import PyStr Dict MultiReadWrite.

Lemma restart_due_true (now : datetime) (last : option Z) :
  restart_due now last = true ->
  dt_hour now = 2%Z /\ dt_minute now = 0%Z /\ last <> Some (dt_date now).
Proof.
  unfold restart_due. intros H.
  apply andb_true_iff in H. destruct H as [H Hl].
  apply andb_true_iff in H. destruct H as [Hh Hm].
  apply Z.eqb_eq in Hh. apply Z.eqb_eq in Hm. repeat split; try assumption.
  intros ->. rewrite Z.eqb_refl in Hl. discriminate.
Qed.

(** Once the date is recorded the check fails for the rest of that date. *)
Lemma restart_due_same_date (later : datetime) (d : Z) :
  dt_date later = d -> restart_due later (Some d) = false.
Proof.
  intros <-. unfold restart_due. rewrite Z.eqb_refl. cbn [negb].
  apply andb_false_r.
Qed.

(** Outside 02:00 the check fails whatever was recorded. *)
Lemma restart_due_other_minute (later : datetime) (last : option Z) :
  dt_hour later <> 2%Z \/ dt_minute later <> 0%Z -> restart_due later last = false.
Proof.
  intros H. destruct (restart_due later last) eqn:E; [|reflexivity].
  apply restart_due_true in E. destruct H; tauto.
Qed.

Lemma execv_calls_app (ev1 ev2 : list event) :
  execv_calls (ev1 ++ ev2) = execv_calls ev1 + execv_calls ev2.
Proof. unfold execv_calls. rewrite filter_app, length_app. reflexivity. Qed.

Lemma execv_calls_none (ev : list event) :
  Forall quiet ev -> execv_calls ev = 0.
Proof.
  unfold execv_calls. induction 1 as [|e ev He _ IH]; [reflexivity|].
  cbn [filter]. destruct e; try exact IH. destruct He.
Qed.

Lemma executed_app (ev1 ev2 : list event) :
  executed (ev1 ++ ev2) = (executed ev1 ++ executed ev2)%list.
Proof.
  induction ev1 as [|e ev1 IH]; [reflexivity|].
  destruct e; cbn; rewrite ?IH; reflexivity.
Qed.

Lemma executed_none (ev : list event) :
  Forall quiet ev -> executed ev = [].
Proof.
  induction 1 as [|e ev He _ IH]; [reflexivity|].
  destruct e; try exact IH. destruct He.
Qed.

Lemma quiet_no_commit (ev : list event) :
  Forall quiet ev -> ~ In EvCommit ev.
Proof.
  intros H Hin. rewrite Forall_forall in H. exact (H _ Hin).
Qed.

Lemma purge_no_execv now listing rm k :
  Forall quiet (purge_old_logs now listing rm k).
Proof.
  eapply Forall_impl; [|apply purge_old_logs_events].
  intros e [[p ->]|[m ->]]; exact I.
Qed.

Lemma read_micro_logix_no_execv lg driver ip tl retries a left :
  Forall quiet
         (snd (read_micro_logix_from lg driver ip tl retries a left)).
Proof.
  revert a. induction left as [|left IH]; intros a; cbn [read_micro_logix_from].
  - constructor.
  - destruct (driver a (map tag_name tl)).
    + cbn [snd]. repeat constructor.
    + destruct (lg _); [|cbn [snd]; repeat constructor].
      specialize (IH (S a)).
      destruct (read_micro_logix_from lg driver ip tl retries (S a) left) as [rs ev].
      cbn [snd] in *. repeat (constructor; [exact I|]). exact IH.
Qed.

Lemma read_logix_no_execv lg driver ip tl m8 retries a left :
  Forall quiet
         (snd (read_logix_from lg driver ip tl m8 retries a left)).
Proof.
  revert a. induction left as [|left IH]; intros a; cbn [read_logix_from].
  - constructor.
  - destruct (driver a (map tag_name tl)).
    + cbn [snd]. repeat constructor.
    + destruct (lg _); [|cbn [snd]; repeat constructor].
      specialize (IH (S a)).
      destruct (read_logix_from lg driver ip tl m8 retries (S a) left) as [rs ev].
      cbn [snd] in *. repeat (constructor; [exact I|]). exact IH.
Qed.

Lemma ping_no_execv run ip :
  Forall quiet (snd (ping run ip)).
Proof.
  unfold ping. destruct (run ip); cbn [snd]; repeat constructor.
Qed.

Lemma plc_worker_no_execv io name info tl :
  Forall quiet (snd (plc_worker io name info tl)).
Proof.
  unfold plc_worker. pose proof (ping_no_execv (io_ping io) (info_ip info)) as P.
  destruct (ping (io_ping io) (info_ip info)) as [alive evp]. cbn [snd] in P.
  destruct alive; cbn [negb].
  - destruct (String.eqb (info_type info) "MICROLOGIX").
    + pose proof (read_micro_logix_no_execv (io_log io) (io_slc io) (info_ip info)
                    tl 3 0 3) as R.
      unfold read_micro_logix.
      destruct (read_micro_logix_from _ _ _ _ _ _ _) as [rs ev]. cbn [snd] in *.
      apply (proj2 (Forall_app _ _ _)). split; assumption.
    + pose proof (read_logix_no_execv (io_log io)
                    (io_logix io (String.eqb (info_type info) "MICRO800"))
                    (info_ip info) tl
                    (String.eqb (info_type info) "MICRO800") 3 0 3) as R.
      unfold read_logix.
      destruct (read_logix_from _ _ _ _ _ _ _ _) as [rs ev]. cbn [snd] in *.
      apply (proj2 (Forall_app _ _ _)). split; assumption.
  - cbn [snd]. apply (proj2 (Forall_app _ _ _)). split; [assumption|].
    repeat constructor.
Qed.

Lemma spawn_no_execv dev tag_map plcs :
  Forall quiet (snd (spawn dev tag_map plcs)).
Proof.
  induction plcs as [|[name info] rest IH]; cbn [spawn]; [constructor|].
  destruct (spawn dev tag_map rest) as [qs ev]. cbn [snd] in IH.
  destruct (Dict.get name tag_map) as [tl|].
  - pose proof (plc_worker_no_execv (dev name) name info tl) as W.
    destruct (plc_worker (dev name) name info tl) as [rs evw]. cbn [snd] in *.
    apply (proj2 (Forall_app _ _ _)). split; assumption.
  - cbn [snd]. constructor; [exact I | assumption].
Qed.

Lemma write_results_no_execv ex now k rs ws conn :
  Forall (fun e => e <> EvExecv /\ e <> EvCommit)
         (snd (fst (write_results ex now k rs ws conn))).
Proof.
  revert k ws conn. induction rs as [|r rs IH]; intros k ws conn;
    cbn [write_results]; [constructor|].
  destruct (ex k (sql_row now r)).
  - specialize (IH (S k) (excel_write now r ws) (conn ++ [sql_row now r])%list).
    destruct (write_results ex now (S k) rs _ _) as [[[ws' conn'] ev] f].
    cbn [fst snd] in *. repeat (constructor; [split; discriminate|]). exact IH.
  - cbn [fst snd]. repeat constructor; discriminate.
Qed.

Lemma execv_calls_none' (ev : list event) :
  Forall (fun e => e <> EvExecv /\ e <> EvCommit) ev -> execv_calls ev = 0.
Proof.
  unfold execv_calls. induction 1 as [|e ev He _ IH]; [reflexivity|].
  cbn [filter]. destruct e; try exact IH. destruct He as [He _]. congruence.
Qed.

End RestartFacts.

Section CycleRestartFacts.
Import PyStr Dict MultiReadWrite.

Variable environ : list (string * string).
Variable plcs : dict plc_info.
Variable tag_map : dict (list tag_info).
Variable LOOP_INTERVAL : Z.

Lemma cycle_restart (w : world) (st : state) :
  restart_due (now_check w) (last_restart_date st) = true ->
  is_looping (fst (cycle environ plcs tag_map LOOP_INTERVAL w st)) = false /\
  last_restart_date (state_of (fst (cycle environ plcs tag_map LOOP_INTERVAL w st)))
  = Some (dt_date (now_check w)) /\
  execv_calls (snd (cycle environ plcs tag_map LOOP_INTERVAL w st)) = 1.
Proof.
  intros H. unfold cycle. rewrite H.
  destruct (os_execv w); repeat split; reflexivity.
Qed.

Lemma cycle_no_restart (w : world) (st : state) :
  restart_due (now_check w) (last_restart_date st) = false ->
  execv_calls (snd (cycle environ plcs tag_map LOOP_INTERVAL w st)) = 0 /\
  last_restart_date (state_of (fst (cycle environ plcs tag_map LOOP_INTERVAL w st)))
  = last_restart_date st.
Proof.
  intros H. unfold cycle. rewrite H.
  pose proof (purge_no_execv (now_purge w) (os_listdir w) (os_remove w) 7) as P.
  pose proof (spawn_no_execv (device w) tag_map plcs) as S.
  assert (E0 : execv_calls
                 (purge_old_logs (now_purge w) (os_listdir w) (os_remove w) 7 ++
                  [EvLog "========== NEW SCAN =========="; EvConnect (conn_str environ)])
               = 0).
  { rewrite execv_calls_app, (execv_calls_none _ P). reflexivity. }
  unfold get_sql_connection.
  destruct (pyodbc_connect w (conn_str environ)); [|split; [exact E0 | reflexivity]].
  pose proof (write_results_no_execv (cursor_execute w) (now_scan w) 0
                (merged plcs tag_map w) (ws st) []) as Wr.
  destruct (write_results (cursor_execute w) (now_scan w) 0
              (merged plcs tag_map w) (ws st) []) as [[[ws' conn] evw] fault].
  cbn [fst snd] in Wr.
  assert (E2 : execv_calls
                 (((purge_old_logs (now_purge w) (os_listdir w) (os_remove w) 7 ++
                   [EvLog "========== NEW SCAN =========="; EvConnect (conn_str environ)]) ++
                  snd (spawn (device w) tag_map plcs)) ++ evw) = 0).
  { rewrite (execv_calls_app _ evw), (execv_calls_app _ (snd _)), E0.
    rewrite (execv_calls_none _ S), (execv_calls_none' _ Wr). reflexivity. }
  destruct fault as [e|]; [split; [exact E2 | reflexivity]|].
  destruct (conn_commit w).
  - destruct (wb_save w); cbn [fst snd state_of last_restart_date];
      (split; [|reflexivity]); rewrite execv_calls_app, E2; reflexivity.
  - cbn [fst snd state_of]. split; [|reflexivity].
    rewrite execv_calls_app, E2. reflexivity.
Qed.

(** One process instance calls [os.execv] at most once, and when it does
    the loop has ended at a pass whose clock read 02:00. *)
Lemma main_loop_from_execv (script : list world) (st : state) :
  let r := main_loop_from environ plcs tag_map LOOP_INTERVAL script st in
  execv_calls (snd r) <= 1 /\
  (execv_calls (snd r) = 1 ->
   is_looping (fst r) = false /\
   exists w, In w script /\
     dt_hour (now_check w) = 2%Z /\ dt_minute (now_check w) = 0%Z /\
     last_restart_date (state_of (fst r)) = Some (dt_date (now_check w))).
Proof.
  cbv zeta. revert st. induction script as [|w script IH]; intros st.
  - cbn. split; [lia | discriminate].
  - cbn [main_loop_from].
    destruct (restart_due (now_check w) (last_restart_date st)) eqn:R.
    + destruct (cycle_restart w st R) as [L [D C]].
      destruct (restart_due_true _ _ R) as [Hh [Hm _]].
      destruct (cycle environ plcs tag_map LOOP_INTERVAL w st) as [o ev].
      cbn [fst snd] in *. destruct o; try discriminate L; cbn [fst snd].
      * split; [lia|]. intros _. split; [reflexivity|].
        exists w. repeat split; try assumption. left; reflexivity.
      * split; [lia|]. intros _. split; [reflexivity|].
        exists w. repeat split; try assumption. left; reflexivity.
    + destruct (cycle_no_restart w st R) as [C D].
      destruct (cycle environ plcs tag_map LOOP_INTERVAL w st) as [o ev].
      cbn [fst snd] in *. destruct o as [st'|st'|e st']; cbn [fst snd].
      * specialize (IH st').
        destruct (main_loop_from environ plcs tag_map LOOP_INTERVAL script st')
          as [o' ev'].
        cbn [fst snd] in *. rewrite execv_calls_app, C. cbn [Nat.add].
        destruct IH as [IH1 IH2]. split; [exact IH1|].
        intros H. destruct (IH2 H) as [L [w' [Hin Hw]]].
        split; [exact L|]. exists w'. split; [right; exact Hin | exact Hw].
      * rewrite C. split; [lia | discriminate].
      * rewrite C. split; [lia | discriminate].
Qed.

End CycleRestartFacts.

(** C8: the restart check fires only when the clock reads 02:00 and the
    recorded date is not today's; once a date is recorded the check fails at
    every later reading of that date, also within 02:00 and through
    02:01-02:59; a pass that fires records the date and ends the loop; and one
    process instance calls [os.execv] at most once, at a pass whose clock
    read 02:00. *)
Theorem daily_restart_once (environ : list (string * string))
    (plcs : Dict.dict plc_info) (tag_map : Dict.dict (list tag_info))
    (LOOP_INTERVAL : Z) (script : list MultiReadWrite.world)
    (st : MultiReadWrite.state) :
  (forall now last,
     MultiReadWrite.restart_due now last = true ->
     dt_hour now = 2%Z /\ dt_minute now = 0%Z /\ last <> Some (dt_date now)) /\
  (forall w st0,
     MultiReadWrite.restart_due (MultiReadWrite.now_check w)
       (MultiReadWrite.last_restart_date st0) = true ->
     let o := fst (MultiReadWrite.cycle environ plcs tag_map LOOP_INTERVAL w st0) in
     MultiReadWrite.is_looping o = false /\
     forall later,
       dt_date later = dt_date (MultiReadWrite.now_check w) ->
       MultiReadWrite.restart_due later
         (MultiReadWrite.last_restart_date (MultiReadWrite.state_of o)) = false) /\
  (let r := MultiReadWrite.main_loop_from environ plcs tag_map LOOP_INTERVAL script st in
   MultiReadWrite.execv_calls (snd r) <= 1 /\
   (MultiReadWrite.execv_calls (snd r) = 1 ->
    MultiReadWrite.is_looping (fst r) = false /\
    exists w, In w script /\
      dt_hour (MultiReadWrite.now_check w) = 2%Z /\
      dt_minute (MultiReadWrite.now_check w) = 0%Z /\
      MultiReadWrite.last_restart_date (MultiReadWrite.state_of (fst r))
      = Some (dt_date (MultiReadWrite.now_check w)))).
Proof.
  split; [exact restart_due_true|]. split.
  - intros w st0 R. cbv zeta.
    destruct (cycle_restart environ plcs tag_map LOOP_INTERVAL w st0 R) as [L [D _]].
    split; [exact L|]. intros later E. rewrite D.
    apply restart_due_same_date, E.
  - apply main_loop_from_execv.
Qed.

(* ================================================================== *)
(** * Dictionaries and the device registry *)
(* ================================================================== *)

Section DictFacts.
Import Dict.

Lemma key_eqb_eq (a b : key) : key_eqb a b = true <-> a = b.
Proof.
  destruct a as [x|], b as [y|]; cbn; split; intros H;
    try discriminate; try reflexivity.
  - apply String.eqb_eq in H. congruence.
  - injection H as ->. apply String.eqb_refl.
Qed.

Lemma key_eqb_refl (a : key) : key_eqb a a = true.
Proof. apply key_eqb_eq. reflexivity. Qed.

(** An item of [d] after [d[k] = v] is the new one or an old one. *)
Lemma in_set {V : Type} (k : key) (v : V) (d : dict V) (a : key) (b : V) :
  In (a, b) (set k v d) -> (a = k /\ b = v) \/ In (a, b) d.
Proof.
  induction d as [|[k' v'] d IH]; cbn [set].
  - intros [H|[]]. injection H as <- <-. left. split; reflexivity.
  - destruct (key_eqb k k') eqn:E.
    + apply key_eqb_eq in E. subst k'. intros [H|H].
      * injection H as <- <-. left. split; reflexivity.
      * right. right. exact H.
    + intros [H|H].
      * right. left. exact H.
      * destruct (IH H) as [L|R]; [left; exact L | right; right; exact R].
Qed.

Lemma keys_set {V : Type} (k : key) (v : V) (d : dict V) (a : key) :
  In a (keys (set k v d)) -> a = k \/ In a (keys d).
Proof.
  unfold keys. intros H. apply in_map_iff in H. destruct H as [[a' b] [E H]].
  cbn in E. subst a'. destruct (in_set _ _ _ _ _ H) as [[-> _]|R].
  - left. reflexivity.
  - right. apply in_map_iff. exists (a, b). split; [reflexivity | exact R].
Qed.

(** The keys of a dictionary stay distinct. *)
Lemma set_nodup {V : Type} (k : key) (v : V) (d : dict V) :
  NoDup (keys d) -> NoDup (keys (set k v d)).
Proof.
  induction d as [|[k' v'] d IH]; cbn [set keys map fst]; intros H.
  - constructor; [intros [] | constructor].
  - destruct (key_eqb k k') eqn:E; [exact H|].
    inversion H as [|? ? Hn Hd]; subst. cbn [map fst]. constructor.
    + intros Hin. destruct (keys_set _ _ _ _ Hin) as [->|Hin'].
      * rewrite key_eqb_refl in E. discriminate.
      * exact (Hn Hin').
    + apply IH, Hd.
Qed.

Lemma get_set_same {V : Type} (k : key) (v : V) (d : dict V) :
  get k (set k v d) = Some v.
Proof.
  induction d as [|[k' v'] d IH]; cbn [set get].
  - rewrite key_eqb_refl. reflexivity.
  - destruct (key_eqb k k') eqn:E; cbn [get]; rewrite E; [reflexivity | exact IH].
Qed.

End DictFacts.

Section ResolverFacts.
Import PyStr Dict.

(** A fact about every item holds of the registry when each pass of the
    loop keeps it. *)
Lemma fold_items {V : Type} (P : key -> V -> Prop)
    (step : dict V * list event -> string * string -> dict V * list event)
    (xs : list (string * string)) (Q : string * string -> Prop) :
  (forall acc kv, Q kv ->
     (forall a b, In (a, b) (fst acc) -> P a b) ->
     forall a b, In (a, b) (fst (step acc kv)) -> P a b) ->
  (forall kv, In kv xs -> Q kv) ->
  forall acc,
    (forall a b, In (a, b) (fst acc) -> P a b) ->
    forall a b, In (a, b) (fst (fold_left step xs acc)) -> P a b.
Proof.
  intros Hstep. induction xs as [|kv xs IH]; intros HQ acc Hacc; [exact Hacc|].
  cbn [fold_left]. apply IH.
  - intros kv' Hin. apply HQ. right. exact Hin.
  - apply Hstep; [apply HQ; left; reflexivity | exact Hacc].
Qed.

Lemma fold_keys_nodup {V : Type}
    (step : dict V * list event -> string * string -> dict V * list event)
    (xs : list (string * string)) :
  (forall acc kv, NoDup (keys (fst acc)) -> NoDup (keys (fst (step acc kv)))) ->
  forall acc, NoDup (keys (fst acc)) -> NoDup (keys (fst (fold_left step xs acc))).
Proof.
  intros Hstep. induction xs as [|kv xs IH]; intros acc H; [exact H|].
  cbn [fold_left]. apply IH, Hstep, H.
Qed.

Lemma get_set {V : Type} (k k' : key) (v : V) (d : dict V) :
  get k (set k' v d) = if key_eqb k k' then Some v else get k d.
Proof.
  induction d as [|[k0 v0] d IH]; cbn [set get]; [reflexivity|].
  destruct (key_eqb k' k0) eqn:E; cbn [get].
  - apply key_eqb_eq in E. subst k0. destruct (key_eqb k k'); reflexivity.
  - rewrite IH. destruct (key_eqb k k0) eqn:E0; [|reflexivity].
    destruct (key_eqb k k') eqn:E1; [|reflexivity].
    apply key_eqb_eq in E0. apply key_eqb_eq in E1. subst k0 k'.
    rewrite key_eqb_refl in E. discriminate.
Qed.

(** A name is in the registry when some pass of the loop puts it there and
    no pass takes a name away. *)
Lemma fold_has {V : Type} (name : key)
    (step : dict V * list event -> string * string -> dict V * list event)
    (xs : list (string * string)) (Q : string * string -> Prop) :
  (forall acc kv, get name (fst acc) <> None -> get name (fst (step acc kv)) <> None) ->
  (forall acc kv, Q kv -> get name (fst (step acc kv)) <> None) ->
  forall acc, (exists kv, In kv xs /\ Q kv) ->
    get name (fst (fold_left step xs acc)) <> None.
Proof.
  intros Hkeep Hput.
  assert (Keep : forall ys acc, get name (fst acc) <> None ->
                   get name (fst (fold_left step ys acc)) <> None).
  { induction ys as [|y ys IH]; intros acc H; [exact H|].
    cbn [fold_left]. apply IH, Hkeep, H. }
  induction xs as [|x xs IH]; intros acc [kv [Hin HQ]]; [destruct Hin|].
  cbn [fold_left]. destruct Hin as [->|Hin].
  - apply Keep, Hput, HQ.
  - apply IH. exists kv. split; assumption.
Qed.

Lemma truthy_opt (o : option string) :
  truthy (py_of_opt o) = true -> exists s, o = Some s /\ s <> "".
Proof.
  destruct o as [s|]; [|discriminate]. cbn. intros H. exists s. split; [reflexivity|].
  intros ->. discriminate H.
Qed.

Lemma load_items (environ : list (string * string)) (name : key) (info : plc_info) :
  In (name, info) (fst (MultiReadWrite.load_plc_config_from_env environ)) ->
  MultiReadWrite.from_type_key environ name info.
Proof.
  unfold MultiReadWrite.load_plc_config_from_env.
  destruct (fold_left (MultiReadWrite.config_step environ) environ ([], [])) as [plcs ev] eqn:F.
  cbn [fst]. change plcs with (fst (plcs, ev)). rewrite <- F.
  apply (fold_items (MultiReadWrite.from_type_key environ) (MultiReadWrite.config_step environ)
           environ (fun kv => In kv environ)); try (intros; assumption).
  - clear. intros [plcs ev] [k value] Hin Hacc a b.
    unfold MultiReadWrite.config_step.
    destruct (startswith "PLC_" (upper k)) eqn:S1; cbn [andb]; [|apply Hacc].
    destruct (endswith "_TYPE" (upper k)) eqn:S2; [|apply Hacc].
    destruct (truthy (py_of_opt (getenv environ _))) eqn:T; cbn [negb fst];
      [|apply Hacc].
    intros H. apply in_set in H. destruct H as [[-> ->]|H]; [|apply Hacc, H].
    destruct (truthy_opt _ T) as [ip [E Hne]].
    exists k, value, ip. rewrite E. cbn [fmt py_of_opt py_str]. repeat split; assumption.
  - cbn. intros a b [].
Qed.

(** Every [PLC_..._TYPE] key with an address puts its device in the registry,
    whatever its type string. *)
Lemma load_has (environ : list (string * string)) (k value ip : string) :
  In (k, value) environ ->
  startswith "PLC_" (upper k) = true -> endswith "_TYPE" (upper k) = true ->
  getenv environ ("PLC_" ++ replace "_TYPE" "" (replace "PLC_" "" (upper k)) ++ "_IP")
  = Some ip ->
  ip <> "" ->
  Dict.get (MultiReadWrite.normalize_plc_name
              (PyStr (replace "_TYPE" "" (replace "PLC_" "" (upper k)))))
           (fst (MultiReadWrite.load_plc_config_from_env environ)) <> None.
Proof.
  intros Hin S1 S2 G Hne. unfold MultiReadWrite.load_plc_config_from_env.
  destruct (fold_left (MultiReadWrite.config_step environ) environ ([], [])) as [plcs ev] eqn:F.
  cbn [fst]. change plcs with (fst (plcs, ev)). rewrite <- F.
  apply (fold_has _ (MultiReadWrite.config_step environ) environ
           (fun kv => upper (fst kv) = upper k)).
  - intros [d e] [k' v'] H. unfold MultiReadWrite.config_step.
    destruct (startswith "PLC_" (upper k') && endswith "_TYPE" (upper k')); [|exact H].
    destruct (negb (truthy (py_of_opt (getenv environ _)))); cbn [fst]; [exact H|].
    rewrite get_set. destruct (key_eqb _ _); [discriminate | exact H].
  - intros [d e] [k' v'] E. cbn [fst] in E. unfold MultiReadWrite.config_step.
    rewrite E, S1, S2, G. cbn [andb py_of_opt truthy].
    destruct (String.eqb ip "") eqn:Ei; [apply String.eqb_eq in Ei; contradiction|].
    cbn [negb fst]. rewrite get_set, key_eqb_refl. discriminate.
  - exists (k, value). split; [exact Hin | reflexivity].
Qed.

Lemma load_keys_nodup (environ : list (string * string)) :
  NoDup (keys (fst (MultiReadWrite.load_plc_config_from_env environ))).
Proof.
  unfold MultiReadWrite.load_plc_config_from_env.
  destruct (fold_left (MultiReadWrite.config_step environ) environ ([], [])) as [plcs ev] eqn:F.
  cbn [fst]. change plcs with (fst (plcs, ev)). rewrite <- F.
  apply fold_keys_nodup; [|constructor].
  intros [d e] [k value] H. unfold MultiReadWrite.config_step.
  destruct (startswith "PLC_" (upper k) && endswith "_TYPE" (upper k)); [|exact H].
  destruct (negb (truthy (py_of_opt (getenv environ _)))); cbn [fst]; [exact H|].
  apply set_nodup, H.
Qed.

End ResolverFacts.

Section DebugResolverFacts.
Import PyStr Dict.

Lemma debug_load_items (environ : list (string * string)) (name : key) (info : plc_info) :
  In (name, info) (fst (DebugMuliRead.load_plc_config_from_env environ)) ->
  DebugMuliRead.from_type_key environ name info.
Proof.
  unfold DebugMuliRead.load_plc_config_from_env.
  destruct (fold_left (DebugMuliRead.config_step environ) environ ([], [])) as [plcs ev] eqn:F.
  cbn [fst]. change plcs with (fst (plcs, ev)). rewrite <- F.
  apply (fold_items (DebugMuliRead.from_type_key environ) (DebugMuliRead.config_step environ)
           environ (fun kv => In kv environ)); try (intros; assumption).
  - clear. intros [plcs ev] [k value] Hin Hacc a b.
    unfold DebugMuliRead.config_step.
    destruct (startswith "PLC_" (upper k)) eqn:S1; cbn [andb]; [|apply Hacc].
    destruct (endswith "_TYPE" (upper k)) eqn:S2; [|apply Hacc].
    destruct (String.eqb (upper (strip value)) "MICROLOGIX") eqn:M.
    + destruct (truthy (py_of_opt (getenv environ _))) eqn:T; cbn [negb fst];
        [|apply Hacc].
      intros H. apply in_set in H. destruct H as [[-> ->]|H]; [|apply Hacc, H].
      destruct (truthy_opt _ T) as [ip [E Hne]].
      exists k, value, ip. cbv zeta. rewrite M, E. cbn [fmt py_of_opt py_str].
      repeat split; assumption.
    + destruct (truthy (py_of_opt (getenv environ _))) eqn:T; cbn [negb fst];
        [|apply Hacc].
      intros H. apply in_set in H. destruct H as [[-> ->]|H]; [|apply Hacc, H].
      destruct (truthy_opt _ T) as [ip [E Hne]].
      exists k, value, ip. cbv zeta. rewrite M, E. cbn [fmt py_of_opt py_str].
      repeat split; assumption.
  - cbn. intros a b [].
Qed.

(** Every [PLC_..._TYPE] key puts its device in this registry when the
    address is found under the name its type string gives. *)
Lemma debug_load_has (environ : list (string * string)) (k value ip : string) :
  let base := strip (replace "_TYPE" "" (replace "PLC_" "" (upper k))) in
  let shown :=
    if String.eqb (upper (strip value)) "MICROLOGIX" then base
    else replace "_PLC" "" base in
  In (k, value) environ ->
  startswith "PLC_" (upper k) = true -> endswith "_TYPE" (upper k) = true ->
  getenv environ ("PLC_" ++ shown ++ "_IP") = Some ip ->
  ip <> "" ->
  Dict.get (Some ("[" ++ shown ++ "]"))
           (fst (DebugMuliRead.load_plc_config_from_env environ)) <> None.
Proof.
  intros base shown Hin S1 S2 G Hne. unfold DebugMuliRead.load_plc_config_from_env.
  destruct (fold_left (DebugMuliRead.config_step environ) environ ([], [])) as [plcs ev] eqn:F.
  cbn [fst]. change plcs with (fst (plcs, ev)). rewrite <- F.
  apply (fold_has _ (DebugMuliRead.config_step environ) environ
           (fun kv => upper (fst kv) = upper k /\
                      upper (strip (snd kv)) = upper (strip value))).
  - intros [d e] [k' v'] H. unfold DebugMuliRead.config_step.
    destruct (startswith "PLC_" (upper k') && endswith "_TYPE" (upper k')); [|exact H].
    destruct (String.eqb (upper (strip v')) "MICROLOGIX");
      (destruct (negb (truthy (py_of_opt (getenv environ _)))); cbn [fst]; [exact H|]);
      rewrite get_set; (destruct (key_eqb _ _); [discriminate | exact H]).
  - intros [d e] [k' v'] [E1 E2]. cbn [fst snd] in E1, E2.
    unfold DebugMuliRead.config_step. rewrite E1, E2, S1, S2. cbn [andb].
    fold base. unfold shown in *.
    destruct (String.eqb (upper (strip value)) "MICROLOGIX");
      rewrite G; cbn [py_of_opt truthy];
      (destruct (String.eqb ip "") eqn:Ei; [apply String.eqb_eq in Ei; contradiction|]);
      cbn [negb fst]; rewrite get_set, key_eqb_refl; discriminate.
  - exists (k, value). split; [exact Hin | split; reflexivity].
Qed.

End DebugResolverFacts.

(** C3, the claim as written fails on the service's resolver.  With the
    key of its own docstring, [PLC_::[P1_NH3_PLC]_TYPE], and a type that is
    not MICROLOGIX, the name keeps its [_PLC] and the address is looked up
    under the unstripped name; the debug reader's resolver, which does strip,
    looks for [PLC_::[P1_NH3]_IP] and finds no device. *)
Lemma resolver_keeps_plc_suffix :
  let environ := [("PLC_::[P1_NH3_PLC]_TYPE", "CompactLogix");
                  ("PLC_::[P1_NH3_PLC]_IP", "192.168.1.10")] in
  fst (MultiReadWrite.load_plc_config_from_env environ)
  = [(Some "[P1_NH3_PLC]", {| info_type := "COMPACTLOGIX"; info_ip := "192.168.1.10" |})] /\
  Dict.get (Some "[P1_NH3]") (fst (MultiReadWrite.load_plc_config_from_env environ)) = None /\
  fst (DebugMuliRead.load_plc_config_from_env environ) = [].
Proof. cbv zeta. repeat split; vm_compute; reflexivity. Qed.

(** C3, amended: in the service's resolver every [PLC_..._TYPE] key with an
    address puts a device in the registry, and every item of the registry
    comes from such a key, under the raw name normalized and with the
    address read from [PLC_<raw name>_IP]: the type string, MICROLOGIX or
    not, only ends up (stripped and upper-cased) in the item.  In the debug
    reader's resolver the type decides the name: [MICROLOGIX] (after [strip]
    and [upper]) keeps the base between brackets, every other type has each
    ["_PLC"] removed from the base first, and the address is read from the
    key of the name so obtained. *)
Theorem resolver_names (environ : list (string * string))
    (name : Dict.key) (info : plc_info) :
  (In (name, info) (fst (MultiReadWrite.load_plc_config_from_env environ)) ->
   MultiReadWrite.from_type_key environ name info) /\
  (MultiReadWrite.from_type_key environ name info ->
   Dict.get name (fst (MultiReadWrite.load_plc_config_from_env environ)) <> None) /\
  (In (name, info) (fst (DebugMuliRead.load_plc_config_from_env environ)) ->
   DebugMuliRead.from_type_key environ name info) /\
  (DebugMuliRead.from_type_key environ name info ->
   Dict.get name (fst (DebugMuliRead.load_plc_config_from_env environ)) <> None).
Proof.
  split; [apply load_items|]. split; [|split; [apply debug_load_items|]].
  - intros [k [value [ip [Hin [S1 [S2 [-> [G [Hne _]]]]]]]]].
    exact (load_has environ k value ip Hin S1 S2 G Hne).
  - intros [k [value [ip [Hin [S1 [S2 [-> [G [Hne _]]]]]]]]].
    exact (debug_load_has environ k value ip Hin S1 S2 G Hne).
Qed.

(** The two resolvers on one environment with a MICROLOGIX and a
    COMPACTLOGIX device. *)
Lemma resolver_names_witness :
  let environ := [("PLC_[LINE1_PLC]_TYPE", "micrologix"); ("PLC_[LINE1_PLC]_IP", "10.0.0.1");
                  ("PLC_[LINE2_PLC]_TYPE", "CompactLogix"); ("PLC_[LINE2]_IP", "10.0.0.2")] in
  let micro := {| info_type := "MICROLOGIX"; info_ip := "10.0.0.1" |} in
  let compact := {| info_type := "COMPACTLOGIX"; info_ip := "10.0.0.2" |} in
  In (Some "[LINE1_PLC]", micro) (fst (MultiReadWrite.load_plc_config_from_env environ)) /\
  MultiReadWrite.from_type_key environ (Some "[LINE1_PLC]") micro /\
  In (Some "[[LINE2]]", compact) (fst (DebugMuliRead.load_plc_config_from_env environ)) /\
  DebugMuliRead.from_type_key environ (Some "[[LINE2]]") compact.
Proof.
  cbv zeta.
  assert (H1 : In (Some "[LINE1_PLC]", {| info_type := "MICROLOGIX"; info_ip := "10.0.0.1" |})
                 (fst (MultiReadWrite.load_plc_config_from_env
                    [("PLC_[LINE1_PLC]_TYPE", "micrologix"); ("PLC_[LINE1_PLC]_IP", "10.0.0.1");
                     ("PLC_[LINE2_PLC]_TYPE", "CompactLogix"); ("PLC_[LINE2]_IP", "10.0.0.2")])))
    by (vm_compute; left; reflexivity).
  assert (H2 : In (Some "[[LINE2]]", {| info_type := "COMPACTLOGIX"; info_ip := "10.0.0.2" |})
                 (fst (DebugMuliRead.load_plc_config_from_env
                    [("PLC_[LINE1_PLC]_TYPE", "micrologix"); ("PLC_[LINE1_PLC]_IP", "10.0.0.1");
                     ("PLC_[LINE2_PLC]_TYPE", "CompactLogix"); ("PLC_[LINE2]_IP", "10.0.0.2")])))
    by (vm_compute; right; left; reflexivity).
  split; [exact H1|]. split; [exact (proj1 (resolver_names _ _ _) H1)|].
  split; [exact H2|]. exact (proj1 (proj2 (proj2 (resolver_names _ _ _))) H2).
Defined.

(* ================================================================== *)
(** * The poll worker *)
(* ================================================================== *)

Section WorkerFacts.
Import PyStr Dict MultiReadWrite.

Lemma read_attempts_app (ev1 ev2 : list event) :
  read_attempts (ev1 ++ ev2) = read_attempts ev1 + read_attempts ev2.
Proof. unfold read_attempts. rewrite filter_app, length_app. reflexivity. Qed.

(** A driver that raises at every attempt is asked [left] more times and
    leaves the placeholders, when every [log] call returns. *)
Lemma read_micro_logix_all_fail lg driver ip tag_list retries attempt left :
  (forall msg, exists u, lg msg = Returns u) ->
  (forall a addrs, exists e, driver a addrs = Raises e) ->
  fst (read_micro_logix_from lg driver ip tag_list retries attempt left)
  = Returns (no_response tag_list) /\
  read_attempts (snd (read_micro_logix_from lg driver ip tag_list retries attempt left))
  = left.
Proof.
  intros L H. revert attempt.
  induction left as [|left IH]; intros attempt; cbn [read_micro_logix_from].
  - split; reflexivity.
  - destruct (H attempt (map tag_name tag_list)) as [e ->].
    destruct (L ("[ERROR][MicroLogix " ++ ip ++ "] " ++
                 attempt_text attempt retries ++ " → " ++ e)) as [u ->].
    specialize (IH (S attempt)).
    destruct (read_micro_logix_from lg driver ip tag_list retries (S attempt) left)
      as [rs ev].
    cbn [fst snd] in *. destruct IH as [-> IH]. split; [reflexivity|].
    unfold read_attempts in *. cbn. rewrite IH. reflexivity.
Qed.

Lemma read_logix_all_fail lg driver ip tag_list m8 retries attempt left :
  (forall msg, exists u, lg msg = Returns u) ->
  (forall a tags, exists e, driver a tags = Raises e) ->
  fst (read_logix_from lg driver ip tag_list m8 retries attempt left)
  = Returns (no_response tag_list) /\
  read_attempts (snd (read_logix_from lg driver ip tag_list m8 retries attempt left))
  = left.
Proof.
  intros L H. revert attempt.
  induction left as [|left IH]; intros attempt; cbn [read_logix_from].
  - split; reflexivity.
  - destruct (H attempt (map tag_name tag_list)) as [e ->].
    destruct (L ("[ERROR][Logix " ++ ip ++ "] " ++
                 attempt_text attempt retries ++ " → " ++ e)) as [u ->].
    specialize (IH (S attempt)).
    destruct (read_logix_from lg driver ip tag_list m8 retries (S attempt) left)
      as [rs ev].
    cbn [fst snd] in *. destruct IH as [-> IH]. split; [reflexivity|].
    unfold read_attempts in *. cbn. rewrite IH. reflexivity.
Qed.

(** A reader whose first attempt raises and whose [log] call then raises:
    the exception of [log] leaves the reader after that one attempt. *)
Lemma read_micro_logix_log_raises lg driver ip tag_list retries e e' :
  driver 0 (map tag_name tag_list) = Raises e ->
  lg ("[ERROR][MicroLogix " ++ ip ++ "] " ++ attempt_text 0 (S retries) ++ " → " ++ e)
  = Raises e' ->
  read_micro_logix lg driver ip tag_list (S retries)
  = (Raises e', [EvSlcRead ip (map tag_name tag_list)]).
Proof.
  intros D L. unfold read_micro_logix. cbn [read_micro_logix_from].
  rewrite D, L. reflexivity.
Qed.

Lemma read_logix_log_raises lg driver ip tag_list m8 retries e e' :
  driver m8 0 (map tag_name tag_list) = Raises e ->
  lg ("[ERROR][Logix " ++ ip ++ "] " ++ attempt_text 0 (S retries) ++ " → " ++ e)
  = Raises e' ->
  read_logix lg driver ip tag_list m8 (S retries)
  = (Raises e', [EvLogixRead ip m8 (map tag_name tag_list)]).
Proof.
  intros D L. unfold read_logix. cbn [read_logix_from].
  rewrite D, L. reflexivity.
Qed.

Lemma ping_attempts run ip : read_attempts (snd (ping run ip)) = 0.
Proof. unfold ping. destruct (run ip); reflexivity. Qed.

(** The worker of a device that answers the ping and whose reads all raise,
    when its [log] calls return. *)
Lemma plc_worker_all_fail io plc_name info tag_list :
  logs_return io ->
  fst (ping (io_ping io) (info_ip info)) = true ->
  (if String.eqb (info_type info) "MICROLOGIX"
   then forall a addrs, exists e, io_slc io a addrs = Raises e
   else forall a tags, exists e,
       io_logix io (String.eqb (info_type info) "MICRO800") a tags = Raises e) ->
  fst (plc_worker io plc_name info tag_list)
  = Returns (map (stamped plc_name PyNone "NO RESPONSE") tag_list) /\
  read_attempts (snd (plc_worker io plc_name info tag_list)) = 3.
Proof.
  intros Hl Hp Hs. unfold plc_worker.
  pose proof (ping_attempts (io_ping io) (info_ip info)) as Pa.
  destruct (ping (io_ping io) (info_ip info)) as [alive evp].
  cbn [fst snd] in *. subst alive. cbn [negb].
  destruct (String.eqb (info_type info) "MICROLOGIX").
  - unfold read_micro_logix.
    destruct (read_micro_logix_all_fail (io_log io) (io_slc io) (info_ip info)
                tag_list 3 0 3 Hl Hs) as [E A].
    destruct (read_micro_logix_from _ _ _ _ _ _ _) as [rs ev]. cbn [fst snd] in *.
    subst rs. split.
    + unfold no_response. rewrite map_map. reflexivity.
    + rewrite read_attempts_app, Pa, A. reflexivity.
  - unfold read_logix.
    destruct (read_logix_all_fail (io_log io)
                (io_logix io (String.eqb (info_type info) "MICRO800"))
                (info_ip info) tag_list
                (String.eqb (info_type info) "MICRO800") 3 0 3 Hl Hs)
      as [E A].
    destruct (read_logix_from _ _ _ _ _ _ _ _) as [rs ev]. cbn [fst snd] in *.
    subst rs. split.
    + unfold no_response. rewrite map_map. reflexivity.
    + rewrite read_attempts_app, Pa, A. reflexivity.
Qed.

(** The worker of a device that answers the ping, whose first read raises
    and whose [log] call for it raises: the worker makes that one attempt
    and the exception of [log] leaves it. *)
Lemma plc_worker_log_raises io plc_name info tag_list e e' :
  fst (ping (io_ping io) (info_ip info)) = true ->
  (if String.eqb (info_type info) "MICROLOGIX"
   then io_slc io 0 (map tag_name tag_list) = Raises e /\
        io_log io ("[ERROR][MicroLogix " ++ info_ip info ++ "] " ++
                   attempt_text 0 3 ++ " → " ++ e) = Raises e'
   else io_logix io (String.eqb (info_type info) "MICRO800") 0 (map tag_name tag_list)
        = Raises e /\
        io_log io ("[ERROR][Logix " ++ info_ip info ++ "] " ++
                   attempt_text 0 3 ++ " → " ++ e) = Raises e') ->
  fst (plc_worker io plc_name info tag_list) = Raises e' /\
  read_attempts (snd (plc_worker io plc_name info tag_list)) = 1.
Proof.
  intros Hp Hs. unfold plc_worker.
  pose proof (ping_attempts (io_ping io) (info_ip info)) as Pa.
  destruct (ping (io_ping io) (info_ip info)) as [alive evp].
  cbn [fst snd] in *. subst alive. cbn [negb].
  destruct (String.eqb (info_type info) "MICROLOGIX"); destruct Hs as [D L].
  - rewrite (read_micro_logix_log_raises _ _ _ _ 2 e e' D L). cbn [fst snd].
    split; [reflexivity|]. rewrite read_attempts_app, Pa. reflexivity.
  - rewrite (read_logix_log_raises _ _ _ _ _ 2 e e' D L). cbn [fst snd].
    split; [reflexivity|]. rewrite read_attempts_app, Pa. reflexivity.
Qed.


(** The probe says no when the command raises or prints no "TTL". *)
Lemma ping_false run ip :
  fst (ping run ip) = false <->
  (exists e, run ip = Raises e) \/
  (exists out, run ip = Returns out /\ contains "TTL" out = false).
Proof.
  unfold ping. destruct (run ip) as [out|e]; cbn [fst]; split.
  - intros H. right. exists out. split; [reflexivity | exact H].
  - intros [[e H]|[out' [H C]]]; [discriminate|]. injection H as <-. exact C.
  - intros _. left. exists e. reflexivity.
  - reflexivity.
Qed.

End WorkerFacts.

(** The placeholder a failed device gets reads "NO RESPONSE", with a
    blank: no result carries "NO_RESPONSE". *)
Remark no_response_text :
  map (fun r => status (got r))
      (MultiReadWrite.appended
         (fst (MultiReadWrite.plc_worker Scenario.faulty (Some "[A]") Scenario.infoA
                 [Scenario.tagA1; Scenario.tagA2])))
  = ["NO RESPONSE"; "NO RESPONSE"].
Proof. reflexivity. Qed.

(** C4, the code fails the claim.  Device A answers the ping and its reads
    raise; the worker logs to a standard output that cannot encode the
    error line of the reader.  [log] raises at the first failed attempt,
    inside the [except] block: the reader makes 1 attempt, not 3, builds
    no placeholder, and the exception leaves [plc_worker]. *)
Theorem worker_dies_when_log_raises :
  let r := MultiReadWrite.plc_worker Scenario.garbled (Some "[A]") Scenario.infoA
             [Scenario.tagA1; Scenario.tagA2] in
  fst (MultiReadWrite.ping (MultiReadWrite.io_ping Scenario.garbled) "10.0.0.1") = true /\
  (forall m a tags, MultiReadWrite.io_logix Scenario.garbled m a tags
                    = Raises "connection refused") /\
  fst r = Raises "'charmap' codec can't encode character '→'" /\
  MultiReadWrite.read_attempts (snd r) = 1 /\
  MultiReadWrite.appended (fst r) = [].
Proof.
  cbv zeta. split; [reflexivity|]. split; [intros; reflexivity|].
  destruct (plc_worker_log_raises Scenario.garbled (Some "[A]") Scenario.infoA
              [Scenario.tagA1; Scenario.tagA2] "connection refused"
              "'charmap' codec can't encode character '→'" eq_refl
              (conj eq_refl eq_refl)) as [R A].
  rewrite R. split; [reflexivity|]. split; [exact A | reflexivity].
Qed.

(** X18: for a device that answers the ping and whose protocol read (the
    one of its family) raises at every attempt, when the [log] calls of its
    worker return: the worker makes exactly 3 read attempts, returns normally, and
    yields for every tag of the device, in catalog order, a result with
    value [None] and status "NO RESPONSE"; and each reader, called with
    [retries], makes exactly [retries] attempts before it returns these
    placeholders. *)
Theorem worker_no_response (io : MultiReadWrite.device_io) (plc_name : Dict.key)
    (info : plc_info) (tag_list : list tag_info) :
  MultiReadWrite.logs_return io ->
  fst (MultiReadWrite.ping (MultiReadWrite.io_ping io) (info_ip info)) = true ->
  (if String.eqb (info_type info) "MICROLOGIX"
   then forall a addrs, exists e, MultiReadWrite.io_slc io a addrs = Raises e
   else forall a tags, exists e,
       MultiReadWrite.io_logix io (String.eqb (info_type info) "MICRO800") a tags
       = Raises e) ->
  (fst (MultiReadWrite.plc_worker io plc_name info tag_list)
   = Returns (map (MultiReadWrite.stamped plc_name PyNone "NO RESPONSE") tag_list) /\
   MultiReadWrite.read_attempts
     (snd (MultiReadWrite.plc_worker io plc_name info tag_list)) = 3) /\
  (forall driver ip retries,
     (forall a addrs, exists e, driver a addrs = Raises e) ->
     let r := MultiReadWrite.read_micro_logix (MultiReadWrite.io_log io) driver ip
                tag_list retries in
     fst r = Returns (MultiReadWrite.no_response tag_list) /\
     MultiReadWrite.read_attempts (snd r) = retries) /\
  (forall driver ip m retries,
     (forall a tags, exists e, driver m a tags = Raises e) ->
     let r := MultiReadWrite.read_logix (MultiReadWrite.io_log io) driver ip
                tag_list m retries in
     fst r = Returns (MultiReadWrite.no_response tag_list) /\
     MultiReadWrite.read_attempts (snd r) = retries).
Proof.
  intros Hl Hp Hs.
  split; [exact (plc_worker_all_fail io plc_name info tag_list Hl Hp Hs)|]. split.
  - intros driver ip retries H. apply read_micro_logix_all_fail; [exact Hl | exact H].
  - intros driver ip m retries H. apply read_logix_all_fail; [exact Hl | exact H].
Qed.

(** The statement on the faulty device of the scenario. *)
Lemma worker_no_response_witness :
  fst (MultiReadWrite.plc_worker Scenario.faulty (Some "[A]") Scenario.infoA
         [Scenario.tagA1; Scenario.tagA2])
  = Returns
      [MultiReadWrite.stamped (Some "[A]") PyNone "NO RESPONSE" Scenario.tagA1;
       MultiReadWrite.stamped (Some "[A]") PyNone "NO RESPONSE" Scenario.tagA2] /\
  MultiReadWrite.read_attempts
    (snd (MultiReadWrite.plc_worker Scenario.faulty (Some "[A]") Scenario.infoA
            [Scenario.tagA1; Scenario.tagA2])) = 3.
Proof.
  refine (proj1 (worker_no_response Scenario.faulty (Some "[A]") Scenario.infoA
                   [Scenario.tagA1; Scenario.tagA2] _ _ _)).
  - intros msg. exists tt. reflexivity.
  - reflexivity.
  - cbn. intros a tags. exists "connection refused". reflexivity.
Defined.



(* ================================================================== *)
(** * The bucket and its order *)
(* ================================================================== *)

Section BucketFacts.
Import Dict MultiReadWrite.

Lemma concat_update_nth {A : Type} (i : nat) (x : A) (q : list A)
    (queues : list (list A)) :
  nth_error queues i = Some (x :: q) ->
  Permutation (concat queues) (x :: concat (update_nth i q queues)).
Proof.
  revert i. induction queues as [|y queues IH]; intros i H.
  - destruct i; discriminate H.
  - destruct i as [|i]; cbn in H.
    + injection H as ->. reflexivity.
    + cbn [update_nth concat]. specialize (IH i H).
      rewrite IH. symmetry. apply Permutation_middle.
Qed.

(** Whatever the schedule, the bucket after the join holds what the workers
    appended, each item once. *)
Lemma run_schedule_perm {A : Type} (schedule : list nat) (queues : list (list A)) :
  Permutation (run_schedule schedule queues) (concat queues).
Proof.
  revert queues. induction schedule as [|i schedule IH]; intros queues;
    cbn [run_schedule]; [reflexivity|].
  destruct (nth_error queues i) as [[|x q]|] eqn:E; try apply IH.
  rewrite (concat_update_nth i x q queues E). constructor. apply IH.
Qed.

Lemma insert_by_index_perm (r : result) (l : list result) :
  Permutation (insert_by_index r l) (r :: l).
Proof.
  induction l as [|r' l IH]; cbn [insert_by_index]; [reflexivity|].
  destruct (index_of r <=? index_of r')%Z; [reflexivity|].
  rewrite IH. apply perm_swap.
Qed.

Lemma sorted_by_index_perm (l : list result) :
  Permutation (sorted_by_index l) l.
Proof.
  induction l as [|r l IH]; [reflexivity|].
  cbn [sorted_by_index fold_right]. rewrite insert_by_index_perm.
  constructor. exact IH.
Qed.

Lemma insert_by_index_hd (a r : result) (l : list result) :
  index_le a r -> HdRel index_le a l -> HdRel index_le a (insert_by_index r l).
Proof.
  intros Har H. destruct l as [|r' l]; cbn [insert_by_index].
  - constructor. exact Har.
  - destruct (index_of r <=? index_of r')%Z; constructor; [exact Har|].
    inversion H; assumption.
Qed.

Lemma insert_by_index_sorted (r : result) (l : list result) :
  Sorted index_le l -> Sorted index_le (insert_by_index r l).
Proof.
  induction 1 as [|r' l Hs IH Hh]; cbn [insert_by_index].
  - repeat constructor.
  - destruct (Z.leb_spec (index_of r) (index_of r')) as [L|G].
    + constructor; [constructor; assumption | constructor; exact L].
    + constructor; [exact IH|].
      apply insert_by_index_hd; [unfold index_le; lia | exact Hh].
Qed.

Lemma sorted_by_index_sorted (l : list result) :
  Sorted index_le (sorted_by_index l).
Proof.
  induction l as [|r l IH]; [constructor|].
  cbn [sorted_by_index fold_right]. apply insert_by_index_sorted, IH.
Qed.

(** A sorted list of results is a non-decreasing sequence of indices. *)
Lemma sorted_indices (l : list result) :
  Sorted index_le l -> Sorted Z.le (map index_of l).
Proof.
  induction 1 as [|r l Hs IH Hh]; cbn [map]; constructor; [exact IH|].
  destruct Hh; cbn [map]; constructor. assumption.
Qed.

Lemma sorted_app_l {A : Type} (R : A -> A -> Prop) (l1 l2 : list A) :
  Sorted R (l1 ++ l2) -> Sorted R l1.
Proof.
  induction l1 as [|a l1 IH]; cbn [app]; intros H; [constructor|].
  inversion H as [|? ? Hs Hh]; subst. constructor; [apply IH, Hs|].
  destruct l1; [constructor|]. inversion Hh; subst. constructor. assumption.
Qed.

(** The sort is stable: results with one index keep their order. *)
Lemma insert_by_index_stable (k : Z) (r : result) (l : list result) :
  Sorted index_le l ->
  filter (fun x => (index_of x =? k)%Z) (insert_by_index r l) =
  filter (fun x => (index_of x =? k)%Z) (r :: l).
Proof.
  induction 1 as [|r' l Hs IH Hh]; [reflexivity|].
  cbn [insert_by_index].
  destruct (Z.leb_spec (index_of r) (index_of r')) as [L|G]; [reflexivity|].
  cbn [filter] in *. rewrite IH.
  destruct (Z.eqb_spec (index_of r) k), (Z.eqb_spec (index_of r') k);
    try reflexivity; lia.
Qed.

Lemma sorted_by_index_stable (k : Z) (l : list result) :
  filter (fun x => (index_of x =? k)%Z) (sorted_by_index l) =
  filter (fun x => (index_of x =? k)%Z) l.
Proof.
  induction l as [|r l IH]; [reflexivity|].
  cbn [sorted_by_index fold_right].
  rewrite insert_by_index_stable by apply sorted_by_index_sorted.
  cbn [filter]. fold (sorted_by_index l). rewrite IH. reflexivity.
Qed.

Lemma filter_perm {A : Type} (f : A -> bool) (l1 l2 : list A) :
  Permutation l1 l2 -> Permutation (filter f l1) (filter f l2).
Proof.
  induction 1 as [|x l1 l2 H IH|x y l|l1 l2 l3 H1 IH1 H2 IH2]; cbn [filter].
  - reflexivity.
  - destruct (f x); [constructor|]; exact IH.
  - destruct (f x), (f y); try reflexivity. apply perm_swap.
  - etransitivity; eassumption.
Qed.

End BucketFacts.

(* ================================================================== *)
(** * One result per tag *)
(* ================================================================== *)

Section TagCountFacts.
Import Dict MultiReadWrite.

Lemma map_snd_combine {A B : Type} (l1 : list A) (l2 : list B) :
  List.length l2 <= List.length l1 -> map snd (combine l1 l2) = l2.
Proof.
  revert l2. induction l1 as [|a l1 IH]; intros [|b l2] H; cbn in *;
    try reflexivity; [lia|].
  f_equal. apply IH. lia.
Qed.

(** A reader that returns, returns the tags it was given, in order, when
    the driver keeps its contract. *)
Lemma read_micro_logix_tags lg driver ip tag_list retries attempt left :
  (forall a resp, driver a (map tag_name tag_list) = Returns resp ->
     List.length tag_list <=
     List.length (match resp with SlcList l => l | SlcOne t => [t] end)) ->
  forall rs,
    fst (read_micro_logix_from lg driver ip tag_list retries attempt left) = Returns rs ->
    map tag rs = tag_list.
Proof.
  intros H. revert attempt.
  induction left as [|left IH]; intros attempt rs; cbn [read_micro_logix_from].
  - cbn [fst]. intros E. injection E as <-.
    unfold no_response. rewrite map_map. cbn. apply map_id.
  - destruct (driver attempt (map tag_name tag_list)) as [resp|e] eqn:E.
    + cbn [fst]. intros E'. injection E' as <-. rewrite map_map.
      rewrite (map_ext _ snd) by (intros [r t]; reflexivity).
      apply map_snd_combine, (H attempt resp E).
    + destruct (lg _); [|discriminate].
      specialize (IH (S attempt) rs).
      destruct (read_micro_logix_from lg driver ip tag_list retries (S attempt) left).
      exact IH.
Qed.

Lemma read_logix_tags lg driver ip tag_list m8 retries attempt left :
  (forall a rs, driver a (map tag_name tag_list) = Returns rs ->
     List.length tag_list <= List.length rs) ->
  forall rs,
    fst (read_logix_from lg driver ip tag_list m8 retries attempt left) = Returns rs ->
    map tag rs = tag_list.
Proof.
  intros H. revert attempt.
  induction left as [|left IH]; intros attempt rs; cbn [read_logix_from].
  - cbn [fst]. intros E. injection E as <-.
    unfold no_response. rewrite map_map. cbn. apply map_id.
  - destruct (driver attempt (map tag_name tag_list)) as [resp|e] eqn:E.
    + cbn [fst]. intros E'. injection E' as <-. rewrite map_map.
      rewrite (map_ext _ snd) by (intros [r t]; reflexivity).
      apply map_snd_combine, (H attempt resp E).
    + destruct (lg _); [|discriminate].
      specialize (IH (S attempt) rs).
      destruct (read_logix_from lg driver ip tag_list m8 retries (S attempt) left).
      exact IH.
Qed.

(** A reader returns when its [log] calls do. *)
Lemma read_micro_logix_returns lg driver ip tag_list retries attempt left :
  (forall msg, exists u, lg msg = Returns u) ->
  exists rs,
    fst (read_micro_logix_from lg driver ip tag_list retries attempt left) = Returns rs.
Proof.
  intros L. revert attempt.
  induction left as [|left IH]; intros attempt; cbn [read_micro_logix_from].
  - eexists. reflexivity.
  - destruct (driver attempt (map tag_name tag_list)) as [resp|e].
    + eexists. reflexivity.
    + destruct (L ("[ERROR][MicroLogix " ++ ip ++ "] " ++
                   attempt_text attempt retries ++ " → " ++ e)) as [u ->].
      specialize (IH (S attempt)).
      destruct (read_micro_logix_from lg driver ip tag_list retries (S attempt) left).
      exact IH.
Qed.

Lemma read_logix_returns lg driver ip tag_list m8 retries attempt left :
  (forall msg, exists u, lg msg = Returns u) ->
  exists rs,
    fst (read_logix_from lg driver ip tag_list m8 retries attempt left) = Returns rs.
Proof.
  intros L. revert attempt.
  induction left as [|left IH]; intros attempt; cbn [read_logix_from].
  - eexists. reflexivity.
  - destruct (driver attempt (map tag_name tag_list)) as [resp|e].
    + eexists. reflexivity.
    + destruct (L ("[ERROR][Logix " ++ ip ++ "] " ++
                   attempt_text attempt retries ++ " → " ++ e)) as [u ->].
      specialize (IH (S attempt)).
      destruct (read_logix_from lg driver ip tag_list m8 retries (S attempt) left).
      exact IH.
Qed.

(** A worker that returns appended one result per tag of its list, in
    order, each under the device's name: offline, failed or read. *)
Lemma plc_worker_tags io plc_name info tag_list :
  (fst (ping (io_ping io) (info_ip info)) = true ->
   answers_per_tag io info tag_list) ->
  forall rs,
    fst (plc_worker io plc_name info tag_list) = Returns rs ->
    map tag_of rs = tag_list /\ Forall (fun r => plc r = plc_name) rs.
Proof.
  intros H rs. unfold plc_worker.
  destruct (ping (io_ping io) (info_ip info)) as [alive evp]. cbn [fst] in H.
  destruct alive; cbn [negb].
  - specialize (H eq_refl). unfold answers_per_tag in H.
    destruct (String.eqb (info_type info) "MICROLOGIX").
    + pose proof (read_micro_logix_tags (io_log io) (io_slc io) (info_ip info)
                    tag_list 3 0 3 H) as T.
      unfold read_micro_logix.
      destruct (read_micro_logix_from _ _ _ _ _ _ _) as [[l|e] ev]; cbn [fst] in *;
        [|discriminate].
      intros E. injection E as <-. split.
      * rewrite map_map. exact (T l eq_refl).
      * apply Forall_forall. intros r Hin. apply in_map_iff in Hin.
        destruct Hin as [x [<- _]]. reflexivity.
    + pose proof (read_logix_tags (io_log io)
                    (io_logix io (String.eqb (info_type info) "MICRO800"))
                    (info_ip info) tag_list
                    (String.eqb (info_type info) "MICRO800") 3 0 3 H) as T.
      unfold read_logix.
      destruct (read_logix_from _ _ _ _ _ _ _ _) as [[l|e] ev]; cbn [fst] in *;
        [|discriminate].
      intros E. injection E as <-. split.
      * rewrite map_map. exact (T l eq_refl).
      * apply Forall_forall. intros r Hin. apply in_map_iff in Hin.
        destruct Hin as [x [<- _]]. reflexivity.
  - cbn [fst]. intros E. injection E as <-. split.
    + rewrite map_map. cbn. apply map_id.
    + apply Forall_forall. intros r Hin. apply in_map_iff in Hin.
      destruct Hin as [x [<- _]]. reflexivity.
Qed.

(** A worker returns when its [log] calls do. *)
Lemma plc_worker_returns io plc_name info tag_list :
  logs_return io ->
  exists rs, fst (plc_worker io plc_name info tag_list) = Returns rs.
Proof.
  intros L. unfold plc_worker.
  destruct (ping (io_ping io) (info_ip info)) as [alive evp].
  destruct alive; cbn [negb]; [|eexists; reflexivity].
  destruct (String.eqb (info_type info) "MICROLOGIX").
  - destruct (read_micro_logix_returns (io_log io) (io_slc io) (info_ip info)
                tag_list 3 0 3 L) as [rs E].
    unfold read_micro_logix.
    destruct (read_micro_logix_from _ _ _ _ _ _ _) as [o ev]. cbn [fst] in *.
    subst o. eexists. reflexivity.
  - destruct (read_logix_returns (io_log io)
                (io_logix io (String.eqb (info_type info) "MICRO800"))
                (info_ip info) tag_list
                (String.eqb (info_type info) "MICRO800") 3 0 3 L) as [rs E].
    unfold read_logix.
    destruct (read_logix_from _ _ _ _ _ _ _ _) as [o ev]. cbn [fst] in *.
    subst o. eexists. reflexivity.
Qed.

(** What a worker has appended when its thread ends: the results of all
    its tags, or nothing when an exception ended it. *)
Lemma plc_worker_appended io plc_name info tag_list :
  (fst (ping (io_ping io) (info_ip info)) = true ->
   answers_per_tag io info tag_list) ->
  let got := appended (fst (plc_worker io plc_name info tag_list)) in
  Forall (fun r => plc r = plc_name) got /\
  List.length got <= List.length tag_list /\
  (logs_return io -> map tag_of got = tag_list).
Proof.
  intros H. cbv zeta.
  pose proof (plc_worker_tags io plc_name info tag_list H) as T.
  pose proof (plc_worker_returns io plc_name info tag_list) as R.
  destruct (fst (plc_worker io plc_name info tag_list)) as [rs|e]; cbn [appended].
  - destruct (T rs eq_refl) as [Tg Nm]. split; [exact Nm|]. split.
    + rewrite <- (length_map tag_of), Tg. lia.
    + intros _. exact Tg.
  - split; [constructor|]. split; [cbn; lia|].
    intros L. destruct (R L) as [rs E]. discriminate E.
Qed.

Lemma all_answer_tail device name info plcs tag_map :
  all_answer device ((name, info) :: plcs) tag_map -> all_answer device plcs tag_map.
Proof. intros H n i tl Hin. apply (H n i tl). right. exact Hin. Qed.

Lemma all_logged_tail device name info plcs :
  all_logged device ((name, info) :: plcs) -> all_logged device plcs.
Proof. intros H n i Hin. apply (H n i). right. exact Hin. Qed.

(** The bucket never holds more results than the catalog has tags. *)
Lemma spawn_length_le device tag_map plcs :
  all_answer device plcs tag_map ->
  List.length (concat (fst (spawn device tag_map plcs))) <= catalog_size plcs tag_map.
Proof.
  induction plcs as [|[name info] plcs IH]; intros H; [reflexivity|].
  cbn [spawn catalog_size]. specialize (IH (all_answer_tail _ _ _ _ _ H)).
  destruct (spawn device tag_map plcs) as [queues ev]. cbn [fst] in IH.
  destruct (Dict.get name tag_map) as [tl|] eqn:G; [|exact IH].
  destruct (plc_worker_appended (device name) name info tl) as [_ [Le _]].
  { apply (H name info tl); [left; reflexivity | exact G]. }
  destruct (plc_worker (device name) name info tl) as [o evw].
  cbn [fst concat] in *. rewrite length_app. lia.
Qed.

Lemma spawn_length device tag_map plcs :
  all_answer device plcs tag_map -> all_logged device plcs ->
  List.length (concat (fst (spawn device tag_map plcs))) = catalog_size plcs tag_map.
Proof.
  induction plcs as [|[name info] plcs IH]; intros H L; [reflexivity|].
  cbn [spawn catalog_size].
  specialize (IH (all_answer_tail _ _ _ _ _ H) (all_logged_tail _ _ _ _ L)).
  destruct (spawn device tag_map plcs) as [queues ev]. cbn [fst] in IH.
  destruct (Dict.get name tag_map) as [tl|] eqn:G; [|exact IH].
  destruct (plc_worker_appended (device name) name info tl) as [_ [_ T]].
  { apply (H name info tl); [left; reflexivity | exact G]. }
  specialize (T (L name info (or_introl eq_refl))).
  destruct (plc_worker (device name) name info tl) as [o evw].
  cbn [fst concat] in *. rewrite length_app, IH.
  rewrite <- T, length_map. reflexivity.
Qed.

(** The results a pass collects carry names of the registry. *)
Lemma spawn_names device tag_map plcs :
  all_answer device plcs tag_map ->
  Forall (fun r => In (plc r) (keys plcs)) (concat (fst (spawn device tag_map plcs))).
Proof.
  induction plcs as [|[name info] plcs IH]; intros H; [constructor|].
  cbn [spawn]. specialize (IH (all_answer_tail _ _ _ _ _ H)).
  destruct (spawn device tag_map plcs) as [queues ev]. cbn [fst] in IH.
  assert (IH' : Forall (fun r => In (plc r) (keys ((name, info) :: plcs))) (concat queues)).
  { eapply Forall_impl; [|exact IH]. intros r Hr. right. exact Hr. }
  destruct (Dict.get name tag_map) as [tl|] eqn:G; [|exact IH'].
  destruct (plc_worker_appended (device name) name info tl) as [N _].
  { apply (H name info tl); [left; reflexivity | exact G]. }
  destruct (plc_worker (device name) name info tl) as [o evw].
  cbn [fst concat] in *. apply (proj2 (Forall_app _ _ _)). split; [|exact IH'].
  eapply Forall_impl; [|exact N]. intros r ->. left. reflexivity.
Qed.

Lemma filter_none {A : Type} (f : A -> bool) (l : list A) :
  Forall (fun x => f x = false) l -> filter f l = [].
Proof.
  induction 1 as [|x l Hx _ IH]; [reflexivity|]. cbn [filter]. rewrite Hx. exact IH.
Qed.

Lemma filter_all {A : Type} (f : A -> bool) (l : list A) :
  Forall (fun x => f x = true) l -> filter f l = l.
Proof.
  induction 1 as [|x l Hx _ IH]; [reflexivity|]. cbn [filter]. rewrite Hx, IH. reflexivity.
Qed.

(** Among what the workers append, the results of one device are its
    catalog tags, one result each, in catalog order, when the [log] calls
    of its worker return. *)
Lemma spawn_device device tag_map plcs name info tag_list :
  all_answer device plcs tag_map -> NoDup (keys plcs) ->
  In (name, info) plcs -> Dict.get name tag_map = Some tag_list ->
  logs_return (device name) ->
  map tag_of (filter (fun r => key_eqb (plc r) name)
                     (concat (fst (spawn device tag_map plcs)))) = tag_list.
Proof.
  induction plcs as [|[n0 i0] plcs IH]; intros H Hnd Hin G L; [destruct Hin|].
  cbn [keys map fst] in Hnd. inversion Hnd as [|? ? Hn0 Hnd']; subst.
  pose proof (spawn_names device tag_map plcs (all_answer_tail _ _ _ _ _ H)) as Nm.
  cbn [spawn]. specialize (IH (all_answer_tail _ _ _ _ _ H) Hnd').
  destruct (spawn device tag_map plcs) as [queues ev]. cbn [fst] in *.
  destruct Hin as [E|Hin].
  - injection E as -> ->. rewrite G.
    destruct (plc_worker_appended (device name) name info tag_list) as [N [_ T]].
    { apply (H name info tag_list); [left; reflexivity | exact G]. }
    specialize (T L).
    destruct (plc_worker (device name) name info tag_list) as [o evw].
    cbn [fst concat] in *. rewrite filter_app, filter_all, filter_none.
    + rewrite app_nil_r. exact T.
    + eapply Forall_impl; [|exact Nm]. cbn. intros r Hr.
      destruct (key_eqb (plc r) name) eqn:K; [|reflexivity].
      apply key_eqb_eq in K. rewrite K in Hr. contradiction.
    + eapply Forall_impl; [|exact N]. cbn. intros r ->. apply key_eqb_refl.
  - assert (Hne : n0 <> name).
    { intros ->. apply Hn0. apply in_map_iff. exists (name, info). split; auto. }
    destruct (Dict.get n0 tag_map) as [tl0|] eqn:G0; [|apply IH; assumption].
    destruct (plc_worker_appended (device n0) n0 i0 tl0) as [N _].
    { apply (H n0 i0 tl0); [left; reflexivity | exact G0]. }
    destruct (plc_worker (device n0) n0 i0 tl0) as [o evw].
    cbn [fst concat] in *. rewrite filter_app, filter_none.
    + apply IH; assumption.
    + eapply Forall_impl; [|exact N]. cbn. intros r ->.
      destruct (key_eqb n0 name) eqn:K; [|reflexivity].
      apply key_eqb_eq in K. contradiction.
Qed.

End TagCountFacts.

(* ================================================================== *)
(** * The two sinks *)
(* ================================================================== *)

Section SinkFacts.
Import Dict MultiReadWrite.

(** The write loop goes through a prefix of the results: all of them when
    no [INSERT] raises. *)
Lemma write_results_prefix ex now k rs ws conn :
  exists written rest,
    rs = (written ++ rest)%list /\
    fst (fst (fst (write_results ex now k rs ws conn))) = excel_writes now written ws /\
    executed (snd (fst (write_results ex now k rs ws conn)))
    = map (sql_row now) written /\
    (snd (write_results ex now k rs ws conn) = None ->
     rest = [] /\
     snd (fst (fst (write_results ex now k rs ws conn)))
     = (conn ++ map (sql_row now) rs)%list).
Proof.
  revert k ws conn. induction rs as [|r rs IH]; intros k ws conn.
  - exists [], []. cbn. rewrite app_nil_r. repeat split; reflexivity.
  - cbn [write_results]. destruct (ex k (sql_row now r)) as [u|e].
    + destruct (IH (S k) (excel_write now r ws) (conn ++ [sql_row now r])%list)
        as [written [rest [E [Hws [Hex Hok]]]]].
      destruct (write_results ex now (S k) rs (excel_write now r ws)
                  (conn ++ [sql_row now r])%list) as [[[ws' conn'] ev] fault].
      cbn [fst snd] in *. exists (r :: written), rest. subst rs.
      split; [reflexivity|]. split; [exact Hws|]. split.
      * cbn [executed map]. rewrite Hex. reflexivity.
      * intros F. destruct (Hok F) as [-> ->]. split; [reflexivity|].
        rewrite <- app_assoc. reflexivity.
    + exists [r], rs. cbn [fst snd]. split; [reflexivity|].
      split; [reflexivity|]. split; [reflexivity|]. discriminate.
Qed.

(** When the loop ends without a fault every [INSERT] returned. *)
Lemma write_results_ok ex now k rs ws conn :
  snd (write_results ex now k rs ws conn) = None ->
  forall i r, nth_error rs i = Some r ->
    exists u, ex (k + i) (sql_row now r) = Returns u.
Proof.
  revert k ws conn. induction rs as [|r0 rs IH]; intros k ws conn F i r Hi.
  - destruct i; discriminate Hi.
  - cbn [write_results] in F. destruct (ex k (sql_row now r0)) as [u|e] eqn:E.
    + specialize (IH (S k) (excel_write now r0 ws) (conn ++ [sql_row now r0])%list).
      destruct (write_results ex now (S k) rs (excel_write now r0 ws)
                  (conn ++ [sql_row now r0])%list) as [[[ws' conn'] ev] fault].
      cbn [snd] in *. destruct i as [|i]; cbn in Hi.
      * injection Hi as <-. rewrite Nat.add_0_r. exists u. exact E.
      * replace (k + S i) with (S k + i) by lia. apply (IH F i r Hi).
    + discriminate F.
Qed.

Lemma write_results_no_commit ex now k rs ws conn :
  ~ In EvCommit (snd (fst (write_results ex now k rs ws conn))).
Proof.
  intros Hin. pose proof (write_results_no_execv ex now k rs ws conn) as H.
  rewrite Forall_forall in H. destruct (H _ Hin) as [_ C]. congruence.
Qed.

Lemma sql_row_index now (l : list result) :
  map TagIndex (map (sql_row now) l) = map index_of l.
Proof. rewrite map_map. reflexivity. Qed.

End SinkFacts.

Section CycleFacts.
Import Dict MultiReadWrite.

Variable environ : list (string * string).
Variable plcs : dict plc_info.
Variable tag_map : dict (list tag_info).
Variable LOOP_INTERVAL : Z.

Ltac splits := repeat match goal with |- _ /\ _ => split end.

Ltac close :=
  try assumption; try (intros; reflexivity); try (intros; discriminate);
  try (left; reflexivity); try (right; split; reflexivity); try congruence.

Ltac open_cycle w st :=
  unfold cycle;
  let R := fresh "R" in
  destruct (restart_due (now_check w) (last_restart_date st)) eqn:R;
  [ destruct (os_execv w)
  | unfold get_sql_connection;
    let C := fresh "C" in
    destruct (pyodbc_connect w (conn_str environ)) eqn:C ].

(** What a pass leaves in the two sinks and in the trace. *)
Lemma cycle_sinks (w : world) (st : state) :
  let all := merged plcs tag_map w in
  let r := cycle environ plcs tag_map LOOP_INTERVAL w st in
  exists written rest,
    all = (written ++ rest)%list /\
    ws (state_of (fst r)) = excel_writes (now_scan w) written (ws st) /\
    executed (snd r) = map (sql_row (now_scan w)) written /\
    (is_looping (fst r) = true -> rest = []) /\
    (In EvCommit (snd r) -> rest = []) /\
    (db (state_of (fst r)) = db st \/
     rest = [] /\
     db (state_of (fst r)) = (db st ++ map (sql_row (now_scan w)) all)%list) /\
    (is_looping (fst r) = true ->
     db (state_of (fst r)) = (db st ++ map (sql_row (now_scan w)) all)%list) /\
    (snd (write_results (cursor_execute w) (now_scan w) 0 all (ws st) []) <> None ->
     db (state_of (fst r)) = db st).
Proof.
  cbv zeta.
  assert (P : Forall quiet
                (purge_old_logs (now_purge w) (os_listdir w) (os_remove w) 7 ++
                 [EvLog "========== NEW SCAN =========="; EvConnect (conn_str environ)])).
  { apply (proj2 (Forall_app _ _ _)). split.
    - apply purge_no_execv.
    - repeat constructor. }
  pose proof (spawn_no_execv (device w) tag_map plcs) as S.
  open_cycle w st.
  - exists [], (merged plcs tag_map w). cbn [fst snd state_of is_looping app].
    splits; try reflexivity; try discriminate.
    + intros [H|[H|[H|[]]]]; discriminate H.
    + left; reflexivity.
  - exists [], (merged plcs tag_map w). cbn [fst snd state_of is_looping app].
    splits; try reflexivity; try discriminate.
    + intros [H|[H|[H|[]]]]; discriminate H.
    + left; reflexivity.
  - destruct (write_results_prefix (cursor_execute w) (now_scan w) 0
                (merged plcs tag_map w) (ws st) [])
      as [written [rest [E [Hws [Hex Hok]]]]].
    pose proof (write_results_no_commit (cursor_execute w) (now_scan w) 0
                  (merged plcs tag_map w) (ws st) []) as Nc.
    destruct (write_results (cursor_execute w) (now_scan w) 0
                (merged plcs tag_map w) (ws st) []) as [[[ws' conn] evw] fault].
    cbn [fst snd] in *.
    assert (Ex2 : executed
                    (((purge_old_logs (now_purge w) (os_listdir w) (os_remove w) 7 ++
                       [EvLog "========== NEW SCAN =========="; EvConnect (conn_str environ)]) ++
                      snd (spawn (device w) tag_map plcs)) ++ evw)
                  = map (sql_row (now_scan w)) written).
    { rewrite (executed_app _ evw), (executed_app _ (snd _)).
      rewrite (executed_none _ P), (executed_none _ S). exact Hex. }
    assert (Nc2 : ~ In EvCommit
                    (((purge_old_logs (now_purge w) (os_listdir w) (os_remove w) 7 ++
                       [EvLog "========== NEW SCAN =========="; EvConnect (conn_str environ)]) ++
                      snd (spawn (device w) tag_map plcs)) ++ evw)).
    { intros Hin. apply in_app_or in Hin. destruct Hin as [Hin|Hin]; [|exact (Nc Hin)].
      apply in_app_or in Hin. destruct Hin as [Hin|Hin].
      - exact (quiet_no_commit _ P Hin).
      - exact (quiet_no_commit _ S Hin). }
    exists written, rest. split; [exact E|].
    destruct fault as [e|].
    + cbn [fst snd state_of with_ws ws db is_looping].
      splits; close.
    + destruct (Hok eq_refl) as [-> Hconn]. cbn [app] in Hconn. subst conn.
      destruct (conn_commit w).
      * destruct (wb_save w); cbn [fst snd state_of with_ws ws db saved is_looping];
          rewrite executed_app, Ex2; cbn [executed]; rewrite app_nil_r;
          splits; close.
      * cbn [fst snd state_of with_ws ws db is_looping].
        rewrite executed_app, Ex2. cbn [executed]. rewrite app_nil_r.
        splits; close.
  - exists [], (merged plcs tag_map w). cbn [fst snd state_of is_looping app].
    rewrite (executed_none _ P).
    splits; try reflexivity; try discriminate.
    + intros Hin. destruct (quiet_no_commit _ P Hin).
    + left; reflexivity.
Qed.

End CycleFacts.

(** The readers pair responses and tags with [zip]: a driver that broke its
    contract and answered two tags with one response would leave one result. *)
Remark short_answer_is_zipped :
  let short : MultiReadWrite.device_io :=
    {| MultiReadWrite.io_ping := fun _ => Returns Scenario.reply;
       MultiReadWrite.io_slc := fun _ _ => Raises "unused";
       MultiReadWrite.io_logix := fun _ _ _ =>
         Returns [{| MultiReadWrite.lx_Value := PyInt 1;
                     MultiReadWrite.lx_Status := "OK" |}];
       MultiReadWrite.io_log := fun _ => Returns tt |} in
  map MultiReadWrite.tag_of
      (MultiReadWrite.appended
         (fst (MultiReadWrite.plc_worker short (Some "[A]") Scenario.infoA
                 [Scenario.tagA1; Scenario.tagA2])))
  = [Scenario.tagA1].
Proof. reflexivity. Qed.

(** C1, the code fails the claim.  In the pass of the scenario where the
    reads of device A raise and the standard output of its worker cannot
    encode the error line of the reader, [log] raises in the worker's
    thread, which ends without a result: the two catalog tags of A are
    dropped and get neither a result nor a placeholder.  The main thread
    does not notice: the pass completes and commits 1 row, where the
    catalog of the configured devices has 3 tags. *)
Theorem tags_dropped_when_log_raises :
  let plcs := fst (MultiReadWrite.load_plc_config_from_env Scenario.environ) in
  let all := MultiReadWrite.merged plcs Scenario.tag_map Scenario.log_fails in
  let r := MultiReadWrite.cycle Scenario.environ plcs Scenario.tag_map 5
             Scenario.log_fails Scenario.start in
  Dict.get (Some "[A]") plcs = Some Scenario.infoA /\
  Dict.get (Some "[A]") Scenario.tag_map = Some [Scenario.tagA1; Scenario.tagA2] /\
  MultiReadWrite.catalog_size plcs Scenario.tag_map = 3 /\
  all = [MultiReadWrite.stamped (Some "[B]") PyNone "OFFLINE" Scenario.tagB1] /\
  filter (fun x => Dict.key_eqb (plc x) (Some "[A]")) all = [] /\
  MultiReadWrite.is_looping (fst r) = true /\
  MultiReadWrite.db (MultiReadWrite.state_of (fst r))
  = [MultiReadWrite.sql_row Scenario.noon
       (MultiReadWrite.stamped (Some "[B]") PyNone "OFFLINE" Scenario.tagB1)].
Proof. cbv zeta. vm_compute. repeat split. Qed.

(** X19: in every pass, when the drivers answer a read with a response for
    every tag asked for and the [log] calls of the workers return, each
    device of the registry that has catalog tags gets exactly one result per
    catalog tag, whether it is offline, fails every read or is read; so the
    results handed to the sinks are as many as the catalog tags of those
    devices, and a pass that completes has committed exactly one row for
    each of them.  Without the condition on [log] the results are never
    more than the catalog tags. *)
Theorem one_result_per_tag (environ : list (string * string))
    (tag_map : Dict.dict (list tag_info)) (LOOP_INTERVAL : Z)
    (w : MultiReadWrite.world) (st : MultiReadWrite.state) :
  let plcs := fst (MultiReadWrite.load_plc_config_from_env environ) in
  MultiReadWrite.all_answer (MultiReadWrite.device w) plcs tag_map ->
  let all := MultiReadWrite.merged plcs tag_map w in
  let r := MultiReadWrite.cycle environ plcs tag_map LOOP_INTERVAL w st in
  List.length all <= MultiReadWrite.catalog_size plcs tag_map /\
  (MultiReadWrite.all_logged (MultiReadWrite.device w) plcs ->
   List.length all = MultiReadWrite.catalog_size plcs tag_map /\
   (forall name info tag_list,
      In (name, info) plcs -> Dict.get name tag_map = Some tag_list ->
      Permutation
        (map MultiReadWrite.tag_of
             (filter (fun x => Dict.key_eqb (plc x) name) all))
        tag_list) /\
   (MultiReadWrite.is_looping (fst r) = true ->
    MultiReadWrite.db (MultiReadWrite.state_of (fst r))
    = (MultiReadWrite.db st ++ map (MultiReadWrite.sql_row (MultiReadWrite.now_scan w)) all)%list /\
    List.length (MultiReadWrite.db (MultiReadWrite.state_of (fst r)))
    = List.length (MultiReadWrite.db st) + MultiReadWrite.catalog_size plcs tag_map)).
Proof.
  intros plcs H all r.
  assert (Pm : Permutation all
                 (concat (fst (MultiReadWrite.spawn (MultiReadWrite.device w) tag_map plcs)))).
  { unfold all, MultiReadWrite.merged, MultiReadWrite.bucket.
    rewrite sorted_by_index_perm. apply run_schedule_perm. }
  split.
  { rewrite (Permutation_length Pm). apply spawn_length_le, H. }
  intros Lg.
  assert (L : List.length all = MultiReadWrite.catalog_size plcs tag_map).
  { rewrite (Permutation_length Pm). apply spawn_length; [exact H | exact Lg]. }
  split; [exact L|]. split.
  - intros name info tag_list Hin G.
    rewrite (filter_perm _ _ _ Pm).
    rewrite (spawn_device (MultiReadWrite.device w) tag_map plcs name info tag_list
               H (load_keys_nodup environ) Hin G (Lg name info Hin)).
    reflexivity.
  - intros Lp.
    destruct (cycle_sinks environ plcs tag_map LOOP_INTERVAL w st)
      as [written [rest [_ [_ [_ [_ [_ [_ [D _]]]]]]]]].
    fold all r in D. specialize (D Lp). split; [exact D|].
    rewrite D, length_app, length_map, L. reflexivity.
Qed.

(** The pass of the scenario: A answers, B is silent, three rows. *)
Lemma one_result_per_tag_witness :
  let plcs := fst (MultiReadWrite.load_plc_config_from_env Scenario.environ) in
  List.length (MultiReadWrite.merged plcs Scenario.tag_map Scenario.calm) = 3 /\
  List.length
    (MultiReadWrite.db
       (MultiReadWrite.state_of
          (fst (MultiReadWrite.cycle Scenario.environ plcs Scenario.tag_map 5
                  Scenario.calm Scenario.start)))) = 3.
Proof.
  cbv zeta.
  destruct (one_result_per_tag Scenario.environ Scenario.tag_map 5
              Scenario.calm Scenario.start) as [_ D].
  - intros name info tl Hin G Hp.
    destruct Hin as [E|[E|[]]]; injection E as <- <-; [|discriminate Hp].
    cbn in G. injection G as <-. cbn. intros attempt rs H.
    injection H as <-. cbn. lia.
  - destruct D as [L [_ D]].
    + intros name info Hin msg. exists tt.
      destruct Hin as [E|[E|[]]]; injection E as <- <-; reflexivity.
    + split; [exact L|]. exact (proj2 (D eq_refl)).
Defined.

(** C6: in every pass the results are written after a stable sort by tag
    index of what the workers collected, whatever the order in which they
    collected it: the list gone through is a permutation of the bucket with
    non-decreasing indices, and the worksheet rows assigned and the rows
    handed to [cursor.execute] are those of one prefix of that list, in its
    order (all of it when the pass completes), so the TagIndex sequence
    written to either sink is non-decreasing. *)
Theorem persisted_in_index_order (environ : list (string * string))
    (plcs : Dict.dict plc_info) (tag_map : Dict.dict (list tag_info))
    (LOOP_INTERVAL : Z) (w : MultiReadWrite.world) (st : MultiReadWrite.state) :
  let all := MultiReadWrite.merged plcs tag_map w in
  let r := MultiReadWrite.cycle environ plcs tag_map LOOP_INTERVAL w st in
  Permutation all (MultiReadWrite.bucket plcs tag_map w) /\
  Sorted Z.le (map MultiReadWrite.index_of all) /\
  (forall k,
     filter (fun x => (MultiReadWrite.index_of x =? k)%Z) all =
     filter (fun x => (MultiReadWrite.index_of x =? k)%Z)
            (MultiReadWrite.bucket plcs tag_map w)) /\
  exists written rest,
    all = (written ++ rest)%list /\
    MultiReadWrite.ws (MultiReadWrite.state_of (fst r))
    = MultiReadWrite.excel_writes (MultiReadWrite.now_scan w) written (MultiReadWrite.ws st) /\
    MultiReadWrite.executed (snd r)
    = map (MultiReadWrite.sql_row (MultiReadWrite.now_scan w)) written /\
    map TagIndex (MultiReadWrite.executed (snd r))
    = map MultiReadWrite.index_of written /\
    Sorted Z.le (map TagIndex (MultiReadWrite.executed (snd r))) /\
    (MultiReadWrite.is_looping (fst r) = true -> rest = []).
Proof.
  intros all r.
  assert (So : Sorted MultiReadWrite.index_le all) by apply sorted_by_index_sorted.
  split; [apply sorted_by_index_perm|]. split; [apply sorted_indices, So|].
  split; [intros k; apply sorted_by_index_stable|].
  destruct (cycle_sinks environ plcs tag_map LOOP_INTERVAL w st)
    as [written [rest [E [Hws [Hex [Hl _]]]]]].
  fold all r in E, Hws, Hex, Hl.
  exists written, rest. split; [exact E|]. split; [exact Hws|]. split; [exact Hex|].
  rewrite Hex, sql_row_index. split; [reflexivity|]. split; [|exact Hl].
  apply sorted_indices. rewrite E in So. exact (sorted_app_l _ _ _ So).
Qed.

(** C9: in every pass the table either keeps its rows or gains the row of
    every result of the pass, nothing in between; [commit] is called only
    after every row was handed to [cursor.execute]; and when any [INSERT] of
    the pass raises, none of its rows is committed. *)
Theorem relational_sink_atomic (environ : list (string * string))
    (plcs : Dict.dict plc_info) (tag_map : Dict.dict (list tag_info))
    (LOOP_INTERVAL : Z) (w : MultiReadWrite.world) (st : MultiReadWrite.state) :
  let all := MultiReadWrite.merged plcs tag_map w in
  let rows := map (MultiReadWrite.sql_row (MultiReadWrite.now_scan w)) all in
  let r := MultiReadWrite.cycle environ plcs tag_map LOOP_INTERVAL w st in
  (MultiReadWrite.db (MultiReadWrite.state_of (fst r)) = MultiReadWrite.db st \/
   MultiReadWrite.db (MultiReadWrite.state_of (fst r)) = (MultiReadWrite.db st ++ rows)%list) /\
  (In EvCommit (snd r) -> MultiReadWrite.executed (snd r) = rows) /\
  (forall i x e,
     nth_error all i = Some x ->
     MultiReadWrite.cursor_execute w i (MultiReadWrite.sql_row (MultiReadWrite.now_scan w) x)
     = Raises e ->
     MultiReadWrite.db (MultiReadWrite.state_of (fst r)) = MultiReadWrite.db st) /\
  (MultiReadWrite.is_looping (fst r) = true ->
   MultiReadWrite.db (MultiReadWrite.state_of (fst r)) = (MultiReadWrite.db st ++ rows)%list).
Proof.
  intros all rows r.
  destruct (cycle_sinks environ plcs tag_map LOOP_INTERVAL w st)
    as [written [rest [E [_ [Hex [_ [Hc [Hd [Hl Hf]]]]]]]]].
  fold all r in E, Hex, Hc, Hd, Hl, Hf. fold rows in Hd, Hl.
  split; [|split; [|split]].
  - destruct Hd as [Hd|[_ Hd]]; [left | right]; exact Hd.
  - intros Hin. rewrite Hex. unfold rows. rewrite E, (Hc Hin), app_nil_r. reflexivity.
  - intros i x e Hi He. apply Hf. intros F.
    destruct (write_results_ok _ _ _ _ _ _ F i x Hi) as [u Hu].
    cbn [Nat.add] in Hu. rewrite He in Hu. discriminate Hu.
  - exact Hl.
Qed.

(** The pass of the scenario whose second [INSERT] raises: the table stays
    empty although the first row had been inserted. *)
Lemma relational_sink_atomic_witness :
  let plcs := fst (MultiReadWrite.load_plc_config_from_env Scenario.environ) in
  MultiReadWrite.db
    (MultiReadWrite.state_of
       (fst (MultiReadWrite.cycle Scenario.environ plcs Scenario.tag_map 5
               Scenario.second_insert_fails Scenario.start))) = [].
Proof.
  cbv zeta.
  refine (proj1 (proj2 (proj2 (relational_sink_atomic Scenario.environ _ Scenario.tag_map 5
                   Scenario.second_insert_fails Scenario.start)))
            1 (MultiReadWrite.stamped (Some "[A]") (PyObj "3.2" true) "OK" Scenario.tagA1)
            "23000 constraint" _ _).
  - vm_compute. reflexivity.
  - reflexivity.
Defined.

(** A pass in which [get_sql_connection] raises ends the loop: whatever the
    later passes would do, the process dies with that exception and the
    state of the pass's start. *)
Lemma main_loop_from_connect_fault (environ : list (string * string))
    (plcs : Dict.dict plc_info) (tag_map : Dict.dict (list tag_info))
    (LOOP_INTERVAL : Z) (w : MultiReadWrite.world)
    (script : list MultiReadWrite.world) (st : MultiReadWrite.state) (e : string) :
  MultiReadWrite.restart_due (MultiReadWrite.now_check w)
    (MultiReadWrite.last_restart_date st) = false ->
  MultiReadWrite.pyodbc_connect w (MultiReadWrite.conn_str environ) = Raises e ->
  fst (MultiReadWrite.main_loop_from environ plcs tag_map LOOP_INTERVAL (w :: script) st)
  = MultiReadWrite.Died e st.
Proof.
  intros R C. cbn [MultiReadWrite.main_loop_from].
  unfold MultiReadWrite.cycle, MultiReadWrite.get_sql_connection. rewrite R, C.
  reflexivity.
Qed.

(** C2, the code at a failing input.  The database server is down during
    the first pass and up during the second: the exception of
    [get_sql_connection] leaves [main_loop], the process ends with it, and
    the second pass, which alone commits three rows, never runs.  The same
    happens when an [INSERT] raises: the process ends with cells of the
    worksheet assigned in memory, nothing saved and nothing committed. *)
Theorem main_loop_dies_when_server_down :
  fst (MultiReadWrite.main_loop Scenario.environ [] Scenario.tag_map 5 []
         [Scenario.server_down; Scenario.calm])
  = MultiReadWrite.Died "08001 server not found" Scenario.start /\
  MultiReadWrite.is_looping
    (fst (MultiReadWrite.main_loop Scenario.environ [] Scenario.tag_map 5 []
            [Scenario.calm])) = true /\
  List.length
    (MultiReadWrite.db
       (MultiReadWrite.state_of
          (fst (MultiReadWrite.main_loop Scenario.environ [] Scenario.tag_map 5 []
                  [Scenario.calm])))) = 3 /\
  (let o := fst (MultiReadWrite.main_loop Scenario.environ [] Scenario.tag_map 5 []
                   [Scenario.second_insert_fails; Scenario.calm]) in
   MultiReadWrite.is_looping o = false /\
   List.length (MultiReadWrite.ws (MultiReadWrite.state_of o)) = 6 /\
   MultiReadWrite.saved (MultiReadWrite.state_of o) = [] /\
   MultiReadWrite.db (MultiReadWrite.state_of o) = []).
Proof. cbv zeta. repeat split; vm_compute; reflexivity. Qed.

(** The restart of the scenario: the pass at 02:00:03 calls [os.execv]
    once, and with the date it recorded the check fails at 02:00:08 and at
    02:30 of that day. *)
Lemma daily_restart_once_witness :
  let plcs := fst (MultiReadWrite.load_plc_config_from_env Scenario.environ) in
  let r := MultiReadWrite.cycle Scenario.environ plcs Scenario.tag_map 5
             Scenario.at_two Scenario.start in
  MultiReadWrite.execv_calls
    (snd (MultiReadWrite.main_loop_from Scenario.environ plcs Scenario.tag_map 5
            [Scenario.calm; Scenario.at_two; Scenario.at_two] Scenario.start)) <= 1 /\
  MultiReadWrite.restart_due
    {| dt_date := 738895; dt_hour := 2; dt_minute := 0; dt_second := 8; dt_micro := 0 |}
    (MultiReadWrite.last_restart_date (MultiReadWrite.state_of (fst r))) = false /\
  MultiReadWrite.restart_due
    {| dt_date := 738895; dt_hour := 2; dt_minute := 30; dt_second := 0; dt_micro := 0 |}
    (MultiReadWrite.last_restart_date (MultiReadWrite.state_of (fst r))) = false.
Proof.
  cbv zeta.
  pose proof (daily_restart_once Scenario.environ
                (fst (MultiReadWrite.load_plc_config_from_env Scenario.environ))
                Scenario.tag_map 5
                [Scenario.calm; Scenario.at_two; Scenario.at_two] Scenario.start)
    as [_ [F [L _]]].
  split; [exact L|].
  destruct (F Scenario.at_two Scenario.start eq_refl) as [_ G].
  split; apply G; reflexivity.
Defined.

(** The pass of the scenario: the three rows reach the table in the order
    of their indices 5, 10, 11. *)
Lemma persisted_in_index_order_witness :
  let plcs := fst (MultiReadWrite.load_plc_config_from_env Scenario.environ) in
  let r := MultiReadWrite.cycle Scenario.environ plcs Scenario.tag_map 5
             Scenario.calm Scenario.start in
  map TagIndex (MultiReadWrite.executed (snd r)) = [5; 10; 11]%Z /\
  Sorted Z.le (map TagIndex (MultiReadWrite.executed (snd r))).
Proof.
  cbv zeta. split; [vm_compute; reflexivity|].
  destruct (persisted_in_index_order Scenario.environ
              (fst (MultiReadWrite.load_plc_config_from_env Scenario.environ))
              Scenario.tag_map 5 Scenario.calm Scenario.start)
    as [_ [_ [_ [written [rest [_ [_ [_ [_ [S _]]]]]]]]]].
  exact S.
Defined.

(** The recorded date lives in the process image: the image [os.execv]
    starts begins with no recorded date, so a first pass that still reads
    02:00 replaces the image again. *)
Remark fresh_image_restarts_again :
  fst (MultiReadWrite.main_loop Scenario.environ [] Scenario.tag_map 5 []
         [Scenario.at_two; Scenario.calm])
  = MultiReadWrite.Replaced
      {| MultiReadWrite.last_restart_date := Some 738895%Z;
         MultiReadWrite.ws := []; MultiReadWrite.saved := [];
         MultiReadWrite.db := [] |}.
Proof. vm_compute. reflexivity. Qed.

(* ================================================================== *)
(** * The tag catalog: [load_excel_tags] *)
(* ================================================================== *)

Section CatalogFacts.
Import PyStr Dict MultiReadWrite.

Lemma key_eqb_sym (a b : key) : key_eqb a b = key_eqb b a.
Proof.
  destruct (key_eqb a b) eqn:E, (key_eqb b a) eqn:E'; try reflexivity.
  - apply key_eqb_eq in E. subst b. rewrite key_eqb_refl in E'. discriminate.
  - apply key_eqb_eq in E'. subst b. rewrite key_eqb_refl in E. discriminate.
Qed.

Lemma listed_set {V : Type} (k k' : key) (l : list V) (d : dict (list V)) :
  listed k (Dict.set k' l d) = if key_eqb k k' then l else listed k d.
Proof. unfold listed. rewrite get_set. destruct (key_eqb k k'); reflexivity. Qed.

Lemma listed_tag_append {V : Type} (k k' : key) (x : V) (d : dict (list V)) :
  listed k (tag_append k' x d) =
  if key_eqb k k' then (listed k d ++ [x])%list else listed k d.
Proof.
  unfold tag_append. destruct (Dict.get k' d) as [l|] eqn:G; rewrite listed_set;
    destruct (key_eqb k k') eqn:E; try reflexivity;
    apply key_eqb_eq in E; subst k'; unfold listed; rewrite G; reflexivity.
Qed.

(** The loop files every row it reads under the row's device name, after
    what the map held, in row order. *)
Lemma load_rows_listed (k : key) (row : nat) (rows : list (list pyval))
    (tag_map : dict (list catalog_tag)) :
  listed k (load_rows row rows tag_map) =
  (listed k tag_map ++ under k (catalog_rows row rows))%list.
Proof.
  revert row tag_map. induction rows as [|cells rest IH]; intros row tag_map;
    cbn [load_rows catalog_rows].
  - unfold under. cbn. rewrite app_nil_r. reflexivity.
  - destruct (negb (truthy (row_cell cells COL_TAGNAME))).
    + unfold under. cbn. rewrite app_nil_r. reflexivity.
    + destruct (row_entry row cells) as [plc_name entry] eqn:E.
      rewrite IH, listed_tag_append. unfold under. cbn [filter fst map snd].
      rewrite (key_eqb_sym plc_name k).
      destruct (key_eqb k plc_name); cbn [map snd].
      * rewrite <- app_assoc. reflexivity.
      * reflexivity.
Qed.

Lemma get_tag_append_nonempty {V : Type} (k k' : key) (x : V) (d : dict (list V)) :
  (forall l, Dict.get k d = Some l -> l <> []) ->
  forall l, Dict.get k (tag_append k' x d) = Some l -> l <> [].
Proof.
  intros H l. unfold tag_append.
  destruct (Dict.get k' d) as [l0|]; rewrite get_set;
    destruct (key_eqb k k'); intros E; try (apply H; exact E);
    injection E as <-; [destruct l0|]; discriminate.
Qed.

Lemma load_rows_nonempty (k : key) (row : nat) (rows : list (list pyval))
    (tag_map : dict (list catalog_tag)) :
  (forall l, Dict.get k tag_map = Some l -> l <> []) ->
  forall l, Dict.get k (load_rows row rows tag_map) = Some l -> l <> [].
Proof.
  revert row tag_map. induction rows as [|cells rest IH]; intros row tag_map H;
    cbn [load_rows]; [exact H|].
  destruct (negb (truthy (row_cell cells COL_TAGNAME))); [exact H|].
  destruct (row_entry row cells) as [plc_name entry].
  apply IH. apply get_tag_append_nonempty, H.
Qed.

Lemma tag_append_nodup {V : Type} (k : key) (x : V) (d : dict (list V)) :
  NoDup (keys d) -> NoDup (keys (tag_append k x d)).
Proof. intros H. unfold tag_append. destruct (Dict.get k d); apply set_nodup, H. Qed.

Lemma load_rows_nodup (row : nat) (rows : list (list pyval))
    (tag_map : dict (list catalog_tag)) :
  NoDup (keys tag_map) -> NoDup (keys (load_rows row rows tag_map)).
Proof.
  revert row tag_map. induction rows as [|cells rest IH]; intros row tag_map H;
    cbn [load_rows]; [exact H|].
  destruct (negb (truthy (row_cell cells COL_TAGNAME))); [exact H|].
  destruct (row_entry row cells) as [plc_name entry].
  apply IH, tag_append_nodup, H.
Qed.

(** A blank tag cell ends the loop: the rows after it are not read. *)
Lemma load_rows_blank (row : nat) (pre post : list (list pyval))
    (blank : list pyval) (tag_map : dict (list catalog_tag)) :
  truthy (row_cell blank COL_TAGNAME) = false ->
  load_rows row (pre ++ blank :: post) tag_map = load_rows row pre tag_map.
Proof.
  intros B. revert row tag_map.
  induction pre as [|cells pre IH]; intros row tag_map; cbn [app load_rows].
  - rewrite B. reflexivity.
  - destruct (negb (truthy (row_cell cells COL_TAGNAME))); [reflexivity|].
    destruct (row_entry row cells) as [plc_name entry]. apply IH.
Qed.

Lemma tag_total_set {V : Type} (k : key) (l : list V) (d : dict (list V)) :
  tag_total (Dict.set k l d) + List.length (listed k d) = tag_total d + List.length l.
Proof.
  unfold tag_total, listed.
  induction d as [|[k' l'] d IH]; cbn [Dict.set Dict.get map snd concat].
  - cbn. rewrite app_nil_r. lia.
  - destruct (key_eqb k k') eqn:E; cbn [map snd concat]; rewrite !length_app.
    + lia.
    + lia.
Qed.

Lemma tag_total_append {V : Type} (k : key) (x : V) (d : dict (list V)) :
  tag_total (tag_append k x d) = S (tag_total d).
Proof.
  unfold tag_append. destruct (Dict.get k d) as [l|] eqn:G.
  - pose proof (tag_total_set k (l ++ [x])%list d) as H. unfold listed in H.
    rewrite G, length_app in H. cbn in H. lia.
  - pose proof (tag_total_set k [x] d) as H. unfold listed in H.
    rewrite G in H. cbn in H. lia.
Qed.

Lemma load_rows_total (row : nat) (rows : list (list pyval))
    (tag_map : dict (list catalog_tag)) :
  tag_total (load_rows row rows tag_map) =
  tag_total tag_map + List.length (catalog_rows row rows).
Proof.
  revert row tag_map. induction rows as [|cells rest IH]; intros row tag_map;
    cbn [load_rows catalog_rows]; [cbn; lia|].
  destruct (negb (truthy (row_cell cells COL_TAGNAME))); [cbn; lia|].
  destruct (row_entry row cells) as [plc_name entry] eqn:E.
  rewrite IH, tag_total_append. cbn [List.length]. lia.
Qed.

Lemma catalog_rows_numbers (row : nat) (rows : list (list pyval)) :
  map (fun e => c_row (snd e)) (catalog_rows row rows) =
  seq row (List.length (catalog_rows row rows)).
Proof.
  revert row. induction rows as [|cells rest IH]; intros row;
    cbn [catalog_rows]; [reflexivity|].
  destruct (negb (truthy (row_cell cells COL_TAGNAME))); [reflexivity|].
  cbn [map List.length seq snd row_entry c_row]. f_equal. apply IH.
Qed.

End CatalogFacts.

(** X1: the tag map [load_excel_tags] returns holds, under each device
    name, exactly the rows read whose normalized PLC cell is that name, in
    sheet order; a name with no such row is absent (no key holds an empty
    list) and no name occurs twice; and a workbook that cannot be opened
    makes the loader raise. *)
Theorem catalog_grouped_by_device (environ : list (string * string))
    (open_sheet : option string -> option string -> exc MultiReadWrite.grid) :
  match MultiReadWrite.load_excel_tags environ open_sheet with
  | Returns (ws, tag_map) =>
      open_sheet (getenv environ "EXCEL_FILE_MAIN") (getenv environ "EXCEL_SHEET_MAIN")
      = Returns ws /\
      NoDup (Dict.keys tag_map) /\
      forall k,
        MultiReadWrite.listed k tag_map
        = MultiReadWrite.under k (MultiReadWrite.catalog_rows 2 (tl ws)) /\
        (Dict.get k tag_map = None <->
         MultiReadWrite.under k (MultiReadWrite.catalog_rows 2 (tl ws)) = [])
  | Raises e =>
      open_sheet (getenv environ "EXCEL_FILE_MAIN") (getenv environ "EXCEL_SHEET_MAIN")
      = Raises e
  end.
Proof.
  unfold MultiReadWrite.load_excel_tags.
  destruct (open_sheet _ _) as [ws|e]; [|reflexivity].
  split; [reflexivity|]. split; [apply load_rows_nodup; constructor|].
  intros k.
  pose proof (load_rows_listed k 2 (tl ws) []) as L. cbn [app] in L.
  change (MultiReadWrite.listed k []) with (@nil MultiReadWrite.catalog_tag) in L.
  cbn [app] in L. split; [exact L|].
  pose proof (load_rows_nonempty k 2 (tl ws) []) as N.
  unfold MultiReadWrite.listed in L.
  destruct (Dict.get k (MultiReadWrite.load_rows 2 (tl ws) [])) as [l|] eqn:G.
  - split; [discriminate|]. intros U. rewrite U in L. subst l.
    exfalso. apply (N (fun l H => ltac:(discriminate H)) [] eq_refl). reflexivity.
  - split; [intros _; symmetry; exact L | reflexivity].
Qed.

(** X2: the first row whose tag-name cell is empty ends the catalog: the
    rows below it are not read, whatever they hold. *)
Theorem catalog_stops_at_blank (environ : list (string * string))
    (header blank : list pyval) (pre post : list (list pyval)) :
  truthy (MultiReadWrite.row_cell blank MultiReadWrite.COL_TAGNAME) = false ->
  forall ws tag_map,
    MultiReadWrite.load_excel_tags environ
      (fun _ _ => Returns (header :: pre ++ blank :: post)%list) = Returns (ws, tag_map) ->
    MultiReadWrite.load_excel_tags environ (fun _ _ => Returns (header :: pre))
    = Returns (header :: pre, tag_map).
Proof.
  intros B ws tag_map. unfold MultiReadWrite.load_excel_tags. cbn [tl].
  rewrite (load_rows_blank 2 pre post blank [] B). intros E. injection E as _ <-.
  reflexivity.
Qed.

(** Two rows of tags, a blank row, and a row below it that is lost. *)
Lemma catalog_stops_at_blank_witness :
  let header := [PyStr "PLC"; PyStr "TagName"] in
  let r2 := [PyStr "::[A]"; PyStr " P2_FLOW "; PyInt 10; PyInt 1; PyInt 2] in
  let r3 := [PyStr "B"; PyStr "N7:0"; PyInt 5; PyInt 1; PyInt 1] in
  let r5 := [PyStr "::[A]"; PyStr "P2_TEMP"; PyInt 11; PyInt 1; PyInt 2] in
  MultiReadWrite.load_excel_tags [] (fun _ _ => Returns [header; r2; r3])
  = Returns ([header; r2; r3],
             [(Some "[A]", [{| MultiReadWrite.c_row := 2;
                               MultiReadWrite.c_tag_name := "P2_FLOW";
                               MultiReadWrite.c_tag_index := PyInt 10;
                               MultiReadWrite.c_tag_type := PyInt 1;
                               MultiReadWrite.c_tag_dtype := PyInt 2 |}]);
              (Some "[B]", [{| MultiReadWrite.c_row := 3;
                               MultiReadWrite.c_tag_name := "N7:0";
                               MultiReadWrite.c_tag_index := PyInt 5;
                               MultiReadWrite.c_tag_type := PyInt 1;
                               MultiReadWrite.c_tag_dtype := PyInt 1 |}])]).
Proof.
  cbv zeta.
  refine (catalog_stops_at_blank []
            [PyStr "PLC"; PyStr "TagName"] [PyNone; PyStr ""]
            [[PyStr "::[A]"; PyStr " P2_FLOW "; PyInt 10; PyInt 1; PyInt 2];
             [PyStr "B"; PyStr "N7:0"; PyInt 5; PyInt 1; PyInt 1]]
            [[PyStr "::[A]"; PyStr "P2_TEMP"; PyInt 11; PyInt 1; PyInt 2]]
            _ _ _ _).
  - reflexivity.
  - vm_compute. reflexivity.
Defined.

(** X3: every row read gives one entry: the entries of the tag map, all
    devices together, are as many as the rows from row 2 up to the first
    empty tag cell, and they carry the row numbers 2, 3, ... in order. *)
Theorem catalog_one_entry_per_row (environ : list (string * string))
    (open_sheet : option string -> option string -> exc MultiReadWrite.grid)
    (ws : MultiReadWrite.grid)
    (tag_map : Dict.dict (list MultiReadWrite.catalog_tag)) :
  MultiReadWrite.load_excel_tags environ open_sheet = Returns (ws, tag_map) ->
  let read := MultiReadWrite.catalog_rows 2 (tl ws) in
  MultiReadWrite.tag_total tag_map = List.length read /\
  List.length read <= List.length (tl ws) /\
  map (fun e => MultiReadWrite.c_row (snd e)) read = seq 2 (List.length read).
Proof.
  unfold MultiReadWrite.load_excel_tags.
  destruct (open_sheet _ _) as [g|e]; [|discriminate].
  intros E. injection E as <- <-. cbv zeta. split; [|split].
  - rewrite load_rows_total. reflexivity.
  - generalize 2. induction (tl g) as [|cells rest IH]; intros n;
      cbn [MultiReadWrite.catalog_rows List.length]; [lia|].
    destruct (negb _); cbn [List.length]; [lia|]. specialize (IH (S n)). lia.
  - apply catalog_rows_numbers.
Qed.

(** The catalog of the witness above: two rows, two entries. *)
Lemma catalog_one_entry_per_row_witness :
  let g := [[PyStr "PLC"; PyStr "TagName"];
            [PyStr "::[A]"; PyStr " P2_FLOW "; PyInt 10; PyInt 1; PyInt 2];
            [PyStr "B"; PyStr "N7:0"; PyInt 5; PyInt 1; PyInt 1]] in
  MultiReadWrite.tag_total (MultiReadWrite.load_rows 2 (tl g) []) = 2.
Proof.
  cbv zeta.
  refine (proj1 (catalog_one_entry_per_row [] (fun _ _ => Returns _) _ _ eq_refl)).
Defined.

(* ================================================================== *)
(** * More on the device registry *)
(* ================================================================== *)

Section RegistryFacts.
Import PyStr Dict MultiReadWrite.

Variable environ : list (string * string).

(** A pass of the loop for a key that declares no device under [name]
    leaves what the registry holds under [name]. *)
Lemma config_step_other (name : key) (acc : dict plc_info * list event)
    (k v : string) :
  (is_type_key k = true -> normalize_plc_name (PyStr (raw_name_of k)) <> name) ->
  Dict.get name (fst (config_step environ acc (k, v))) = Dict.get name (fst acc).
Proof.
  intros H. destruct acc as [d e]. unfold config_step.
  unfold is_type_key in H.
  destruct (startswith "PLC_" (upper k) && endswith "_TYPE" (upper k)); [|reflexivity].
  destruct (negb (truthy (py_of_opt (getenv environ _)))); cbn [fst]; [reflexivity|].
  rewrite get_set. destruct (key_eqb name _) eqn:E; [|reflexivity].
  apply key_eqb_eq in E. exfalso. apply (H eq_refl). symmetry. exact E.
Qed.

(** A pass of the loop for a key that declares a device with an address
    stores the device under its name. *)
Lemma config_step_same (acc : dict plc_info * list event) (k v ip : string) :
  is_type_key k = true ->
  getenv environ ("PLC_" ++ raw_name_of k ++ "_IP") = Some ip -> ip <> "" ->
  Dict.get (normalize_plc_name (PyStr (raw_name_of k)))
           (fst (config_step environ acc (k, v)))
  = Some {| info_type := upper (strip v); info_ip := strip ip |}.
Proof.
  intros T G Hne. destruct acc as [d e]. unfold config_step.
  unfold is_type_key in T. rewrite T. fold (raw_name_of k). rewrite G.
  cbn [py_of_opt truthy fmt py_str].
  destruct (String.eqb ip "") eqn:Ei; [apply String.eqb_eq in Ei; contradiction|].
  cbn [negb fst]. rewrite get_set, key_eqb_refl. reflexivity.
Qed.

Lemma fold_config_other (name : key) (xs : list (string * string))
    (acc : dict plc_info * list event) :
  (forall k v, In (k, v) xs -> is_type_key k = true ->
     normalize_plc_name (PyStr (raw_name_of k)) <> name) ->
  Dict.get name (fst (fold_left (config_step environ) xs acc)) = Dict.get name (fst acc).
Proof.
  revert acc. induction xs as [|[k v] xs IH]; intros acc H; [reflexivity|].
  cbn [fold_left]. rewrite IH.
  - apply config_step_other. apply (H k v). left. reflexivity.
  - intros k' v' Hin. apply (H k' v'). right. exact Hin.
Qed.

(** The events of the loop only grow. *)
Lemma config_step_events (acc : dict plc_info * list event) (kv : string * string)
    (e : event) :
  In e (snd acc) -> In e (snd (config_step environ acc kv)).
Proof.
  destruct acc as [d ev], kv as [k v]. unfold config_step. intros H.
  destruct (startswith "PLC_" (upper k) && endswith "_TYPE" (upper k)); [|exact H].
  destruct (negb (truthy (py_of_opt (getenv environ _)))); cbn [snd]; [|exact H].
  apply in_or_app. left. exact H.
Qed.

Lemma fold_config_events (xs : list (string * string))
    (acc : dict plc_info * list event) (e : event) :
  In e (snd acc) -> In e (snd (fold_left (config_step environ) xs acc)).
Proof.
  revert acc. induction xs as [|kv xs IH]; intros acc H; [exact H|].
  cbn [fold_left]. apply IH, config_step_events, H.
Qed.

Lemma config_step_warns (acc : dict plc_info * list event) (k v : string) :
  is_type_key k = true ->
  truthy (py_of_opt (getenv environ ("PLC_" ++ raw_name_of k ++ "_IP"))) = false ->
  In (EvLog ("[WARN] Missing IP for PLC " ++ raw_name_of k))
     (snd (config_step environ acc (k, v))) /\
  fst (config_step environ acc (k, v)) = fst acc.
Proof.
  intros T G. destruct acc as [d e]. unfold config_step.
  unfold is_type_key in T. rewrite T. fold (raw_name_of k). rewrite G.
  cbn [negb fst snd]. split; [|reflexivity].
  apply in_or_app. right. left. reflexivity.
Qed.

End RegistryFacts.

Section UpperFacts.
Import PyStr Dict MultiReadWrite.

Lemma upper_char_idem (c : ascii) : upper_char (upper_char c) = upper_char c.
Proof.
  destruct c as [[] [] [] [] [] [] [] []]; reflexivity.
Qed.

Lemma all_chars_upper (s : string) : all_chars is_upper (upper s) = true.
Proof.
  induction s as [|c s IH]; [reflexivity|].
  cbn [upper all_chars]. rewrite IH. unfold is_upper.
  rewrite upper_char_idem, Ascii.eqb_refl. reflexivity.
Qed.

Lemma all_chars_is_upper (s : string) : all_chars is_upper s = true <-> upper s = s.
Proof.
  induction s as [|c s IH]; cbn [upper all_chars]; [split; reflexivity|].
  unfold is_upper at 1. rewrite andb_true_iff, IH, Ascii.eqb_eq. split.
  - intros [-> ->]. reflexivity.
  - intros E. injection E as E1 E2. split; assumption.
Qed.

Lemma all_chars_app (p : ascii -> bool) (s1 s2 : string) :
  all_chars p (s1 ++ s2) = all_chars p s1 && all_chars p s2.
Proof.
  induction s1 as [|c s1 IH]; [reflexivity|].
  cbn [append all_chars]. rewrite IH, andb_assoc. reflexivity.
Qed.

Lemma all_chars_replace_from (p : ascii -> bool) (k : nat) (old s : string) :
  all_chars p s = true -> all_chars p (replace_from k old "" s) = true.
Proof.
  revert k. induction s as [|c s IH]; intros k H; [reflexivity|].
  cbn [all_chars] in H. apply andb_true_iff in H. destruct H as [H1 H2].
  cbn [replace_from]. destruct k as [|k]; [|apply IH, H2].
  destruct (startswith old (String c s)).
  - cbn [append]. apply IH, H2.
  - cbn [all_chars]. rewrite H1. apply IH, H2.
Qed.

Lemma all_chars_lstrip (p : ascii -> bool) (s : string) :
  all_chars p s = true -> all_chars p (lstrip s) = true.
Proof.
  induction s as [|c s IH]; intros H; [reflexivity|].
  cbn [lstrip]. destruct (isspace c); [|exact H].
  cbn [all_chars] in H. apply andb_true_iff in H. apply IH, H.
Qed.

Lemma all_chars_rstrip (p : ascii -> bool) (s : string) :
  all_chars p s = true -> all_chars p (rstrip s) = true.
Proof.
  induction s as [|c s IH]; intros H; [reflexivity|].
  cbn [all_chars] in H. apply andb_true_iff in H. destruct H as [H1 H2].
  cbn [rstrip]. specialize (IH H2). destruct (rstrip s) as [|c' r].
  - destruct (isspace c); [reflexivity|]. cbn [all_chars]. rewrite H1. reflexivity.
  - cbn [all_chars] in *. rewrite H1. exact IH.
Qed.

(** What [normalize_plc_name] returns for a string is made of the
    characters of the string and of the two brackets. *)
Lemma all_chars_normalize (p : ascii -> bool) (s r : string) :
  p "["%char = true -> p "]"%char = true -> all_chars p s = true ->
  normalize_plc_name (PyStr s) = Some r -> all_chars p r = true.
Proof.
  intros Pl Pr H. unfold normalize_plc_name.
  destruct (negb (truthy (PyStr s))); [discriminate|].
  cbn [py_str]. unfold strip.
  set (name := replace " " "" (replace "::" "" (rstrip (lstrip s)))).
  assert (Hn : all_chars p name = true).
  { unfold name, replace. apply all_chars_replace_from, all_chars_replace_from.
    apply all_chars_rstrip, all_chars_lstrip, H. }
  destruct (negb (startswith "[" name)); intros E; injection E as <-; [|exact Hn].
  change ("[" ++ name ++ "]") with (String "[" (name ++ "]")).
  cbn [all_chars]. rewrite Pl, all_chars_app, Hn. cbn. rewrite Pr. reflexivity.
Qed.

Lemma get_in {V : Type} (k : key) (v : V) (d : dict V) :
  Dict.get k d = Some v -> In (k, v) d.
Proof.
  induction d as [|[k' v'] d IH]; cbn [Dict.get]; [discriminate|].
  destruct (key_eqb k k') eqn:E.
  - apply key_eqb_eq in E. subst k'. intros H. injection H as ->. left. reflexivity.
  - intros H. right. apply IH, H.
Qed.

End UpperFacts.

(** X4: when several keys of the environment declare a device under one
    name, the registry holds what the last of them says: a key with an
    address, followed by no other key that gives the same name, decides the
    type and the address stored under that name. *)
Theorem registry_last_wins (environ pre post : list (string * string))
    (k v ip : string) :
  environ = (pre ++ (k, v) :: post)%list ->
  MultiReadWrite.is_type_key k = true ->
  getenv environ ("PLC_" ++ MultiReadWrite.raw_name_of k ++ "_IP") = Some ip ->
  ip <> "" ->
  (forall k' v', In (k', v') post -> MultiReadWrite.is_type_key k' = true ->
     MultiReadWrite.normalize_plc_name (PyStr (MultiReadWrite.raw_name_of k'))
     <> MultiReadWrite.normalize_plc_name (PyStr (MultiReadWrite.raw_name_of k))) ->
  Dict.get (MultiReadWrite.normalize_plc_name (PyStr (MultiReadWrite.raw_name_of k)))
           (fst (MultiReadWrite.load_plc_config_from_env environ))
  = Some {| info_type := PyStr.upper (PyStr.strip v); info_ip := PyStr.strip ip |}.
Proof.
  intros E T G Hne Hpost. unfold MultiReadWrite.load_plc_config_from_env.
  destruct (fold_left (MultiReadWrite.config_step environ) environ ([], []))
    as [plcs ev] eqn:F.
  cbn [fst]. change plcs with (fst (plcs, ev)). rewrite <- F.
  rewrite E at 2. rewrite fold_left_app. cbn [fold_left].
  rewrite (fold_config_other environ _ post) by exact Hpost.
  apply config_step_same; assumption.
Qed.

(** Two keys for the device [A]: the later one, a MicroLogix at 10.0.0.2,
    is the one the registry keeps. *)
Lemma registry_last_wins_witness :
  Dict.get (Some "[A]")
    (fst (MultiReadWrite.load_plc_config_from_env
            [("PLC_A_TYPE", "CompactLogix"); ("PLC_A_IP", "10.0.0.1");
             ("PLC_[A]_TYPE", "micrologix"); ("PLC_[A]_IP", " 10.0.0.2 ")]))
  = Some {| info_type := "MICROLOGIX"; info_ip := "10.0.0.2" |}.
Proof.
  refine (registry_last_wins _
            [("PLC_A_TYPE", "CompactLogix"); ("PLC_A_IP", "10.0.0.1")]
            [("PLC_[A]_IP", " 10.0.0.2 ")] "PLC_[A]_TYPE" "micrologix" " 10.0.0.2 "
            eq_refl eq_refl eq_refl _ _).
  - discriminate.
  - intros k' v' [H|[]]. injection H as <- <-. discriminate.
Defined.

(** X5: every name of the registry is upper case, starts with "[" and
    holds no blank, and every type stored is upper case; so a device name
    with a lower-case letter is never in the registry, and the tags the
    catalog files under such a name are never polled. *)
Theorem registry_names_upper (environ : list (string * string)) :
  let plcs := fst (MultiReadWrite.load_plc_config_from_env environ) in
  (forall name info, In (name, info) plcs ->
     PyStr.upper (info_type info) = info_type info /\
     forall r, name = Some r ->
       PyStr.upper r = r /\ PyStr.startswith "[" r = true /\
       PyStr.contains " " r = false) /\
  (forall s, PyStr.upper s <> s -> Dict.get (Some s) plcs = None).
Proof.
  cbv zeta.
  assert (A : forall name info,
             In (name, info) (fst (MultiReadWrite.load_plc_config_from_env environ)) ->
             PyStr.upper (info_type info) = info_type info /\
             forall r, name = Some r ->
               PyStr.upper r = r /\ PyStr.startswith "[" r = true /\
               PyStr.contains " " r = false).
  { intros name info Hin.
    destruct (load_items environ name info Hin)
      as [k [value [ip [_ [_ [_ [En [_ [_ Ei]]]]]]]]].
    cbv zeta in En. split.
    - subst info. cbn [info_type]. apply all_chars_is_upper, all_chars_upper.
    - intros r ->. symmetry in En. split.
      + apply all_chars_is_upper.
        apply (all_chars_normalize _ _ _ eq_refl eq_refl) with (2 := En).
        unfold PyStr.replace. apply all_chars_replace_from, all_chars_replace_from.
        apply all_chars_upper.
      + assert (T : truthy (PyStr (PyStr.replace "_TYPE" ""
                                     (PyStr.replace "PLC_" "" (PyStr.upper k)))) = true).
        { destruct (truthy _) eqn:T; [reflexivity|].
          rewrite (normalize_falsy _ T) in En. discriminate. }
        destruct (normalize_truthy _ T) as [r' [E' [Hsp Hbr]]].
        rewrite En in E'. injection E' as <-. split; assumption. }
  split; [exact A|].
  intros s Hs. destruct (Dict.get (Some s) _) as [info|] eqn:G; [|reflexivity].
  apply get_in in G. destruct (A _ _ G) as [_ H].
  destruct (H s eq_refl) as [U _]. contradiction.
Qed.

Lemma fold_config_warns (environ xs : list (string * string))
    (acc : Dict.dict plc_info * list event) (k v : string) :
  In (k, v) xs ->
  MultiReadWrite.is_type_key k = true ->
  truthy (py_of_opt (getenv environ ("PLC_" ++ MultiReadWrite.raw_name_of k ++ "_IP")))
  = false ->
  In (EvLog ("[WARN] Missing IP for PLC " ++ MultiReadWrite.raw_name_of k))
     (snd (fold_left (MultiReadWrite.config_step environ) xs acc)).
Proof.
  intros Hin T G. revert acc.
  induction xs as [|[k' v'] xs IH]; intros acc; [destruct Hin|].
  cbn [fold_left]. destruct Hin as [E|Hin].
  - injection E as -> ->. apply fold_config_events.
    apply (config_step_warns environ acc k v T G).
  - apply IH, Hin.
Qed.

(** X6: a key that declares a device whose [PLC_<raw name>_IP] is missing
    or empty is reported by a [[WARN] Missing IP for PLC <raw name>] line of
    the log; the loader does not raise and goes on with the other keys. *)
Theorem registry_warns_missing_ip (environ : list (string * string)) (k v : string) :
  In (k, v) environ ->
  MultiReadWrite.is_type_key k = true ->
  truthy (py_of_opt (getenv environ ("PLC_" ++ MultiReadWrite.raw_name_of k ++ "_IP")))
  = false ->
  In (EvLog ("[WARN] Missing IP for PLC " ++ MultiReadWrite.raw_name_of k))
     (snd (MultiReadWrite.load_plc_config_from_env environ)).
Proof.
  intros Hin T G. unfold MultiReadWrite.load_plc_config_from_env.
  pose proof (fold_config_warns environ environ ([], []) k v Hin T G) as W.
  destruct (fold_left (MultiReadWrite.config_step environ) environ ([], []))
    as [plcs ev].
  cbn [snd] in *. apply in_or_app. left. exact W.
Qed.

(** Device C has a type and no address; device A, declared after it, is
    still registered. *)
Lemma registry_warns_missing_ip_witness :
  let environ := [("PLC_C_TYPE", "Micro800"); ("PLC_A_TYPE", "CompactLogix");
                  ("PLC_A_IP", "10.0.0.1"); ("PLC_C_IP", "")] in
  In (EvLog "[WARN] Missing IP for PLC C")
     (snd (MultiReadWrite.load_plc_config_from_env environ)).
Proof.
  cbv zeta.
  refine (registry_warns_missing_ip
            [("PLC_C_TYPE", "Micro800"); ("PLC_A_TYPE", "CompactLogix");
             ("PLC_A_IP", "10.0.0.1"); ("PLC_C_IP", "")]
            "PLC_C_TYPE" "Micro800" _ eq_refl eq_refl).
  left. reflexivity.
Defined.

(* ================================================================== *)
(** * Spellings of a device name *)
(* ================================================================== *)

Section SpellingFacts.
Import PyStr MultiReadWrite.

Lemma plain_no_space (s : string) :
  all_chars plain s = true -> all_chars (fun c => negb (isspace c)) s = true.
Proof.
  induction s as [|c s IH]; [reflexivity|]. cbn [all_chars]. unfold plain at 1.
  intros H. apply andb_true_iff in H. destruct H as [H1 H2].
  apply andb_true_iff in H1. destruct H1 as [H1 _]. rewrite H1. apply IH, H2.
Qed.

Lemma rstrip_no_space (s : string) :
  all_chars (fun c => negb (isspace c)) s = true -> rstrip s = s.
Proof.
  induction s as [|c s IH]; [reflexivity|]. cbn [all_chars].
  intros H. apply andb_true_iff in H. destruct H as [H1 H2].
  cbn [rstrip]. rewrite (IH H2). destruct s; [|reflexivity].
  apply negb_true_iff in H1. rewrite H1. reflexivity.
Qed.

Lemma rstrip_trailing_blank (s : string) :
  all_chars (fun c => negb (isspace c)) s = true -> rstrip (s ++ " ") = s.
Proof.
  induction s as [|c s IH]; [reflexivity|]. cbn [all_chars append].
  intros H. apply andb_true_iff in H. destruct H as [H1 H2].
  cbn [rstrip]. rewrite (IH H2). destruct s; [|reflexivity].
  apply negb_true_iff in H1. rewrite H1. reflexivity.
Qed.

Lemma lstrip_no_space (s : string) :
  all_chars (fun c => negb (isspace c)) s = true -> lstrip s = s.
Proof.
  destruct s as [|c s]; [reflexivity|]. cbn [all_chars lstrip].
  intros H. apply andb_true_iff in H. destruct H as [H1 _].
  apply negb_true_iff in H1. rewrite H1. reflexivity.
Qed.

Lemma plain_no_colons (s : string) :
  all_chars plain s = true -> contains "::" s = false.
Proof.
  induction s as [|c s IH]; [reflexivity|]. cbn [all_chars]. unfold plain at 1.
  intros H. apply andb_true_iff in H. destruct H as [H1 H2].
  apply andb_true_iff in H1. destruct H1 as [_ H1]. apply negb_true_iff in H1.
  cbn [contains startswith]. rewrite H1. cbn [andb orb]. apply IH, H2.
Qed.

Lemma plain_no_blank (s : string) :
  all_chars plain s = true -> contains " " s = false.
Proof.
  induction s as [|c s IH]; [reflexivity|]. cbn [all_chars]. unfold plain at 1.
  intros H. apply andb_true_iff in H. destruct H as [H1 H2].
  apply andb_true_iff in H1. destruct H1 as [H1 _]. apply negb_true_iff in H1.
  fold (has_char " " (String c s)). rewrite has_char_cons.
  destruct (Ascii.eqb " " c) eqn:E.
  - apply Ascii.eqb_eq in E. subst c. discriminate H1.
  - apply IH, H2.
Qed.

Lemma replace_leading_colons (t : string) :
  replace "::" "" (String ":" (String ":" t)) = replace "::" "" t.
Proof. reflexivity. Qed.

(** A name made of plain characters, already between brackets or not,
    comes out between brackets and otherwise unchanged. *)
Lemma normalize_plain (s : string) :
  all_chars plain s = true -> s <> "" ->
  normalize_plc_name (PyStr s)
  = Some (if startswith "[" s then s else "[" ++ s ++ "]").
Proof.
  intros H Hne. unfold normalize_plc_name. cbn [truthy py_str].
  destruct (String.eqb s "") eqn:E; [apply String.eqb_eq in E; contradiction|].
  cbn [negb]. unfold strip.
  rewrite (lstrip_no_space s (plain_no_space s H)).
  rewrite (rstrip_no_space s (plain_no_space s H)).
  rewrite (replace_absent "::" "" s (plain_no_colons s H)).
  rewrite (replace_absent " " "" s (plain_no_blank s H)).
  destruct (startswith "[" s); reflexivity.
Qed.

End SpellingFacts.

(** X7: the spellings of a device name the service meets give one name.
    For a name [s] of plain characters (no white space, no colon) that does
    not start with a bracket, [s], ["[s]"], ["::[s]"] and [" ::[s] "] all
    normalize to ["[s]"]: the catalog cell and the environment key of a
    device join whichever of these spellings each uses. *)
Theorem normalize_spellings_agree (s : string) :
  MultiReadWrite.all_chars MultiReadWrite.plain s = true ->
  s <> "" -> PyStr.startswith "[" s = false ->
  MultiReadWrite.normalize_plc_name (PyStr s) = Some ("[" ++ s ++ "]") /\
  MultiReadWrite.normalize_plc_name (PyStr ("[" ++ s ++ "]")) = Some ("[" ++ s ++ "]") /\
  MultiReadWrite.normalize_plc_name (PyStr ("::[" ++ s ++ "]")) = Some ("[" ++ s ++ "]") /\
  MultiReadWrite.normalize_plc_name (PyStr (" ::[" ++ s ++ "] ")) = Some ("[" ++ s ++ "]").
Proof.
  intros H Hne Hb.
  assert (Hw : MultiReadWrite.all_chars MultiReadWrite.plain ("[" ++ s ++ "]") = true).
  { change ("[" ++ s ++ "]") with (String "[" (s ++ "]")).
    cbn [MultiReadWrite.all_chars]. rewrite all_chars_app, H. reflexivity. }
  assert (N2 : MultiReadWrite.normalize_plc_name (PyStr ("[" ++ s ++ "]"))
               = Some ("[" ++ s ++ "]")).
  { rewrite (normalize_plain _ Hw) by discriminate. reflexivity. }
  assert (Hs : MultiReadWrite.all_chars (fun c => negb (PyStr.isspace c))
                 ("::[" ++ s ++ "]") = true).
  { change ("::[" ++ s ++ "]") with (String ":" (String ":" ("[" ++ s ++ "]"))).
    cbn [MultiReadWrite.all_chars]. rewrite (plain_no_space _ Hw). reflexivity. }
  assert (N3 : forall t, PyStr.strip t = "::[" ++ s ++ "]" -> t <> "" ->
               MultiReadWrite.normalize_plc_name (PyStr t) = Some ("[" ++ s ++ "]")).
  { intros t Et Ht. unfold MultiReadWrite.normalize_plc_name. cbn [truthy py_str].
    destruct (String.eqb t "") eqn:E; [apply String.eqb_eq in E; contradiction|].
    cbn [negb]. rewrite Et.
    change ("::[" ++ s ++ "]") with (String ":" (String ":" ("[" ++ s ++ "]"))).
    rewrite (replace_leading_colons ("[" ++ s ++ "]")).
    rewrite (replace_absent "::" "" _ (plain_no_colons _ Hw)).
    rewrite (replace_absent " " "" _ (plain_no_blank _ Hw)). reflexivity. }
  split; [|split; [exact N2|split]].
  - rewrite (normalize_plain s H Hne), Hb. reflexivity.
  - apply N3; [|discriminate]. unfold PyStr.strip.
    rewrite (lstrip_no_space _ Hs). apply rstrip_no_space, Hs.
  - apply N3; [|discriminate]. unfold PyStr.strip.
    assert (A : " ::[" ++ s ++ "] " = String " " (("::[" ++ s ++ "]") ++ " ")).
    { cbn [append]. do 4 f_equal. clear. induction s as [|c s IH]; [reflexivity|].
      cbn [append]. f_equal. exact IH. }
    rewrite A. cbn [PyStr.lstrip]. change (PyStr.isspace " ") with true. cbn iota.
    assert (L : PyStr.lstrip (("::[" ++ s ++ "]") ++ " ") = ("::[" ++ s ++ "]") ++ " ")
      by reflexivity.
    rewrite L. apply rstrip_trailing_blank, Hs.
Qed.

(** The device of the docstring: [P1_NH3_PLC] in its four spellings. *)
Lemma normalize_spellings_agree_witness :
  MultiReadWrite.normalize_plc_name (PyStr "P1_NH3_PLC") = Some "[P1_NH3_PLC]" /\
  MultiReadWrite.normalize_plc_name (PyStr "[P1_NH3_PLC]") = Some "[P1_NH3_PLC]" /\
  MultiReadWrite.normalize_plc_name (PyStr "::[P1_NH3_PLC]") = Some "[P1_NH3_PLC]" /\
  MultiReadWrite.normalize_plc_name (PyStr " ::[P1_NH3_PLC] ") = Some "[P1_NH3_PLC]".
Proof.
  refine (normalize_spellings_agree "P1_NH3_PLC" eq_refl _ eq_refl). discriminate.
Defined.

(* ================================================================== *)
(** * The retry loop of the readers *)
(* ================================================================== *)

Section RetryFacts.
Import PyStr Dict MultiReadWrite.

Lemma slept_app (ev1 ev2 : list event) : slept (ev1 ++ ev2) = (slept ev1 + slept ev2)%Z.
Proof.
  induction ev1 as [|e ev1 IH]; [reflexivity|].
  destruct e; cbn [app slept]; rewrite ?IH; lia.
Qed.

(** After [k] attempts that raise and whose error lines [log] prints,
    attempt [k] ends the loop of [read_logix]: with its responses when it
    returns, with the exception of [log] when it raises and [log] raises
    on its error line. *)
Lemma read_logix_from_stops lg driver ip tag_list m8 retries (k : nat) :
  forall attempt left,
    (forall j, j < k -> exists e u,
       driver (attempt + j) (map tag_name tag_list) = Raises e /\
       lg ("[ERROR][Logix " ++ ip ++ "] " ++ attempt_text (attempt + j) retries ++
           " → " ++ e) = Returns u) ->
    k < left ->
    let r := read_logix_from lg driver ip tag_list m8 retries attempt left in
    (forall resp_list,
       driver (attempt + k) (map tag_name tag_list) = Returns resp_list ->
       fst r = Returns
                 (map (fun '(r, t) =>
                         {| value := lx_Value r; status := lx_Status r; tag := t |})
                      (combine resp_list tag_list)) /\
       read_attempts (snd r) = S k /\ slept (snd r) = (200 * Z.of_nat k)%Z) /\
    (forall e e',
       driver (attempt + k) (map tag_name tag_list) = Raises e ->
       lg ("[ERROR][Logix " ++ ip ++ "] " ++ attempt_text (attempt + k) retries ++
           " → " ++ e) = Raises e' ->
       fst r = Raises e' /\
       read_attempts (snd r) = S k /\ slept (snd r) = (200 * Z.of_nat k)%Z).
Proof.
  induction k as [|k IH]; intros attempt left Hf Hl; cbv zeta.
  - destruct left as [|left]; [lia|]. cbn [read_logix_from].
    rewrite Nat.add_0_r. split.
    + intros resp_list Hr. rewrite Hr. cbn [fst snd]. repeat split.
    + intros e e' Hr He. rewrite Hr, He. cbn [fst snd]. repeat split.
  - destruct left as [|left]; [lia|]. cbn [read_logix_from].
    destruct (Hf 0 ltac:(lia)) as [e0 [u [D0 L0]]]. rewrite Nat.add_0_r in D0, L0.
    rewrite D0, L0.
    specialize (IH (S attempt) left). cbv zeta in IH.
    destruct IH as [A B].
    + intros j Hj. destruct (Hf (S j) ltac:(lia)) as [e1 [u1 [D1 L1]]].
      exists e1, u1. replace (S attempt + j) with (attempt + S j) by lia.
      split; assumption.
    + lia.
    + replace (attempt + S k) with (S attempt + k) by lia.
      destruct (read_logix_from lg driver ip tag_list m8 retries (S attempt) left)
        as [rs ev].
      cbn [fst snd] in *. split.
      * intros resp_list Hr. destruct (A resp_list Hr) as [R [At Sl]].
        split; [exact R|]. split.
        -- unfold read_attempts in *. cbn. rewrite At. reflexivity.
        -- cbn [slept]. rewrite Sl. lia.
      * intros e e' Hr He. destruct (B e e' Hr He) as [R [At Sl]].
        split; [exact R|]. split.
        -- unfold read_attempts in *. cbn. rewrite At. reflexivity.
        -- cbn [slept]. rewrite Sl. lia.
Qed.

Lemma read_micro_logix_from_stops lg driver ip tag_list retries (k : nat) :
  forall attempt left,
    (forall j, j < k -> exists e u,
       driver (attempt + j) (map tag_name tag_list) = Raises e /\
       lg ("[ERROR][MicroLogix " ++ ip ++ "] " ++ attempt_text (attempt + j) retries ++
           " → " ++ e) = Returns u) ->
    k < left ->
    let r := read_micro_logix_from lg driver ip tag_list retries attempt left in
    (forall resp,
       driver (attempt + k) (map tag_name tag_list) = Returns resp ->
       fst r = Returns
                 (map (fun '(r, t) =>
                         {| value := slc_value r;
                            status := if negb (truthy (slc_error r)) then "OK"
                                      else py_str (slc_error r);
                            tag := t |})
                      (combine (match resp with SlcList l => l | SlcOne t => [t] end)
                               tag_list)) /\
       read_attempts (snd r) = S k /\ slept (snd r) = (200 * Z.of_nat k)%Z) /\
    (forall e e',
       driver (attempt + k) (map tag_name tag_list) = Raises e ->
       lg ("[ERROR][MicroLogix " ++ ip ++ "] " ++ attempt_text (attempt + k) retries ++
           " → " ++ e) = Raises e' ->
       fst r = Raises e' /\
       read_attempts (snd r) = S k /\ slept (snd r) = (200 * Z.of_nat k)%Z).
Proof.
  induction k as [|k IH]; intros attempt left Hf Hl; cbv zeta.
  - destruct left as [|left]; [lia|]. cbn [read_micro_logix_from].
    rewrite Nat.add_0_r. split.
    + intros resp Hr. rewrite Hr. cbn [fst snd]. repeat split.
    + intros e e' Hr He. rewrite Hr, He. cbn [fst snd]. repeat split.
  - destruct left as [|left]; [lia|]. cbn [read_micro_logix_from].
    destruct (Hf 0 ltac:(lia)) as [e0 [u [D0 L0]]]. rewrite Nat.add_0_r in D0, L0.
    rewrite D0, L0.
    specialize (IH (S attempt) left). cbv zeta in IH.
    destruct IH as [A B].
    + intros j Hj. destruct (Hf (S j) ltac:(lia)) as [e1 [u1 [D1 L1]]].
      exists e1, u1. replace (S attempt + j) with (attempt + S j) by lia.
      split; assumption.
    + lia.
    + replace (attempt + S k) with (S attempt + k) by lia.
      destruct (read_micro_logix_from lg driver ip tag_list retries (S attempt) left)
        as [rs ev].
      cbn [fst snd] in *. split.
      * intros resp Hr. destruct (A resp Hr) as [R [At Sl]].
        split; [exact R|]. split.
        -- unfold read_attempts in *. cbn. rewrite At. reflexivity.
        -- cbn [slept]. rewrite Sl. lia.
      * intros e e' Hr He. destruct (B e e' Hr He) as [R [At Sl]].
        split; [exact R|]. split.
        -- unfold read_attempts in *. cbn. rewrite At. reflexivity.
        -- cbn [slept]. rewrite Sl. lia.
Qed.

End RetryFacts.

(** X8: a reader ends at the first attempt that does not raise, or at the
    first failed attempt whose error line [log] cannot print.  When the
    attempts 0 .. k-1 raise and [log] returns for their error lines, with k
    less than [retries], [read_logix] and [read_micro_logix] make exactly
    k+1 attempts and sleep 0.2 s after each of the k failures; when attempt
    k returns they pair its responses with the tags in order (for the
    MicroLogix family the status is "OK" when [r.error] is falsy and the
    text of the error otherwise); when attempt k raises and [log] raises
    for its error line, that exception leaves the reader. *)
Theorem readers_return_first_success (lg : MultiReadWrite.logger) (ip : string)
    (tag_list : list tag_info) (retries k : nat) :
  k < retries ->
  (forall driver m8,
     (forall j, j < k -> exists e u,
        driver m8 j (map tag_name tag_list) = Raises e /\
        lg ("[ERROR][Logix " ++ ip ++ "] " ++ MultiReadWrite.attempt_text j retries ++
            " → " ++ e) = Returns u) ->
     let r := MultiReadWrite.read_logix lg driver ip tag_list m8 retries in
     (forall resp_list,
        driver m8 k (map tag_name tag_list) = Returns resp_list ->
        fst r = Returns
                  (map (fun '(r, t) =>
                          {| value := MultiReadWrite.lx_Value r;
                             status := MultiReadWrite.lx_Status r; tag := t |})
                       (combine resp_list tag_list)) /\
        MultiReadWrite.read_attempts (snd r) = S k /\
        MultiReadWrite.slept (snd r) = (200 * Z.of_nat k)%Z) /\
     (forall e e',
        driver m8 k (map tag_name tag_list) = Raises e ->
        lg ("[ERROR][Logix " ++ ip ++ "] " ++ MultiReadWrite.attempt_text k retries ++
            " → " ++ e) = Raises e' ->
        fst r = Raises e' /\
        MultiReadWrite.read_attempts (snd r) = S k /\
        MultiReadWrite.slept (snd r) = (200 * Z.of_nat k)%Z)) /\
  (forall driver,
     (forall j, j < k -> exists e u,
        driver j (map tag_name tag_list) = Raises e /\
        lg ("[ERROR][MicroLogix " ++ ip ++ "] " ++ MultiReadWrite.attempt_text j retries ++
            " → " ++ e) = Returns u) ->
     let r := MultiReadWrite.read_micro_logix lg driver ip tag_list retries in
     (forall resp,
        driver k (map tag_name tag_list) = Returns resp ->
        fst r = Returns
                  (map (fun '(r, t) =>
                          {| value := MultiReadWrite.slc_value r;
                             status := if negb (truthy (MultiReadWrite.slc_error r))
                                       then "OK"
                                       else py_str (MultiReadWrite.slc_error r);
                             tag := t |})
                       (combine (match resp with
                                 | MultiReadWrite.SlcList l => l
                                 | MultiReadWrite.SlcOne t => [t]
                                 end) tag_list)) /\
        MultiReadWrite.read_attempts (snd r) = S k /\
        MultiReadWrite.slept (snd r) = (200 * Z.of_nat k)%Z) /\
     (forall e e',
        driver k (map tag_name tag_list) = Raises e ->
        lg ("[ERROR][MicroLogix " ++ ip ++ "] " ++ MultiReadWrite.attempt_text k retries ++
            " → " ++ e) = Raises e' ->
        fst r = Raises e' /\
        MultiReadWrite.read_attempts (snd r) = S k /\
        MultiReadWrite.slept (snd r) = (200 * Z.of_nat k)%Z)).
Proof.
  intros Hk. split.
  - intros driver m8 Hf. unfold MultiReadWrite.read_logix.
    exact (read_logix_from_stops lg (driver m8) ip tag_list m8 retries k 0 retries Hf Hk).
  - intros driver Hf. unfold MultiReadWrite.read_micro_logix.
    exact (read_micro_logix_from_stops lg driver ip tag_list retries k 0 retries Hf Hk).
Qed.

(** A MicroLogix that raises twice and answers the third attempt, one tag
    with an error text, before a standard output that prints every line. *)
Lemma readers_return_first_success_witness :
  let driver (attempt : nat) (addrs : list string) :=
    if (attempt <? 2)%nat then Raises "timed out"
    else Returns (MultiReadWrite.SlcOne
                    {| MultiReadWrite.slc_value := PyNone;
                       MultiReadWrite.slc_error := PyStr "Illegal address" |}) in
  let r := MultiReadWrite.read_micro_logix (fun _ => Returns tt) driver "10.0.0.2"
             [Scenario.tagB1] 3 in
  fst r = Returns [{| value := PyNone; status := "Illegal address"; tag := Scenario.tagB1 |}] /\
  MultiReadWrite.read_attempts (snd r) = 3 /\
  MultiReadWrite.slept (snd r) = 400%Z.
Proof.
  cbv zeta.
  refine (proj1 (proj2 (readers_return_first_success (fun _ => Returns tt) "10.0.0.2"
                          [Scenario.tagB1] 3 2 _) _ _) _ eq_refl).
  - lia.
  - intros j Hj. exists "timed out", tt.
    destruct j as [|[|j]]; [split; reflexivity | split; reflexivity | lia].
Defined.

(* ================================================================== *)
(** * The worksheet after the write loop *)
(* ================================================================== *)

Section WorksheetFacts.
Import Dict MultiReadWrite.

Lemma cell_get_excel_write_other now (r : result) (rw cl : nat) (s : sheet) :
  row (tag_of r) <> rw \/ cl < COL_TAGVALUE \/ COL_TIMESTAMP < cl ->
  cell_get rw cl (excel_write now r s) = cell_get rw cl s.
Proof.
  unfold excel_write, cell_set, tag_of, COL_TAGVALUE, COL_STATUS, COL_TIMESTAMP.
  intros H. cbn [cell_get].
  destruct (Nat.eqb_spec (row (tag (got r))) rw) as [E|E]; cbn [andb]; [|reflexivity].
  destruct H as [H|H]; [contradiction|].
  destruct (Nat.eqb_spec 8 cl); [lia|].
  destruct (Nat.eqb_spec 7 cl); [lia|].
  destruct (Nat.eqb_spec 6 cl); [lia|].
  reflexivity.
Qed.

Lemma excel_writes_other now (written : list result) (rw cl : nat) :
  forall s,
    (forall r, In r written ->
       row (tag_of r) <> rw \/ cl < COL_TAGVALUE \/ COL_TIMESTAMP < cl) ->
    cell_get rw cl (excel_writes now written s) = cell_get rw cl s.
Proof.
  induction written as [|r written IH]; intros s H; [reflexivity|].
  unfold excel_writes. cbn [fold_left]. fold (excel_writes now written (excel_write now r s)).
  rewrite IH by (intros x Hx; apply H; right; exact Hx).
  apply cell_get_excel_write_other. apply H. left. reflexivity.
Qed.

Lemma excel_writes_app now (l1 l2 : list result) (s : sheet) :
  excel_writes now (l1 ++ l2) s = excel_writes now l2 (excel_writes now l1 s).
Proof. unfold excel_writes. apply fold_left_app. Qed.

(** The cells of a row hold what the last result for that row put there. *)
Lemma excel_writes_last now (pre post : list result) (r : result) (s : sheet) :
  (forall x, In x post -> row (tag_of x) <> row (tag_of r)) ->
  let s' := excel_writes now (pre ++ r :: post) s in
  cell_get (row (tag_of r)) COL_TAGVALUE s' = Some (CVal (excel_value (value (got r)))) /\
  cell_get (row (tag_of r)) COL_STATUS s' = Some (CVal (PyStr (status (got r)))) /\
  cell_get (row (tag_of r)) COL_TIMESTAMP s' = Some (CStamp now).
Proof.
  intros H. cbv zeta. rewrite excel_writes_app.
  change (excel_writes now (r :: post) (excel_writes now pre s))
    with (excel_writes now post (excel_write now r (excel_writes now pre s))).
  rewrite !excel_writes_other by (intros x Hx; left; apply H, Hx).
  unfold excel_write, cell_set, tag_of, COL_TAGVALUE, COL_STATUS, COL_TIMESTAMP.
  cbn [cell_get]. rewrite Nat.eqb_refl. cbn. repeat split.
Qed.

Lemma write_results_no_save ex now k rs s conn :
  ~ In EvSave (snd (fst (write_results ex now k rs s conn))).
Proof.
  revert k s conn. induction rs as [|r rs IH]; intros k s conn;
    cbn [write_results]; [intros []|].
  destruct (ex k (sql_row now r)).
  - specialize (IH (S k) (excel_write now r s) (conn ++ [sql_row now r])%list).
    destruct (write_results ex now (S k) rs _ _) as [[[ws' conn'] ev] f].
    cbn [fst snd] in *. intros [H|[H|H]]; [discriminate H | discriminate H | exact (IH H)].
  - cbn [fst snd]. intros [H|[]]. discriminate H.
Qed.

(** The workbook file after a pass: written at its end, or not touched. *)
Lemma cycle_saved environ plcs tag_map LOOP_INTERVAL (w : world) (st : state) :
  let r := cycle environ plcs tag_map LOOP_INTERVAL w st in
  (is_looping (fst r) = true ->
   saved (state_of (fst r)) = ws (state_of (fst r)) /\
   last_restart_date (state_of (fst r)) = last_restart_date st) /\
  (is_looping (fst r) = false -> saved (state_of (fst r)) = saved st) /\
  (In EvSave (snd r) -> In EvCommit (snd r)).
Proof.
  cbv zeta. unfold cycle.
  assert (P : Forall quiet
                (purge_old_logs (now_purge w) (os_listdir w) (os_remove w) 7 ++
                 [EvLog "========== NEW SCAN =========="; EvConnect (conn_str environ)])).
  { apply (proj2 (Forall_app _ _ _)). split.
    - apply purge_no_execv.
    - repeat constructor. }
  assert (Q : forall ev, Forall quiet ev -> ~ In EvSave ev).
  { intros ev H Hin. rewrite Forall_forall in H. exact (H _ Hin). }
  destruct (restart_due (now_check w) (last_restart_date st)).
  - destruct (os_execv w); cbn [fst snd state_of is_looping saved];
      (split; [discriminate|]); (split; [reflexivity|]);
      intros [H|[H|[H|[]]]]; discriminate H.
  - unfold get_sql_connection.
    destruct (pyodbc_connect w (conn_str environ)).
    + pose proof (write_results_no_save (cursor_execute w) (now_scan w) 0
                    (merged plcs tag_map w) (ws st) []) as Nw.
      destruct (write_results (cursor_execute w) (now_scan w) 0
                  (merged plcs tag_map w) (ws st) []) as [[[ws' conn] evw] fault].
      cbn [fst snd] in Nw.
      assert (Ns : ~ In EvSave
                     (((purge_old_logs (now_purge w) (os_listdir w) (os_remove w) 7 ++
                        [EvLog "========== NEW SCAN =========="; EvConnect (conn_str environ)]) ++
                       snd (spawn (device w) tag_map plcs)) ++ evw)).
      { intros Hin. apply in_app_or in Hin. destruct Hin as [Hin|Hin]; [|exact (Nw Hin)].
        apply in_app_or in Hin. destruct Hin as [Hin|Hin].
        - exact (Q _ P Hin).
        - exact (Q _ (spawn_no_execv _ _ _) Hin). }
      destruct fault as [e|].
      * cbn [fst snd state_of is_looping saved with_ws].
        split; [discriminate|]. split; [reflexivity|]. intros Hin. destruct (Ns Hin).
      * destruct (conn_commit w).
        -- destruct (wb_save w); cbn [fst snd state_of is_looping saved ws last_restart_date].
           ++ split; [intros _; split; reflexivity|]. split; [discriminate|].
              intros _. apply in_or_app. right. left. reflexivity.
           ++ split; [discriminate|]. split; [reflexivity|].
              intros _. apply in_or_app. right. left. reflexivity.
        -- cbn [fst snd state_of is_looping saved with_ws].
           split; [discriminate|]. split; [reflexivity|].
           intros _. apply in_or_app. right. left. reflexivity.
    + cbn [fst snd state_of is_looping saved].
      split; [discriminate|]. split; [reflexivity|].
      intros Hin. destruct (Q _ P Hin).
Qed.

End WorksheetFacts.

(** X9: a pass assigns no cell of the worksheet outside the value, status
    and time stamp columns (6 to 8) of the rows its results are about: the
    catalog columns 1 to 5 and every other cell read as before the pass,
    however the pass ends. *)
Theorem worksheet_only_result_cells (environ : list (string * string))
    (plcs : Dict.dict plc_info) (tag_map : Dict.dict (list tag_info))
    (LOOP_INTERVAL : Z) (w : MultiReadWrite.world) (st : MultiReadWrite.state)
    (rw cl : nat) :
  let st' := MultiReadWrite.state_of
               (fst (MultiReadWrite.cycle environ plcs tag_map LOOP_INTERVAL w st)) in
  (cl < MultiReadWrite.COL_TAGVALUE \/ MultiReadWrite.COL_TIMESTAMP < cl \/
   (forall r, In r (MultiReadWrite.merged plcs tag_map w) ->
      row (MultiReadWrite.tag_of r) <> rw)) ->
  MultiReadWrite.cell_get rw cl (MultiReadWrite.ws st')
  = MultiReadWrite.cell_get rw cl (MultiReadWrite.ws st).
Proof.
  intros st' H. subst st'.
  destruct (cycle_sinks environ plcs tag_map LOOP_INTERVAL w st)
    as [written [rest [E [Hws _]]]].
  rewrite Hws. apply excel_writes_other. intros r Hr.
  destruct H as [H|[H|H]]; [right; left; exact H | right; right; exact H |].
  left. apply H. rewrite E. apply in_or_app. left. exact Hr.
Qed.

(** The tag-name cell of row 2 after the calm pass of the scenario. *)
Lemma worksheet_only_result_cells_witness :
  let plcs := fst (MultiReadWrite.load_plc_config_from_env Scenario.environ) in
  let sheet0 := MultiReadWrite.cell_set 2 MultiReadWrite.COL_TAGNAME
                  (MultiReadWrite.CVal (PyStr "P2_FLOW")) [] in
  let st := MultiReadWrite.with_ws Scenario.start sheet0 in
  MultiReadWrite.cell_get 2 MultiReadWrite.COL_TAGNAME
    (MultiReadWrite.ws
       (MultiReadWrite.state_of
          (fst (MultiReadWrite.cycle Scenario.environ plcs Scenario.tag_map 5
                  Scenario.calm st))))
  = Some (MultiReadWrite.CVal (PyStr "P2_FLOW")).
Proof.
  cbv zeta.
  refine (worksheet_only_result_cells Scenario.environ _ Scenario.tag_map 5
            Scenario.calm _ 2 MultiReadWrite.COL_TAGNAME _).
  left. unfold MultiReadWrite.COL_TAGNAME, MultiReadWrite.COL_TAGVALUE. lia.
Defined.

(** X10: after a pass that completes, the worksheet in memory and the
    saved workbook file agree, and the three result cells of a tag's row
    hold the value (a bool as 1 or 0), the status and the scan time of the
    last result of the sorted list that is about that row. *)
Theorem worksheet_holds_last_result (environ : list (string * string))
    (plcs : Dict.dict plc_info) (tag_map : Dict.dict (list tag_info))
    (LOOP_INTERVAL : Z) (w : MultiReadWrite.world) (st : MultiReadWrite.state)
    (pre post : list result) (r : result) :
  let o := fst (MultiReadWrite.cycle environ plcs tag_map LOOP_INTERVAL w st) in
  MultiReadWrite.is_looping o = true ->
  MultiReadWrite.merged plcs tag_map w = (pre ++ r :: post)%list ->
  (forall x, In x post -> row (MultiReadWrite.tag_of x) <> row (MultiReadWrite.tag_of r)) ->
  MultiReadWrite.saved (MultiReadWrite.state_of o) = MultiReadWrite.ws (MultiReadWrite.state_of o) /\
  MultiReadWrite.cell_get (row (MultiReadWrite.tag_of r)) MultiReadWrite.COL_TAGVALUE
    (MultiReadWrite.saved (MultiReadWrite.state_of o))
  = Some (MultiReadWrite.CVal (MultiReadWrite.excel_value (value (got r)))) /\
  MultiReadWrite.cell_get (row (MultiReadWrite.tag_of r)) MultiReadWrite.COL_STATUS
    (MultiReadWrite.saved (MultiReadWrite.state_of o))
  = Some (MultiReadWrite.CVal (PyStr (status (got r)))) /\
  MultiReadWrite.cell_get (row (MultiReadWrite.tag_of r)) MultiReadWrite.COL_TIMESTAMP
    (MultiReadWrite.saved (MultiReadWrite.state_of o))
  = Some (MultiReadWrite.CStamp (MultiReadWrite.now_scan w)).
Proof.
  intros o L E H. subst o.
  destruct (cycle_saved environ plcs tag_map LOOP_INTERVAL w st) as [Hs _].
  destruct (Hs L) as [Sv _]. split; [exact Sv|]. rewrite Sv.
  destruct (cycle_sinks environ plcs tag_map LOOP_INTERVAL w st)
    as [written [rest [E' [Hws [_ [Hl _]]]]]].
  rewrite (Hl L), app_nil_r in E'. rewrite Hws, <- E', E.
  apply excel_writes_last. exact H.
Qed.

(** The calm pass of the scenario: device B is silent, so row 4 reads
    OFFLINE with no value, in memory and in the file. *)
Lemma worksheet_holds_last_result_witness :
  let plcs := fst (MultiReadWrite.load_plc_config_from_env Scenario.environ) in
  let o := fst (MultiReadWrite.cycle Scenario.environ plcs Scenario.tag_map 5
                  Scenario.calm Scenario.start) in
  MultiReadWrite.saved (MultiReadWrite.state_of o) = MultiReadWrite.ws (MultiReadWrite.state_of o) /\
  MultiReadWrite.cell_get 4 MultiReadWrite.COL_TAGVALUE
    (MultiReadWrite.saved (MultiReadWrite.state_of o))
  = Some (MultiReadWrite.CVal PyNone) /\
  MultiReadWrite.cell_get 4 MultiReadWrite.COL_STATUS
    (MultiReadWrite.saved (MultiReadWrite.state_of o))
  = Some (MultiReadWrite.CVal (PyStr "OFFLINE")) /\
  MultiReadWrite.cell_get 4 MultiReadWrite.COL_TIMESTAMP
    (MultiReadWrite.saved (MultiReadWrite.state_of o))
  = Some (MultiReadWrite.CStamp Scenario.noon).
Proof.
  cbv zeta.
  refine (worksheet_holds_last_result Scenario.environ _ Scenario.tag_map 5
            Scenario.calm Scenario.start []
            [MultiReadWrite.stamped (Some "[A]") (PyObj "3.2" true) "OK" Scenario.tagA1;
             MultiReadWrite.stamped (Some "[A]") (PyObj "3.2" true) "OK" Scenario.tagA2]
            (MultiReadWrite.stamped (Some "[B]") PyNone "OFFLINE" Scenario.tagB1)
            _ _ _).
  - vm_compute. reflexivity.
  - vm_compute. reflexivity.
  - intros x [<-|[<-|[]]]; cbn; discriminate.
Defined.

(* ================================================================== *)
(** * A pass stopped by an INSERT *)
(* ================================================================== *)

Section FaultFacts.
Import Dict MultiReadWrite.

(** The write loop when the [INSERT] of the result at position [i] is the
    first that raises: the cells of that result are assigned already. *)
Lemma write_results_fault ex now (i : nat) :
  forall k rs s conn x e,
    nth_error rs i = Some x ->
    (forall j y, j < i -> nth_error rs j = Some y ->
       exists u, ex (k + j) (sql_row now y) = Returns u) ->
    ex (k + i) (sql_row now x) = Raises e ->
    exists ev,
      write_results ex now k rs s conn
      = (excel_writes now (firstn (S i) rs) s,
         (conn ++ map (sql_row now) (firstn i rs))%list, ev, Some e) /\
      executed ev = map (sql_row now) (firstn (S i) rs).
Proof.
  induction i as [|i IH]; intros k rs s conn x e Hx Hb He.
  - destruct rs as [|r rs]; [discriminate Hx|]. cbn in Hx. injection Hx as ->.
    rewrite Nat.add_0_r in He. cbn [write_results]. rewrite He.
    exists [EvExecute (sql_row now x)]. cbn [firstn map]. rewrite app_nil_r.
    split; reflexivity.
  - destruct rs as [|r rs]; [discriminate Hx|]. cbn [nth_error] in Hx.
    cbn [write_results].
    destruct (Hb 0 r ltac:(lia) eq_refl) as [u Hu]. rewrite Nat.add_0_r in Hu.
    rewrite Hu.
    destruct (IH (S k) rs (excel_write now r s) (conn ++ [sql_row now r])%list x e Hx)
      as [ev [W Ex]].
    + intros j y Hj Hy. destruct (Hb (S j) y ltac:(lia) Hy) as [u' Hu'].
      exists u'. rewrite <- Hu'. f_equal. lia.
    + rewrite <- He. f_equal. lia.
    + rewrite W. eexists. split.
      * cbn [firstn map]. rewrite <- app_assoc. reflexivity.
      * cbn [executed]. rewrite Ex. reflexivity.
Qed.

End FaultFacts.

(** X11: when the [INSERT] of the result at position [i] of the sorted
    list is the first that raises, the exception ends the pass and the
    process; the worksheet in memory then holds the cells of the results
    0 to [i], the failing one included, while the workbook file and the
    table are as before the pass, and neither [commit] nor [save] is
    called. *)
Theorem insert_fault_leaves_sheet_ahead (environ : list (string * string))
    (plcs : Dict.dict plc_info) (tag_map : Dict.dict (list tag_info))
    (LOOP_INTERVAL : Z) (w : MultiReadWrite.world) (st : MultiReadWrite.state)
    (i : nat) (x : result) (e : string) :
  let all := MultiReadWrite.merged plcs tag_map w in
  let now := MultiReadWrite.now_scan w in
  let r := MultiReadWrite.cycle environ plcs tag_map LOOP_INTERVAL w st in
  MultiReadWrite.restart_due (MultiReadWrite.now_check w)
    (MultiReadWrite.last_restart_date st) = false ->
  (exists u, MultiReadWrite.pyodbc_connect w (MultiReadWrite.conn_str environ) = Returns u) ->
  nth_error all i = Some x ->
  (forall j y, j < i -> nth_error all j = Some y ->
     exists u, MultiReadWrite.cursor_execute w j (MultiReadWrite.sql_row now y) = Returns u) ->
  MultiReadWrite.cursor_execute w i (MultiReadWrite.sql_row now x) = Raises e ->
  fst r = MultiReadWrite.Died e
            {| MultiReadWrite.last_restart_date := MultiReadWrite.last_restart_date st;
               MultiReadWrite.ws :=
                 MultiReadWrite.excel_writes now (firstn (S i) all) (MultiReadWrite.ws st);
               MultiReadWrite.saved := MultiReadWrite.saved st;
               MultiReadWrite.db := MultiReadWrite.db st |} /\
  MultiReadWrite.executed (snd r) = map (MultiReadWrite.sql_row now) (firstn (S i) all) /\
  ~ In EvCommit (snd r) /\ ~ In EvSave (snd r).
Proof.
  intros all now r R [u C] Hx Hb He.
  destruct (write_results_fault (MultiReadWrite.cursor_execute w) now i 0 all
              (MultiReadWrite.ws st) [] x e Hx Hb He) as [ev [W Ex]].
  pose proof (write_results_no_commit (MultiReadWrite.cursor_execute w) now 0 all
                (MultiReadWrite.ws st) []) as Nc.
  pose proof (write_results_no_save (MultiReadWrite.cursor_execute w) now 0 all
                (MultiReadWrite.ws st) []) as Ns.
  rewrite W in Nc, Ns. cbn [fst snd] in Nc, Ns.
  assert (P : Forall MultiReadWrite.quiet
                (MultiReadWrite.purge_old_logs (MultiReadWrite.now_purge w)
                   (MultiReadWrite.os_listdir w) (MultiReadWrite.os_remove w) 7 ++
                 [EvLog "========== NEW SCAN ==========";
                  EvConnect (MultiReadWrite.conn_str environ)])).
  { apply (proj2 (Forall_app _ _ _)). split.
    - apply purge_no_execv.
    - repeat constructor. }
  pose proof (spawn_no_execv (MultiReadWrite.device w) tag_map plcs) as S.
  assert (Q : forall l, Forall MultiReadWrite.quiet l -> ~ In EvSave l).
  { intros l H Hin. rewrite Forall_forall in H. exact (H _ Hin). }
  subst r. unfold MultiReadWrite.cycle. rewrite R.
  unfold MultiReadWrite.get_sql_connection. rewrite C.
  fold all now. rewrite W. cbn [fst snd MultiReadWrite.with_ws app].
  split; [reflexivity|]. split.
  - rewrite (executed_app _ ev), (executed_app _ (snd _)).
    rewrite (executed_none _ P), (executed_none _ S). exact Ex.
  - split; intros Hin; apply in_app_or in Hin; destruct Hin as [Hin|Hin];
      try (apply in_app_or in Hin; destruct Hin as [Hin|Hin]).
    + exact (quiet_no_commit _ P Hin).
    + exact (quiet_no_commit _ S Hin).
    + exact (Nc Hin).
    + exact (Q _ P Hin).
    + exact (Q _ S Hin).
    + exact (Ns Hin).
Qed.

(** The pass of the scenario whose second [INSERT] raises: rows 2 and 3 of
    the worksheet are assigned, nothing is saved or committed. *)
Lemma insert_fault_leaves_sheet_ahead_witness :
  let plcs := fst (MultiReadWrite.load_plc_config_from_env Scenario.environ) in
  let a1 := MultiReadWrite.stamped (Some "[A]") (PyObj "3.2" true) "OK" Scenario.tagA1 in
  let b1 := MultiReadWrite.stamped (Some "[B]") PyNone "OFFLINE" Scenario.tagB1 in
  let r := MultiReadWrite.cycle Scenario.environ plcs Scenario.tag_map 5
             Scenario.second_insert_fails Scenario.start in
  fst r = MultiReadWrite.Died "23000 constraint"
            {| MultiReadWrite.last_restart_date := None;
               MultiReadWrite.ws :=
                 MultiReadWrite.excel_writes Scenario.noon [b1; a1] [];
               MultiReadWrite.saved := [];
               MultiReadWrite.db := [] |} /\
  MultiReadWrite.executed (snd r)
  = map (MultiReadWrite.sql_row Scenario.noon) [b1; a1] /\
  ~ In EvCommit (snd r) /\ ~ In EvSave (snd r).
Proof.
  cbv zeta.
  refine (insert_fault_leaves_sheet_ahead Scenario.environ _ Scenario.tag_map 5
            Scenario.second_insert_fails Scenario.start 1
            (MultiReadWrite.stamped (Some "[A]") (PyObj "3.2" true) "OK" Scenario.tagA1)
            "23000 constraint" eq_refl (ex_intro _ tt eq_refl) _ _ eq_refl).
  - vm_compute. reflexivity.
  - intros j y Hj _. exists tt. destruct j as [|j]; [reflexivity | lia].
Defined.

(* ================================================================== *)
(** * The table over a run of the loop *)
(* ================================================================== *)

Section RunFacts.
Import Dict MultiReadWrite.

Variable environ : list (string * string).
Variable plcs : dict plc_info.
Variable tag_map : dict (list tag_info).
Variable LOOP_INTERVAL : Z.

Lemma merged_length (w : world) :
  all_answer (device w) plcs tag_map -> all_logged (device w) plcs ->
  List.length (merged plcs tag_map w) = catalog_size plcs tag_map.
Proof.
  intros H L. unfold merged, bucket.
  rewrite (Permutation_length (sorted_by_index_perm _)).
  rewrite (Permutation_length (run_schedule_perm _ _)).
  apply spawn_length; assumption.
Qed.

Lemma merged_length_le (w : world) :
  all_answer (device w) plcs tag_map ->
  List.length (merged plcs tag_map w) <= catalog_size plcs tag_map.
Proof.
  intros H. unfold merged, bucket.
  rewrite (Permutation_length (sorted_by_index_perm _)).
  rewrite (Permutation_length (run_schedule_perm _ _)).
  apply spawn_length_le, H.
Qed.

Lemma main_loop_from_whole_passes (script : list world) :
  forall st,
    let R := main_loop_from environ plcs tag_map LOOP_INTERVAL script st in
    let rows w := map (sql_row (now_scan w)) (merged plcs tag_map w) in
    (exists n, n <= List.length script /\
       db (state_of (fst R)) = (db st ++ concat (map rows (firstn n script)))%list) /\
    (is_looping (fst R) = true ->
     db (state_of (fst R)) = (db st ++ concat (map rows script))%list /\
     (script <> [] \/ saved st = ws st -> saved (state_of (fst R)) = ws (state_of (fst R))) /\
     last_restart_date (state_of (fst R)) = last_restart_date st).
Proof.
  induction script as [|w script IH]; intros st; cbv zeta.
  - cbn [main_loop_from fst state_of is_looping map concat length].
    split.
    + exists 0. split; [lia|]. cbn. rewrite app_nil_r. reflexivity.
    + intros _. rewrite app_nil_r. split; [reflexivity|]. split; [|reflexivity].
      intros [H|H]; [congruence | exact H].
  - cbn [main_loop_from].
    destruct (cycle_sinks environ plcs tag_map LOOP_INTERVAL w st)
      as [written [rest [_ [_ [_ [_ [_ [Hd [Hl _]]]]]]]]].
    destruct (cycle_saved environ plcs tag_map LOOP_INTERVAL w st) as [Hs _].
    destruct (cycle environ plcs tag_map LOOP_INTERVAL w st) as [o ev].
    cbn [fst] in Hd, Hl, Hs.
    assert (Stop : ~ is_looping o = true ->
              exists n, n <= List.length (w :: script) /\
                db (state_of o)
                = (db st ++ concat (map (fun w0 => map (sql_row (now_scan w0))
                                                    (merged plcs tag_map w0))
                                      (firstn n (w :: script))))%list).
    { intros _. destruct Hd as [Hd|[_ Hd]].
      - exists 0. split; [cbn; lia|]. cbn. rewrite app_nil_r. exact Hd.
      - exists 1. split; [cbn; lia|]. cbn. rewrite app_nil_r. exact Hd. }
    destruct o as [st'|st'|e st'].
    + specialize (IH st'). cbv zeta in IH. destruct IH as [[n [Hn Hdb]] IHl].
      cbn [state_of is_looping] in Hl, Hs.
      specialize (Hl eq_refl). destruct (Hs eq_refl) as [Sv Lr].
      destruct (main_loop_from environ plcs tag_map LOOP_INTERVAL script st') as [o' ev'].
      cbn [fst] in *. split.
      * exists (S n). split; [cbn; lia|]. cbn [firstn map concat].
        rewrite Hdb, Hl, <- app_assoc. reflexivity.
      * intros L. destruct (IHl L) as [D [S' L']]. split; [|split].
        -- cbn [map concat]. rewrite D, Hl, <- app_assoc. reflexivity.
        -- intros _. apply S'. right. exact Sv.
        -- rewrite L'. exact Lr.
    + cbn [fst]. split; [apply Stop; discriminate | discriminate].
    + cbn [fst]. split; [apply Stop; discriminate | discriminate].
Qed.

End RunFacts.

(** X12: over any run of the loop the table only grows, and by whole
    passes in order: it holds the rows it had at the start followed by all
    rows of the first n passes, for some n.  While the loop is still
    running n is the number of passes made and the workbook file equals the
    worksheet in memory.  When the drivers answer every tag asked for, the
    table has then gained at most the catalog size times the number of
    passes, and exactly that when the [log] calls of the workers return. *)
Theorem table_holds_whole_passes (environ : list (string * string))
    (plcs : Dict.dict plc_info) (tag_map : Dict.dict (list tag_info))
    (LOOP_INTERVAL : Z) (script : list MultiReadWrite.world) (st : MultiReadWrite.state) :
  let R := MultiReadWrite.main_loop_from environ plcs tag_map LOOP_INTERVAL script st in
  let rows w := map (MultiReadWrite.sql_row (MultiReadWrite.now_scan w))
                    (MultiReadWrite.merged plcs tag_map w) in
  let final := MultiReadWrite.state_of (fst R) in
  (exists n, n <= List.length script /\
     MultiReadWrite.db final
     = (MultiReadWrite.db st ++ concat (map rows (firstn n script)))%list) /\
  (MultiReadWrite.is_looping (fst R) = true ->
   MultiReadWrite.db final = (MultiReadWrite.db st ++ concat (map rows script))%list /\
   (script <> [] -> MultiReadWrite.saved final = MultiReadWrite.ws final) /\
   ((forall w, In w script ->
       MultiReadWrite.all_answer (MultiReadWrite.device w) plcs tag_map) ->
    List.length (MultiReadWrite.db final)
    <= List.length (MultiReadWrite.db st)
       + List.length script * MultiReadWrite.catalog_size plcs tag_map /\
    ((forall w, In w script ->
        MultiReadWrite.all_logged (MultiReadWrite.device w) plcs) ->
     List.length (MultiReadWrite.db final)
     = List.length (MultiReadWrite.db st)
       + List.length script * MultiReadWrite.catalog_size plcs tag_map))).
Proof.
  intros R rows final.
  destruct (main_loop_from_whole_passes environ plcs tag_map LOOP_INTERVAL script st)
    as [Hn Hl].
  fold R in Hn, Hl. fold rows in Hn, Hl. fold final in Hn, Hl.
  split; [exact Hn|]. intros L. destruct (Hl L) as [D [S _]].
  split; [exact D|]. split; [intros N; apply S; left; exact N|].
  intros A. rewrite D, length_app. split.
  - apply Nat.add_le_mono_l.
    clear - A. induction script as [|w script IH]; [reflexivity|].
    cbn [map concat length Nat.mul]. rewrite length_app.
    apply Nat.add_le_mono.
    + unfold rows. rewrite length_map. apply merged_length_le, A. left. reflexivity.
    + apply IH. intros w' Hw'. apply A. right. exact Hw'.
  - intros G. f_equal.
    clear - A G. induction script as [|w script IH]; [reflexivity|].
    cbn [map concat length Nat.mul]. rewrite length_app, IH.
    + unfold rows. rewrite length_map, merged_length; [reflexivity | |].
      * apply A. left. reflexivity.
      * apply G. left. reflexivity.
    + intros w' Hw'. apply A. right. exact Hw'.
    + intros w' Hw'. apply G. right. exact Hw'.
Qed.

(** Two passes of the scenario, the second with the log of device A's
    worker failing: the loop goes on and the table holds 3 + 1 rows, fewer
    than twice the 3 tags of the catalog. *)
Remark dropped_tags_leave_fewer_rows :
  let plcs := fst (MultiReadWrite.load_plc_config_from_env Scenario.environ) in
  let R := MultiReadWrite.main_loop_from Scenario.environ plcs Scenario.tag_map 5
             [Scenario.calm; Scenario.log_fails] Scenario.start in
  MultiReadWrite.is_looping (fst R) = true /\
  List.length (MultiReadWrite.db (MultiReadWrite.state_of (fst R))) = 4.
Proof. cbv zeta. vm_compute. split; reflexivity. Qed.

(* ================================================================== *)
(** * The log file of the day and the retention sweep *)
(* ================================================================== *)

Section LogFileFacts.
Import PyStr Dict MultiReadWrite Strptime.

Lemma digit_char_digit (n : Z) :
  (0 <= n <= 9)%Z ->
  digit (digit_char n) = true /\
  Z.of_nat (nat_of_ascii (digit_char n) - 48) = n.
Proof.
  intros H.
  assert (T : forallb (fun k => digit (digit_char (Z.of_nat k)) &&
                                (Z.of_nat (nat_of_ascii (digit_char (Z.of_nat k)) - 48)
                                 =? Z.of_nat k)%Z)
                (seq 0 10) = true) by (vm_compute; reflexivity).
  rewrite forallb_forall in T.
  specialize (T (Z.to_nat n) ltac:(apply in_seq; lia)).
  rewrite Z2Nat.id in T by lia.
  apply andb_prop in T. destruct T as [T1 T2]. apply Z.eqb_eq in T2.
  split; assumption.
Qed.

(** The four digits of the year are the only way [%Y] matches them. *)
Lemma match_year (gs : list (list alt)) (c1 c2 c3 c4 : ascii) (rest : string) :
  digit c1 = true -> digit c2 = true -> digit c3 = true -> digit c4 = true ->
  match_groups (group_Y :: gs) (String c1 (String c2 (String c3 (String c4 rest))))
  = match match_groups gs rest with
    | Some (ms, r) => Some (String c1 (String c2 (String c3 (String c4 ""))) :: ms, r)
    | None => None
    end.
Proof.
  intros H1 H2 H3 H4. cbn [match_groups group_Y match_alt].
  rewrite H1, H2, H3, H4.
  destruct (match_groups gs rest) as [[ms r]|]; reflexivity.
Qed.

Lemma reads_back_all (m d : Z) :
  (1 <= m <= 12)%Z -> (1 <= d <= 31)%Z -> reads_back m d = true.
Proof.
  intros Hm Hd.
  assert (T : forallb (fun a => forallb (fun b => reads_back (Z.of_nat a) (Z.of_nat b))
                                  (seq 1 31)) (seq 1 12) = true)
    by (vm_compute; reflexivity).
  rewrite forallb_forall in T.
  specialize (T (Z.to_nat m)). rewrite forallb_forall in T.
  specialize (T ltac:(apply in_seq; lia) (Z.to_nat d) ltac:(apply in_seq; lia)).
  rewrite !Z2Nat.id in T by lia. exact T.
Qed.

(** [strptime] reads the date back that [strftime] wrote. *)
Lemma strptime_strftime (y m d : Z) :
  (1000 <= y <= 9999)%Z -> (1 <= m <= 12)%Z -> (1 <= d <= 31)%Z ->
  strptime_Ymd (strftime_Ymd y m d) = ymd2ord y m d.
Proof.
  intros Hy Hm Hd.
  pose proof (reads_back_all m d Hm Hd) as RB. unfold reads_back in RB.
  destruct (digit_char_digit (y / 1000)) as [D1 V1];
    [Z.div_mod_to_equations; lia|].
  destruct (digit_char_digit ((y / 100) mod 10)) as [D2 V2];
    [Z.div_mod_to_equations; lia|].
  destruct (digit_char_digit ((y / 10) mod 10)) as [D3 V3];
    [Z.div_mod_to_equations; lia|].
  destruct (digit_char_digit (y mod 10)) as [D4 V4];
    [Z.div_mod_to_equations; lia|].
  unfold strptime_Ymd, strftime_Ymd. rewrite (match_year _ _ _ _ _ _ D1 D2 D3 D4).
  destruct (match_groups [group_m; group_d] _) as [[[|ms [|ds [|]]] [|]]|];
    try discriminate RB.
  apply andb_prop in RB. destruct RB as [Em Ed].
  apply Z.eqb_eq in Em, Ed. rewrite Em, Ed. f_equal.
  cbn [int_of]. rewrite D1, D2, D3, D4, V1, V2, V3, V4.
  Z.div_mod_to_equations. lia.
Qed.

Lemma endswith_app_l (suf s t : string) :
  endswith suf t = true -> endswith suf (s ++ t) = true.
Proof.
  intros H. induction s as [|c s IH]; [exact H|].
  cbn [append endswith]. rewrite IH. apply orb_true_r.
Qed.

Lemma partition_date_log_file (y m d : Z) :
  partition_date ("plc_reader_" ++ strftime_Ymd y m d ++ ".log")
  = strptime_Ymd (strftime_Ymd y m d).
Proof.
  unfold strftime_Ymd.
  generalize (digit_char (y / 1000)) (digit_char ((y / 100) mod 10))
             (digit_char ((y / 10) mod 10)) (digit_char (y mod 10))
             (digit_char (m / 10)) (digit_char (m mod 10))
             (digit_char (d / 10)) (digit_char (d mod 10)).
  intros c1 c2 c3 c4 c5 c6 c7 c8. unfold partition_date.
  rewrite endswith_app_l by (apply endswith_app_l; reflexivity).
  reflexivity.
Qed.

Lemma days_in_month_le (y m : Z) :
  (1 <= m <= 12)%Z -> (days_in_month y m <= 31)%Z.
Proof.
  intros H. unfold days_in_month.
  destruct ((m =? 2)%Z && is_leap y); [lia|].
  assert (C : (m = 1 \/ m = 2 \/ m = 3 \/ m = 4 \/ m = 5 \/ m = 6 \/
               m = 7 \/ m = 8 \/ m = 9 \/ m = 10 \/ m = 11 \/ m = 12)%Z) by lia.
  repeat (destruct C as [->|C]; [vm_compute; discriminate|]).
  subst m. vm_compute. discriminate.
Qed.

Lemma ymd2ord_some (y m d ord : Z) :
  ymd2ord y m d = Some ord -> (1 <= m <= 12)%Z /\ (1 <= d <= 31)%Z.
Proof.
  unfold ymd2ord.
  destruct (_ && _) eqn:E; [|discriminate]. intros _.
  repeat (apply andb_prop in E; destruct E as [E ?]).
  repeat match goal with H : (_ <=? _)%Z = true |- _ => apply Z.leb_le in H end.
  pose proof (days_in_month_le y m ltac:(lia)). lia.
Qed.

Lemma before_fault_in (rm : list string -> exc unit) (l : list (list string)) p :
  In p (before_fault rm l) -> In p l.
Proof.
  induction l as [|q l IH]; [intros []|]. cbn [before_fault].
  destruct (rm q); [|intros []]. intros [->|H]; [left; reflexivity | right; exact (IH H)].
Qed.

Lemma before_fault_all (rm : list string -> exc unit) (l : list (list string)) :
  (forall p, exists u, rm p = Returns u) -> before_fault rm l = l.
Proof.
  intros H. induction l as [|q l IH]; [reflexivity|]. cbn [before_fault].
  destruct (H q) as [u ->]. rewrite IH. reflexivity.
Qed.

End LogFileFacts.

(** X13: the name [get_log_file_path] gives the log file of a day (with a
    year of four digits) is read by the retention sweep as a partition of
    that very day: [log] appends to no other file, the sweep of a moment
    less than 7 days after that day never deletes it, and the sweep of a
    moment more than 7 days after it deletes it when the directory lists
    it and [os.remove] does not raise. *)
Theorem log_file_kept_seven_days (year month day ord : Z) :
  (1000 <= year <= 9999)%Z ->
  Strptime.ymd2ord year month day = Some ord ->
  exists fname,
    MultiReadWrite.get_log_file_path year month day
    = MultiReadWrite.os_path_join MultiReadWrite.LOG_DIR fname /\
    (forall stdout ts append msg printed written p text,
       MultiReadWrite.log stdout ts year month day append msg
       = Returns (printed, written) ->
       In (p, text) written ->
       p = MultiReadWrite.os_path_join MultiReadWrite.LOG_DIR fname) /\
    MultiReadWrite.partition_date fname = Some ord /\
    forall now names rm,
      dt_wf now ->
      ((dt_date now - 7 < ord)%Z ->
       ~ In (MultiReadWrite.os_path_join MultiReadWrite.LOG_DIR fname)
            (MultiReadWrite.removed (MultiReadWrite.purge_old_logs now (Returns names) rm 7))) /\
      ((ord < dt_date now - 7)%Z -> In fname names ->
       (forall p, exists u, rm p = Returns u) ->
       In (MultiReadWrite.os_path_join MultiReadWrite.LOG_DIR fname)
          (MultiReadWrite.removed (MultiReadWrite.purge_old_logs now (Returns names) rm 7))).
Proof.
  intros Hy Ho. destruct (ymd2ord_some _ _ _ _ Ho) as [Hm Hd].
  exists ("plc_reader_" ++ Strptime.strftime_Ymd year month day ++ ".log").
  assert (Pd : MultiReadWrite.partition_date
                 ("plc_reader_" ++ Strptime.strftime_Ymd year month day ++ ".log")
               = Some ord).
  { rewrite partition_date_log_file, strptime_strftime by assumption. exact Ho. }
  split; [reflexivity|]. split; [|split; [exact Pd|]].
  - intros stdout ts append msg printed written p text. unfold MultiReadWrite.log.
    destruct (stdout (ts ++ " | " ++ msg)); [|discriminate].
    destruct (append _ _).
    + intros E. injection E as _ <-. intros [H|[]]. injection H as <- _. reflexivity.
    + destruct (stdout _); [|discriminate]. intros E. injection E as _ <-. intros [].
  - intros now names rm Wf.
    assert (Ex : MultiReadWrite.expired (minus_days now 7)
                   ("plc_reader_" ++ Strptime.strftime_Ymd year month day ++ ".log")
                 = ((ord <? dt_date now - 7) ||
                    ((ord =? dt_date now - 7) && negb (at_midnight now)))%Z).
    { unfold MultiReadWrite.expired. rewrite Pd. rewrite dt_ltb_midnight by exact Wf. reflexivity. }
    rewrite purge_old_logs_removed. split.
    + intros Hlt Hin. apply before_fault_in in Hin. apply in_map_iff in Hin.
      destruct Hin as [f [Ef Hf]]. unfold MultiReadWrite.os_path_join in Ef. injection Ef as ->.
      apply filter_In in Hf. destruct Hf as [_ Hf0].
      pose proof (eq_trans (eq_sym Ex) Hf0) as Hf.
      apply orb_prop in Hf. destruct Hf as [Hf|Hf].
      * apply Z.ltb_lt in Hf. lia.
      * apply andb_prop in Hf. destruct Hf as [Hf _]. apply Z.eqb_eq in Hf. lia.
    + intros Hlt Hin Hrm. rewrite before_fault_all by exact Hrm.
      apply in_map. apply filter_In. split; [exact Hin|]. rewrite Ex.
      apply orb_true_intro. left. apply Z.ltb_lt. exact Hlt.
Qed.

(** The log file of 10 January 2024 at the sweep of noon that day. *)
Lemma log_file_kept_seven_days_witness :
  MultiReadWrite.get_log_file_path 2024 1 10 = ["logs"; "plc_reader_20240110.log"] /\
  MultiReadWrite.partition_date "plc_reader_20240110.log" = Some 738895%Z /\
  ~ In ["logs"; "plc_reader_20240110.log"]
       (MultiReadWrite.removed
          (MultiReadWrite.purge_old_logs Scenario.noon
             (Returns ["plc_reader_20240110.log"]) (fun _ => Returns tt) 7)).
Proof.
  destruct (log_file_kept_seven_days 2024 1 10 738895 ltac:(lia) eq_refl)
    as [fname [P [_ [D K]]]].
  assert (E : fname = "plc_reader_20240110.log").
  { vm_compute in P. injection P as <-. reflexivity. }
  subst fname. split; [reflexivity|]. split; [exact D|].
  refine (proj1 (K Scenario.noon ["plc_reader_20240110.log"] (fun _ => Returns tt) _) _).
  - unfold dt_wf. cbn. lia.
  - cbn. lia.
Defined.

(* ================================================================== *)
(** * What a worker asks of the network *)
(* ================================================================== *)

Section DispatchFacts.
Import PyStr Dict MultiReadWrite.

Lemma read_micro_logix_from_reads lg driver ip tag_list retries :
  forall left attempt,
    let ev := snd (read_micro_logix_from lg driver ip tag_list retries attempt left) in
    Forall (fun e => (exists p, e = EvPing p) -> False) ev /\
    Forall (fun e => is_read e = true -> e = EvSlcRead ip (map tag_name tag_list)) ev /\
    read_attempts ev <= left.
Proof.
  induction left as [|left IH]; intros attempt; cbv zeta; cbn [read_micro_logix_from].
  - cbn. repeat split; try constructor. 
  - destruct (driver attempt (map tag_name tag_list)) as [resp|e].
    + cbn [snd]. split; [|split].
      * constructor; [intros [p H]; discriminate H | constructor].
      * constructor; [intros _; reflexivity | constructor].
      * unfold read_attempts. cbn. lia.
    + destruct (lg _).
      2:{ cbn [snd]. split; [|split].
          - constructor; [intros [p H]; discriminate H | constructor].
          - constructor; [intros _; reflexivity | constructor].
          - unfold read_attempts. cbn. lia. }
      specialize (IH (S attempt)). cbv zeta in IH.
      destruct (read_micro_logix_from lg driver ip tag_list retries (S attempt) left)
        as [rs ev]. cbn [snd] in *. destruct IH as [A [B C]]. split; [|split].
      * repeat (constructor; [intros [p H]; discriminate H|]). exact A.
      * constructor; [intros _; reflexivity|].
        repeat (constructor; [intros H; discriminate H|]). exact B.
      * unfold read_attempts in *. cbn. lia.
Qed.

Lemma read_logix_from_reads lg driver ip tag_list m8 retries :
  forall left attempt,
    let ev := snd (read_logix_from lg driver ip tag_list m8 retries attempt left) in
    Forall (fun e => (exists p, e = EvPing p) -> False) ev /\
    Forall (fun e => is_read e = true -> e = EvLogixRead ip m8 (map tag_name tag_list)) ev /\
    read_attempts ev <= left.
Proof.
  induction left as [|left IH]; intros attempt; cbv zeta; cbn [read_logix_from].
  - cbn. repeat split; try constructor. 
  - destruct (driver attempt (map tag_name tag_list)) as [resp|e].
    + cbn [snd]. split; [|split].
      * constructor; [intros [p H]; discriminate H | constructor].
      * constructor; [intros _; reflexivity | constructor].
      * unfold read_attempts. cbn. lia.
    + destruct (lg _).
      2:{ cbn [snd]. split; [|split].
          - constructor; [intros [p H]; discriminate H | constructor].
          - constructor; [intros _; reflexivity | constructor].
          - unfold read_attempts. cbn. lia. }
      specialize (IH (S attempt)). cbv zeta in IH.
      destruct (read_logix_from lg driver ip tag_list m8 retries (S attempt) left)
        as [rs ev]. cbn [snd] in *. destruct IH as [A [B C]]. split; [|split].
      * repeat (constructor; [intros [p H]; discriminate H|]). exact A.
      * constructor; [intros _; reflexivity|].
        repeat (constructor; [intros H; discriminate H|]). exact B.
      * unfold read_attempts in *. cbn. lia.
Qed.

End DispatchFacts.

(** X14: a worker pings its device once, before anything else, and reads
    at most 3 times; every read goes to the address of the device, asks
    for the names of its catalog tags in catalog order, and uses the
    driver of the family: the SLC driver exactly when the type is
    MICROLOGIX, otherwise the Logix driver, with [Micro800] set exactly
    when the type is MICRO800. *)
Theorem worker_reads_with_family_driver (io : MultiReadWrite.device_io)
    (plc_name : Dict.key) (info : plc_info) (tag_list : list tag_info) :
  let ev := snd (MultiReadWrite.plc_worker io plc_name info tag_list) in
  (exists ev', ev = EvPing (info_ip info) :: ev' /\
               forall p, ~ In (EvPing p) ev') /\
  (forall e, In e ev -> MultiReadWrite.is_read e = true ->
     e = if String.eqb (info_type info) "MICROLOGIX"
         then EvSlcRead (info_ip info) (map tag_name tag_list)
         else EvLogixRead (info_ip info) (String.eqb (info_type info) "MICRO800")
                (map tag_name tag_list)) /\
  MultiReadWrite.read_attempts ev <= 3.
Proof.
  cbv zeta. unfold MultiReadWrite.plc_worker, MultiReadWrite.ping.
  assert (R : exists rs evr,
            (if String.eqb (info_type info) "MICROLOGIX"
             then MultiReadWrite.read_micro_logix (MultiReadWrite.io_log io)
                    (MultiReadWrite.io_slc io) (info_ip info) tag_list 3
             else MultiReadWrite.read_logix (MultiReadWrite.io_log io)
                    (MultiReadWrite.io_logix io)
                    (info_ip info) tag_list (String.eqb (info_type info) "MICRO800") 3)
            = (rs, evr) /\
            Forall (fun e => (exists p, e = EvPing p) -> False) evr /\
            Forall (fun e => MultiReadWrite.is_read e = true ->
                      e = if String.eqb (info_type info) "MICROLOGIX"
                          then EvSlcRead (info_ip info) (map tag_name tag_list)
                          else EvLogixRead (info_ip info)
                                 (String.eqb (info_type info) "MICRO800")
                                 (map tag_name tag_list)) evr /\
            MultiReadWrite.read_attempts evr <= 3).
  { destruct (String.eqb (info_type info) "MICROLOGIX").
    - pose proof (read_micro_logix_from_reads (MultiReadWrite.io_log io)
                    (MultiReadWrite.io_slc io) (info_ip info)
                    tag_list 3 3 0) as H. cbv zeta in H.
      unfold MultiReadWrite.read_micro_logix.
      destruct (MultiReadWrite.read_micro_logix_from _ _ _ _ _ _ _) as [rs evr].
      exists rs, evr. split; [reflexivity | exact H].
    - pose proof (read_logix_from_reads (MultiReadWrite.io_log io)
                    (MultiReadWrite.io_logix io (String.eqb (info_type info) "MICRO800"))
                    (info_ip info) tag_list (String.eqb (info_type info) "MICRO800")
                    3 3 0) as H. cbv zeta in H.
      unfold MultiReadWrite.read_logix.
      destruct (MultiReadWrite.read_logix_from _ _ _ _ _ _ _ _) as [rs evr].
      exists rs, evr. split; [reflexivity | exact H]. }
  destruct R as [rs [evr [E [A [B C]]]]]. rewrite E. clear E.
  rewrite Forall_forall in A, B.
  destruct (MultiReadWrite.io_ping io (info_ip info)) as [out|e].
  - destruct (PyStr.contains "TTL" out); cbn [negb fst snd app].
    + split; [|split].
      * exists evr. split; [reflexivity|]. intros p Hin. apply (A _ Hin). exists p. reflexivity.
      * intros e [<-|Hin] He; [discriminate He | exact (B _ Hin He)].
      * exact C.
    + split; [|split].
      * eexists. split; [reflexivity|]. intros p [H|[]]. discriminate H.
      * intros e [<-|[<-|[]]] He; discriminate He.
      * unfold MultiReadWrite.read_attempts. cbn. lia.
  - cbn [negb fst snd app]. split; [|split].
    + eexists. split; [reflexivity|]. intros p [H|[H|[]]]; discriminate H.
    + intros e0 [<-|[<-|[<-|[]]]] He; discriminate He.
    + unfold MultiReadWrite.read_attempts. cbn. lia.
Qed.

(* ================================================================== *)
(** * The debug reader's results and report *)
(* ================================================================== *)

Section DebugReportFacts.
Import PyStr Dict.

Lemma listed_failed_counts_ok (r : result) :
  DebugMuliRead.listed_failed r = negb (DebugMuliRead.counts_ok r).
Proof.
  unfold DebugMuliRead.listed_failed, DebugMuliRead.counts_ok.
  destruct (value (got r)), (String.eqb (status (got r)) "OK"); reflexivity.
Qed.

Lemma filter_split_length {A : Type} (f g : A -> bool) (l : list A) :
  (forall x, g x = negb (f x)) ->
  List.length (filter f l) + List.length (filter g l) = List.length l.
Proof.
  intros H. induction l as [|x l IH]; [reflexivity|].
  cbn [filter]. rewrite H. destruct (f x); cbn [negb length]; lia.
Qed.

(** A device's part of the results: readings for a prefix of its tags,
    nothing when the read raised; and a reader that raises did so at its
    first [print], before any read. *)
Lemma debug_reader_results (stdout : string -> exc unit) (io : MultiReadWrite.device_io)
    (plc_name : key) (info : plc_info) (tag_list : list tag_info) :
  let r := DebugMuliRead.read_device stdout io plc_name info tag_list in
  (forall res, fst r = Returns res ->
     (exists n, n <= List.length tag_list /\
        map MultiReadWrite.tag_of res = firstn n tag_list) /\
     Forall (fun x => plc x = plc_name) res /\
     ((if String.eqb (info_type info) "MICROLOGIX"
       then exists e, MultiReadWrite.io_slc io 0 (map tag_name tag_list) = Raises e
       else exists e,
           MultiReadWrite.io_logix io (String.eqb (info_type info) "MICRO800") 0
             (map tag_name tag_list) = Raises e) ->
      res = [])) /\
  (forall e, fst r = Raises e -> snd r = []) /\
  ((forall line, exists u, stdout line = Returns u) -> exists res, fst r = Returns res).
Proof.
  cbv zeta.
  assert (Z1 : forall (A : Type) (f : A * tag_info -> result) (l : list A),
            (forall a t, MultiReadWrite.tag_of (f (a, t)) = t) ->
            (forall a t, plc (f (a, t)) = plc_name) ->
            (exists n, n <= List.length tag_list /\
               map MultiReadWrite.tag_of (map f (combine l tag_list)) = firstn n tag_list) /\
            Forall (fun r => plc r = plc_name) (map f (combine l tag_list))).
  { intros A f l Ht Hp. revert l.
    induction tag_list as [|t tl IH]; intros l.
    - split; [exists 0; destruct l; cbn; (split; [lia | reflexivity])|].
      destruct l; constructor.
    - destruct l as [|a l].
      + split; [exists 0; cbn; split; [lia | reflexivity] | constructor].
      + destruct (IH l) as [[n [Hn Hm]] Hf]. split.
        * exists (S n). cbn [combine map firstn length]. split; [lia|].
          rewrite Ht, Hm. reflexivity.
        * cbn [combine map]. constructor; [apply Hp | exact Hf]. }
  assert (Z0 : (exists n, n <= List.length tag_list /\
                  map MultiReadWrite.tag_of (@nil result) = firstn n tag_list) /\
               Forall (fun r => plc r = plc_name) (@nil result)).
  { split; [exists 0; split; [lia | reflexivity] | constructor]. }
  unfold DebugMuliRead.read_device.
  destruct (String.eqb (info_type info) "MICROLOGIX").
  - unfold DebugMuliRead.read_micro_logix.
    split; [|split].
    + intros res. destruct (stdout _); [|discriminate].
      destruct (MultiReadWrite.io_slc io 0 (map tag_name tag_list)) as [resp|e0];
        cbn [fst]; intros E; injection E as <-.
      * destruct (Z1 _ (fun '(r, tinfo) =>
                     {| plc := plc_name;
                        got := {| value := MultiReadWrite.slc_value r;
                                  status := if negb (truthy (MultiReadWrite.slc_error r))
                                            then "OK"
                                            else py_str (MultiReadWrite.slc_error r);
                                  tag := tinfo |} |})
                    (match resp with
                     | MultiReadWrite.SlcList l => l
                     | MultiReadWrite.SlcOne t => [t]
                     end) (fun _ _ => eq_refl) (fun _ _ => eq_refl)) as [P F].
        split; [exact P|]. split; [exact F|]. intros [e H]. discriminate H.
      * destruct Z0 as [P F]. split; [exact P|]. split; [exact F|]. reflexivity.
    + intros e. destruct (stdout _); [|reflexivity].
      destruct (MultiReadWrite.io_slc io 0 (map tag_name tag_list)); discriminate.
    + intros L.
      destruct (L (String "010" (" → MICROLOGIX READ: " ++ fmt plc_name ++ " @ " ++
                                 info_ip info))) as [u ->].
      destruct (MultiReadWrite.io_slc io 0 (map tag_name tag_list));
        eexists; reflexivity.
  - unfold DebugMuliRead.read_logix.
    split; [|split].
    + intros res. destruct (stdout _); [|discriminate].
      destruct (MultiReadWrite.io_logix io _ 0 (map tag_name tag_list)) as [resp|e0];
        cbn [fst]; intros E; injection E as <-.
      * destruct (Z1 _ (fun '(resp, tinfo) =>
                     {| plc := plc_name;
                        got := {| value := MultiReadWrite.lx_Value resp;
                                  status := MultiReadWrite.lx_Status resp;
                                  tag := tinfo |} |})
                    resp (fun _ _ => eq_refl) (fun _ _ => eq_refl)) as [P F].
        split; [exact P|]. split; [exact F|]. intros [e H]. discriminate H.
      * destruct Z0 as [P F]. split; [exact P|]. split; [exact F|]. reflexivity.
    + intros e. destruct (stdout _); [|reflexivity].
      destruct (MultiReadWrite.io_logix io _ 0 (map tag_name tag_list)); discriminate.
    + intros L.
      destruct (L (String "010" (" → LOGIX READ: " ++ fmt plc_name ++ " @ " ++
                                 info_ip info ++ " (Type=" ++ info_type info ++ ")")))
        as [u ->].
      destruct (MultiReadWrite.io_logix io _ 0 (map tag_name tag_list));
        eexists; reflexivity.
Qed.

End DebugReportFacts.

Section DebugRunFacts.
Import PyStr Dict.

Variable stdout : string -> exc unit.
Variable device : key -> MultiReadWrite.device_io.
Variable excel_tags : dict (list tag_info).

Lemma read_all_results (plcs : dict plc_info) :
  forall rs,
    fst (DebugMuliRead.read_all stdout device excel_tags plcs) = Returns rs ->
    List.length rs <= MultiReadWrite.catalog_size plcs excel_tags /\
    forall r, In r rs ->
      exists info tag_list,
        In (plc r, info) plcs /\ Dict.get (plc r) excel_tags = Some tag_list /\
        In (MultiReadWrite.tag_of r) tag_list.
Proof.
  induction plcs as [|[name info] rest IH]; intros rs.
  - cbn. intros E. injection E as <-. split; [cbn; lia | intros r []].
  - cbn [DebugMuliRead.read_all MultiReadWrite.catalog_size].
    destruct (Dict.get name excel_tags) as [tl|] eqn:G.
    + destruct (debug_reader_results stdout (device name) name info tl) as [D _].
      destruct (DebugMuliRead.read_device stdout (device name) name info tl)
        as [[res|e] ev1]; [|discriminate].
      cbn [fst] in D. destruct (D res eq_refl) as [[n [Hn Hm]] [Hp _]].
      destruct (DebugMuliRead.read_all stdout device excel_tags rest)
        as [[rs'|e] ev]; [|discriminate].
      cbn [fst] in *. intros E. injection E as <-.
      destruct (IH rs' eq_refl) as [Hl Hin]. split.
      * rewrite length_app.
        assert (L : List.length res <= List.length tl).
        { rewrite <- (length_map MultiReadWrite.tag_of), Hm, length_firstn. lia. }
        lia.
      * intros r Hr. apply in_app_or in Hr. destruct Hr as [Hr|Hr].
        -- rewrite Forall_forall in Hp. rewrite (Hp _ Hr).
           exists info, tl. split; [left; reflexivity|]. split; [exact G|].
           rewrite <- (firstn_skipn n tl). apply in_or_app. left.
           rewrite <- Hm. apply in_map. exact Hr.
        -- destruct (Hin r Hr) as [info' [tl' [H1 [H2 H3]]]].
           exists info', tl'. split; [right; exact H1|]. split; assumption.
    + destruct (DebugMuliRead.read_all stdout device excel_tags rest) as [o ev].
      cbn [fst] in *. intros E. destruct (IH rs E) as [Hl Hin]. split; [exact Hl|].
      intros r Hr. destruct (Hin r Hr) as [info' [tl' [H1 [H2 H3]]]].
      exists info', tl'. split; [right; exact H1|]. split; assumption.
Qed.

Lemma read_all_returns (plcs : dict plc_info) :
  (forall line, exists u, stdout line = Returns u) ->
  exists rs, fst (DebugMuliRead.read_all stdout device excel_tags plcs) = Returns rs.
Proof.
  intros L. induction plcs as [|[name info] rest IH]; [eexists; reflexivity|].
  cbn [DebugMuliRead.read_all]. destruct IH as [rs' E'].
  destruct (Dict.get name excel_tags) as [tl|].
  - destruct (debug_reader_results stdout (device name) name info tl) as [_ [_ R]].
    destruct (R L) as [res E].
    destruct (DebugMuliRead.read_device stdout (device name) name info tl) as [o ev1].
    cbn [fst] in E. subst o.
    destruct (DebugMuliRead.read_all stdout device excel_tags rest) as [o ev].
    cbn [fst] in E'. subst o. eexists. reflexivity.
  - destruct (DebugMuliRead.read_all stdout device excel_tags rest) as [o ev].
    cbn [fst] in *. exists rs'. exact E'.
Qed.

End DebugRunFacts.

(** X15: when the debug reader's loop over the devices returns, it has
    gathered, for each configured device that has tags, readings for a
    prefix of its tag list, and none when the one read of the device raised
    (it builds no placeholder): so it reports at most the catalog size, and
    every result carries the name of a configured device and one of that
    device's tags.  The loop returns when [print] returns for every line;
    a reader that raises did so at its first [print], before any read. *)
Theorem debug_results_from_catalog (stdout : string -> exc unit)
    (device : Dict.key -> MultiReadWrite.device_io)
    (excel_tags : Dict.dict (list tag_info)) (plcs : Dict.dict plc_info) :
  (forall rs,
     fst (DebugMuliRead.read_all stdout device excel_tags plcs) = Returns rs ->
     List.length rs <= MultiReadWrite.catalog_size plcs excel_tags /\
     (forall r, In r rs ->
        exists info tag_list,
          In (plc r, info) plcs /\ Dict.get (plc r) excel_tags = Some tag_list /\
          In (MultiReadWrite.tag_of r) tag_list)) /\
  (forall plc_name info tag_list,
     let r := DebugMuliRead.read_device stdout (device plc_name) plc_name info tag_list in
     (forall res, fst r = Returns res ->
        (exists n, n <= List.length tag_list /\
           map MultiReadWrite.tag_of res = firstn n tag_list) /\
        ((if String.eqb (info_type info) "MICROLOGIX"
          then exists e,
              MultiReadWrite.io_slc (device plc_name) 0 (map tag_name tag_list) = Raises e
          else exists e,
              MultiReadWrite.io_logix (device plc_name)
                (String.eqb (info_type info) "MICRO800") 0 (map tag_name tag_list)
              = Raises e) ->
         res = [])) /\
     (forall e, fst r = Raises e -> snd r = [])) /\
  ((forall line, exists u, stdout line = Returns u) ->
   exists rs, fst (DebugMuliRead.read_all stdout device excel_tags plcs) = Returns rs).
Proof.
  split; [apply read_all_results|]. split; [|apply read_all_returns].
  intros plc_name info tag_list. cbv zeta.
  destruct (debug_reader_results stdout (device plc_name) plc_name info tag_list)
    as [D [E _]].
  split; [|exact E]. intros res Hr. destruct (D res Hr) as [P [_ Z]].
  split; [exact P | exact Z].
Qed.

(** X16: in the report of the debug reader the three counts add up and
    the tags listed under FAILED TAGS are as many as the count printed as
    failed: a result is listed exactly when it is not counted as
    successful, and the section is left out exactly when that count is 0. *)
Theorem debug_report_counts_agree (all_results : list result) :
  let total := List.length all_results in
  let ok := List.length (filter DebugMuliRead.counts_ok all_results) in
  let failed := total - ok in
  ok + failed = total /\
  List.length (filter DebugMuliRead.listed_failed all_results) = failed /\
  (forall r, DebugMuliRead.listed_failed r = negb (DebugMuliRead.counts_ok r)) /\
  List.length (DebugMuliRead.report all_results)
  = total + 6 + (if (0 <? failed)%nat then S failed else 0).
Proof.
  intros total ok failed.
  pose proof (filter_split_length DebugMuliRead.counts_ok DebugMuliRead.listed_failed
                all_results listed_failed_counts_ok) as H.
  fold ok in H. fold total in H.
  assert (F : List.length (filter DebugMuliRead.listed_failed all_results) = failed)
    by (unfold failed; lia).
  split; [unfold failed; lia|]. split; [exact F|].
  split; [exact listed_failed_counts_ok|].
  unfold DebugMuliRead.report. fold total. fold ok. fold failed.
  cbn [length]. rewrite !length_app, length_map. fold total.
  destruct (0 <? failed)%nat; cbn [length]; rewrite ?length_map, ?F; lia.
Qed.

Section DebugLoaderFacts.
Import PyStr Dict.

Lemma set_set {V : Type} (k : key) (v0 v : V) (d : dict V) :
  Dict.set k v (Dict.set k v0 d) = Dict.set k v d.
Proof.
  induction d as [|[k' v'] d IH]; cbn [Dict.set].
  - rewrite key_eqb_refl. reflexivity.
  - destruct (key_eqb k k') eqn:E; cbn [Dict.set]; rewrite E; [reflexivity|].
    rewrite IH. reflexivity.
Qed.

(** The loop of the debug reader builds the tag map the loop of the service
    builds: the two normalizers agree, and creating the empty list before
    the append leaves the same dictionary. *)
Lemma debug_load_rows_eq (rows : list (list pyval)) :
  forall row tag_map,
    DebugMuliRead.load_rows row rows tag_map = MultiReadWrite.load_rows row rows tag_map.
Proof.
  induction rows as [|cells rest IH]; intros row tag_map; [reflexivity|].
  cbn [DebugMuliRead.load_rows MultiReadWrite.load_rows].
  change DebugMuliRead.COL_TAGNAME with MultiReadWrite.COL_TAGNAME.
  destruct (negb (truthy (MultiReadWrite.row_cell cells MultiReadWrite.COL_TAGNAME)));
    [reflexivity|].
  cbv zeta. unfold MultiReadWrite.row_entry, MultiReadWrite.tag_append.
  rewrite normalize_excel_plc_name_eq.
  change DebugMuliRead.COL_PLC with MultiReadWrite.COL_PLC.
  change DebugMuliRead.COL_TAGINDEX with MultiReadWrite.COL_TAGINDEX.
  change DebugMuliRead.COL_TAGTYPE with MultiReadWrite.COL_TAGTYPE.
  change DebugMuliRead.COL_TAGDATATYPE with MultiReadWrite.COL_TAGDATATYPE.
  set (k := MultiReadWrite.normalize_plc_name
              (MultiReadWrite.row_cell cells MultiReadWrite.COL_PLC)).
  destruct (Dict.get k tag_map) as [l|] eqn:G.
  - rewrite G. apply IH.
  - rewrite get_set_same, set_set. cbn [app]. apply IH.
Qed.

End DebugLoaderFacts.

(** X17: with [EXCEL_FILE_MAIN] and [EXCEL_SHEET_MAIN] both set, the
    debug reader's [load_excel_tags] opens the same sheet as the service's
    and its own loop, with its own normalizer, builds the same tag map; it
    raises when the service's raises. *)
Theorem debug_loader_agrees (environ : list (string * string))
    (open_sheet : option string -> option string -> exc MultiReadWrite.grid)
    (file sheet : string) :
  getenv environ "EXCEL_FILE_MAIN" = Some file ->
  getenv environ "EXCEL_SHEET_MAIN" = Some sheet ->
  DebugMuliRead.load_excel_tags environ open_sheet
  = match MultiReadWrite.load_excel_tags environ open_sheet with
    | Returns (_, tag_map) => Returns tag_map
    | Raises e => Raises e
    end.
Proof.
  intros Hf Hs.
  unfold DebugMuliRead.load_excel_tags, MultiReadWrite.load_excel_tags.
  rewrite Hf, Hs. destruct (open_sheet (Some file) (Some sheet)) as [ws|e];
    [|reflexivity].
  rewrite debug_load_rows_eq. reflexivity.
Qed.

(** A sheet with a header and two tag rows of device A, spelled two ways. *)
Lemma debug_loader_agrees_witness :
  let environ := [("EXCEL_FILE_MAIN", "Tags.xlsx"); ("EXCEL_SHEET_MAIN", "Main")] in
  let open_sheet (f s : option string) : exc MultiReadWrite.grid :=
    Returns [[PyStr "PLC"; PyStr "TagName"; PyStr "TagIndex"];
             [PyStr "A"; PyStr "P2_FLOW"; PyInt 10; PyInt 1; PyInt 2];
             [PyStr "::[A]"; PyStr "P2_TEMP"; PyInt 11; PyInt 1; PyInt 2]] in
  DebugMuliRead.load_excel_tags environ open_sheet
  = match MultiReadWrite.load_excel_tags environ open_sheet with
    | Returns (_, tag_map) => Returns tag_map
    | Raises e => Raises e
    end.
Proof.
  cbv zeta.
  exact (debug_loader_agrees
           [("EXCEL_FILE_MAIN", "Tags.xlsx"); ("EXCEL_SHEET_MAIN", "Main")]
           (fun _ _ =>
              Returns [[PyStr "PLC"; PyStr "TagName"; PyStr "TagIndex"];
                       [PyStr "A"; PyStr "P2_FLOW"; PyInt 10; PyInt 1; PyInt 2];
                       [PyStr "::[A]"; PyStr "P2_TEMP"; PyInt 11; PyInt 1; PyInt 2]])
           "Tags.xlsx" "Main" eq_refl eq_refl).
Defined.
